(** * Maintenance alert engine of the fleet tracker

    A shallow embedding of the alert rules (the dashboard card's
    [getMaintenanceAlerts] and the cloud function's [checkMaintenanceDue]),
    of the alert-clearing workflow ([clearMaintenanceAlert] and the modal that
    calls it) and of the e-mail fan-out ([sendWithMailerSend],
    [sendMaintenanceAlert], [dailyMaintenanceCheck]).

    Conventions.
    - Instants (JavaScript [Date], Firestore [Timestamp]) are integers:
      milliseconds since the epoch.  Differences of instants and their
      quotient by the length of a day are then exact, so [Math.ceil] of that
      quotient is the integer ceiling.
    - An optional or possibly missing document field is an [option].
    - A template literal is kept as the tuple of the values it interpolates
      (type [Message]); its rendering depends on the locale of the host.
    - Code that may throw returns a [result]. *)

From Stdlib Require Import ZArith Lia Bool List.
From stdpp Require Import base option numbers list strings gmap.

Local Open Scope Z_scope.

(** ** JavaScript values used by the program *)

Module JS.

(** The value carried by a [throw]. *)
Inductive JsError :=
| TypeError (msg : string)
| Error (msg : string).

Definition message (e : JsError) : string :=
  match e with TypeError m => m | Error m => m end.

Inductive result (A : Type) :=
| Ok (a : A)
| Throw (e : JsError).
Arguments Ok {A} a.
Arguments Throw {A} e.

Definition bind {A B} (r : result A) (k : A -> result B) : result B :=
  match r with Ok a => k a | Throw e => Throw e end.

Definition isOk {A} (r : result A) : bool :=
  match r with Ok _ => true | Throw _ => false end.

(** [x.toLocaleString()] where [x] is a number field that may be missing:
    the method call on [undefined] throws. *)
Definition toLocaleString (x : option Z) : result Z :=
  match x with
  | Some n => Ok n
  | None =>
      Throw (TypeError "Cannot read properties of undefined (reading 'toLocaleString')")
  end.

(** [x || 0] on a number field that may be missing. *)
Definition orZero (x : option Z) : Z :=
  match x with Some n => n | None => 0 end.

(** Text typed by a user is a sequence of UTF-16 code units. *)
Definition text := list N.

(** WhiteSpace and LineTerminator code points of ECMAScript, the ones
    [String.prototype.trim] strips. *)
Definition isWhiteSpace (c : N) : bool :=
  ((9 <=? c) && (c <=? 13) || (c =? 32) || (c =? 160) || (c =? 5760)
   || (8192 <=? c) && (c <=? 8202) || (c =? 8232) || (c =? 8233)
   || (c =? 8239) || (c =? 8287) || (c =? 12288) || (c =? 65279))%N.

Fixpoint trimStart (s : text) : text :=
  match s with
  | c :: s' => if isWhiteSpace c then trimStart s' else s
  | [] => []
  end.

Definition trimEnd (s : text) : text := rev (trimStart (rev s)).

Definition trim (s : text) : text := trimEnd (trimStart s).

(** Truthiness of a string: the empty string is the only falsy one. *)
Definition truthy (s : text) : bool :=
  match s with [] => false | _ => true end.

Definition lit (s : string) : text :=
  map (fun a => N.of_nat (Ascii.nat_of_ascii a)) (String.list_ascii_of_string s).

End JS.
Import JS.

Notation "x <- r ;; k" := (JS.bind r (fun x => k))
  (at level 100, r at next level, right associativity, only parsing).

(** ** Data model (src/types/index.ts) *)

Inductive ServiceStatus := in_service | out_of_service.

(** The keys of [Truck.alertsCleared], also the [type] of an [AlertInfo]. *)
Inductive AlertType :=
| oilChange | inspection | oemsInspection | brakeChange | tireChange.

Definition alertKey (k : AlertType) : string :=
  match k with
  | oilChange => "oilChange"
  | inspection => "inspection"
  | oemsInspection => "oemsInspection"
  | brakeChange => "brakeChange"
  | tireChange => "tireChange"
  end.

Inductive Priority := overdue | due_soon.

Record Truck := mkTruck {
  id : string;
  unitNumber : string;
  vin : string;
  vehicleType : string;
  vehicleYear : Z;
  status : ServiceStatus;
  outOfServiceReason : option string;
  mileage : Z;
  mileageLastUpdated : option Z;
  lastOilChange : option Z;
  lastOilChangeMileage : option Z;
  inspectionStickerExpiry : option Z;
  oemsInspectionExpiry : option Z;
  lastBrakeChange : option Z;
  lastBrakeChangeMileage : option Z;
  lastTireChange : option Z;
  lastTireChangeMileage : option Z;
  lastMaintenanceAlertSent : option Z;
  alertsCleared : option (gmap string Z);
  updatedAt : Z;
  updatedBy : string
}.

(** The values interpolated into an alert's message. *)
Inductive Message :=
| OverdueBy (milesOverdue lastChangedAt : Z) (lastChangedOn : option Z) (nextDueAt : Z)
| DueIn (miles lastChangedAt : Z) (lastChangedOn : option Z) (nextDueAt : Z)
| ExpiredOn (expiry : Z)
| ExpiresIn (days expiry : Z).

(** One entry of the alert list.  The card stores the key in [type] and a
    title next to it; the cloud function stores only the title, which is a
    fixed text per key. *)
Record AlertInfo := mkAlert {
  type : AlertType;
  priority : Priority;
  message : Message
}.

Global Instance ServiceStatus_eq_dec : EqDecision ServiceStatus.
Proof. solve_decision. Defined.
Global Instance AlertType_eq_dec : EqDecision AlertType.
Proof. solve_decision. Defined.
Global Instance Priority_eq_dec : EqDecision Priority.
Proof. solve_decision. Defined.

(** ** The alert rules *)

Module Rules.

(** [7 * 24 * 60 * 60 * 1000] *)
Definition sevenDays : Z := 7 * 24 * 60 * 60 * 1000.

(** [1000 * 60 * 60 * 24] *)
Definition msPerDay : Z := 1000 * 60 * 60 * 24.

(** [Math.ceil(ms / (1000 * 60 * 60 * 24))] *)
Definition ceilDays (ms : Z) : Z := - ((- ms) / msPerDay).

(** The helper both evaluators define inside their body:
<<
    const clearedDate = truck.alertsCleared?.[alertType];
    if (!clearedDate) return false;
    ...
    return cleared > sevenDaysAgo;
>> *)
Definition isAlertClearedRecently (truck : Truck) (sevenDaysAgo : Z)
    (alertType : AlertType) : bool :=
  match alertsCleared truck with
  | None => false
  | Some cleared_map =>
      match cleared_map !! alertKey alertType with
      | None => false
      | Some cleared => sevenDaysAgo <? cleared
      end
  end.

(** A mileage block (oil, brakes, tires).  It yields the entry it pushes. *)
Definition mileageBlock (alertType : AlertType) (interval margin : Z)
    (lastMileage lastDate : option Z) (truck : Truck) (sevenDaysAgo : Z)
    : result (option AlertInfo) :=
  let nextDue := orZero lastMileage + interval in
  if (nextDue <=? mileage truck) && negb (isAlertClearedRecently truck sevenDaysAgo alertType)
  then
    let milesOverdue := mileage truck - nextDue in
    last <- toLocaleString lastMileage ;;
    Ok (Some (mkAlert alertType overdue (OverdueBy milesOverdue last lastDate nextDue)))
  else if (nextDue - margin <=? mileage truck)
          && negb (isAlertClearedRecently truck sevenDaysAgo alertType)
  then
    last <- toLocaleString lastMileage ;;
    Ok (Some (mkAlert alertType due_soon (DueIn (nextDue - mileage truck) last lastDate nextDue)))
  else Ok None.

(** Oil Change Check (every 5000 miles) *)
Definition oilChangeCheck (truck : Truck) (sevenDaysAgo : Z) :=
  mileageBlock oilChange 5000 500
    (lastOilChangeMileage truck) (lastOilChange truck) truck sevenDaysAgo.

(** Brake Change Check (every 25000 miles) *)
Definition brakeChangeCheck (truck : Truck) (sevenDaysAgo : Z) :=
  mileageBlock brakeChange 25000 2500
    (lastBrakeChangeMileage truck) (lastBrakeChange truck) truck sevenDaysAgo.

(** Tire Change Check (every 40000 miles) *)
Definition tireChangeCheck (truck : Truck) (sevenDaysAgo : Z) :=
  mileageBlock tireChange 40000 4000
    (lastTireChangeMileage truck) (lastTireChange truck) truck sevenDaysAgo.

(** A date block (the two inspections, 30 days warning).  [today] is the
    instant the block subtracts from the expiry date. *)
Definition expiryBlock (alertType : AlertType) (expiry : option Z)
    (truck : Truck) (sevenDaysAgo today : Z) : option AlertInfo :=
  match expiry with
  | Some expiryDate =>
      if negb (isAlertClearedRecently truck sevenDaysAgo alertType) then
        let daysUntilExpiry := ceilDays (expiryDate - today) in
        if daysUntilExpiry <=? 0 then
          Some (mkAlert alertType overdue (ExpiredOn expiryDate))
        else if daysUntilExpiry <=? 30 then
          Some (mkAlert alertType due_soon (ExpiresIn daysUntilExpiry expiryDate))
        else None
      else None
  | None => None
  end.

(** WV Inspection Check *)
Definition inspectionCheck (truck : Truck) (sevenDaysAgo today : Z) :=
  expiryBlock inspection (inspectionStickerExpiry truck) truck sevenDaysAgo today.

(** OEMS Inspection Check *)
Definition oemsInspectionCheck (truck : Truck) (sevenDaysAgo today : Z) :=
  expiryBlock oemsInspection (oemsInspectionExpiry truck) truck sevenDaysAgo today.

(** The pushed entries, in push order. *)
Definition pushed (entries : list (option AlertInfo)) : list AlertInfo :=
  omap (fun e => e) entries.

(** The five blocks in the order of the source.  [now] is the instant read
    first, from which [sevenDaysAgo] is taken; [todayInspection] and
    [todayOems] are the instants the two date blocks subtract. *)
Definition alertsAt (now todayInspection todayOems : Z) (truck : Truck)
    : result (list AlertInfo) :=
  let sevenDaysAgo := now - sevenDays in
  oil <- oilChangeCheck truck sevenDaysAgo ;;
  let wv := inspectionCheck truck sevenDaysAgo todayInspection in
  let oems := oemsInspectionCheck truck sevenDaysAgo todayOems in
  brake <- brakeChangeCheck truck sevenDaysAgo ;;
  tire <- tireChangeCheck truck sevenDaysAgo ;;
  Ok (pushed [oil; wv; oems; brake; tire]).

(** The entry of a given key in an alert list. *)
Definition alertFor (k : AlertType) (alerts : list AlertInfo) : option AlertInfo :=
  List.find (fun a => bool_decide (type a = k)) alerts.

(** The block of a given key, as [alertsAt] runs it. *)
Definition blockOf (k : AlertType) (now todayInspection todayOems : Z) (truck : Truck)
    : result (option AlertInfo) :=
  let sevenDaysAgo := now - sevenDays in
  match k with
  | oilChange => oilChangeCheck truck sevenDaysAgo
  | inspection => Ok (inspectionCheck truck sevenDaysAgo todayInspection)
  | oemsInspection => Ok (oemsInspectionCheck truck sevenDaysAgo todayOems)
  | brakeChange => brakeChangeCheck truck sevenDaysAgo
  | tireChange => tireChangeCheck truck sevenDaysAgo
  end.

End Rules.

(** ** The dashboard card (TruckCard.tsx) *)

Module TruckCard.
Import Rules.

(** [getMaintenanceAlerts]: every block uses the one instant [now]. *)
Definition getMaintenanceAlerts (now : Z) (truck : Truck) : result (list AlertInfo) :=
  alertsAt now now now truck.

End TruckCard.

(** ** The document store (Firestore) *)

(** A record of the [maintenance] collection, as [clearMaintenanceAlert]
    writes it. *)
Record MaintenanceRecord := mkRecord {
  truckId : string;
  truckUnitNumber : string;
  recordType : string;
  description : string;
  date : Z;
  recordMileage : Z;
  cost : Z;
  performedBy : string;
  notes : JS.text;
  createdAt : Z;
  createdBy : string
}.

(** The store and its surroundings: the [trucks] collection by document id,
    the [maintenance] collection in insertion order, the clock, and the fate
    of the coming calls to the store, in call order ([Some msg]: the call is
    rejected with that message; past the end of the list calls succeed).
    The clock is what [new Date()] returns; it moves when a timer is awaited
    and while the sends of a digest are awaited, and calls to the store take
    no time on it. *)
Record World := mkWorld {
  trucks : gmap string Truck;
  maintenance : list MaintenanceRecord;
  clock : Z;
  faults : list (option string)
}.

Module Firestore.

Definition withTrucks (ts : gmap string Truck) (w : World) : World :=
  mkWorld ts (maintenance w) (clock w) (faults w).

Definition withMaintenance (ms : list MaintenanceRecord) (w : World) : World :=
  mkWorld (trucks w) ms (clock w) (faults w).

Definition withClock (c : Z) (w : World) : World :=
  mkWorld (trucks w) (maintenance w) c (faults w).

Definition withFaults (fs : list (option string)) (w : World) : World :=
  mkWorld (trucks w) (maintenance w) (clock w) fs.

(** Start of a call to the store: its fate is taken off the script. *)
Definition call (w : World) : option string * World :=
  match faults w with
  | [] => (None, w)
  | f :: fs => (f, withFaults fs w)
  end.

(** [setTimeout] awaited for [ms] milliseconds. *)
Definition sleep (ms : Z) (w : World) : World := withClock (clock w + ms) w.

(** [getDoc(doc(db, 'trucks', key))]: the snapshot, [None] when the
    document does not exist. *)
Definition getDoc (key : string) (w : World) : result (option Truck) * World :=
  match call w with
  | (Some msg, w') => (Throw (Error msg), w')
  | (None, w') => (Ok (trucks w' !! key), w')
  end.

(** [updateDoc(ref, fields)]: [fields] overwrites the named fields of an
    existing document; the call is rejected when there is none. *)
Definition updateDoc (key : string) (fields : Truck -> Truck) (w : World)
    : result unit * World :=
  match call w with
  | (Some msg, w') => (Throw (Error msg), w')
  | (None, w') =>
      match trucks w' !! key with
      | Some t => (Ok tt, withTrucks (<[key := fields t]> (trucks w')) w')
      | None => (Throw (Error "No document to update"), w')
      end
  end.

(** [addDoc(collection(db, 'maintenance'), r)] *)
Definition addDoc (r : MaintenanceRecord) (w : World) : result unit * World :=
  match call w with
  | (Some msg, w') => (Throw (Error msg), w')
  | (None, w') => (Ok tt, withMaintenance (maintenance w' ++ [r]) w')
  end.

(** [collection('trucks').get()] followed by [docs.map(doc => doc.data())] *)
Definition getTrucks (w : World) : result (list Truck) * World :=
  match call w with
  | (Some msg, w') => (Throw (Error msg), w')
  | (None, w') => (Ok (snd <$> map_to_list (trucks w')), w')
  end.

End Firestore.

(** Field writes on a truck document. *)
Definition setAlertsCleared (v : option (gmap string Z)) (t : Truck) : Truck :=
  mkTruck (id t) (unitNumber t) (vin t) (vehicleType t) (vehicleYear t) (status t)
    (outOfServiceReason t) (mileage t) (mileageLastUpdated t) (lastOilChange t)
    (lastOilChangeMileage t) (inspectionStickerExpiry t) (oemsInspectionExpiry t)
    (lastBrakeChange t) (lastBrakeChangeMileage t) (lastTireChange t)
    (lastTireChangeMileage t) (lastMaintenanceAlertSent t) v (updatedAt t) (updatedBy t).

Definition setUpdatedAt (v : Z) (t : Truck) : Truck :=
  mkTruck (id t) (unitNumber t) (vin t) (vehicleType t) (vehicleYear t) (status t)
    (outOfServiceReason t) (mileage t) (mileageLastUpdated t) (lastOilChange t)
    (lastOilChangeMileage t) (inspectionStickerExpiry t) (oemsInspectionExpiry t)
    (lastBrakeChange t) (lastBrakeChangeMileage t) (lastTireChange t)
    (lastTireChangeMileage t) (lastMaintenanceAlertSent t) (alertsCleared t) v (updatedBy t).

Definition setUpdatedBy (v : string) (t : Truck) : Truck :=
  mkTruck (id t) (unitNumber t) (vin t) (vehicleType t) (vehicleYear t) (status t)
    (outOfServiceReason t) (mileage t) (mileageLastUpdated t) (lastOilChange t)
    (lastOilChangeMileage t) (inspectionStickerExpiry t) (oemsInspectionExpiry t)
    (lastBrakeChange t) (lastBrakeChangeMileage t) (lastTireChange t)
    (lastTireChangeMileage t) (lastMaintenanceAlertSent t) (alertsCleared t) (updatedAt t) v.

Definition setLastMaintenanceAlertSent (v : option Z) (t : Truck) : Truck :=
  mkTruck (id t) (unitNumber t) (vin t) (vehicleType t) (vehicleYear t) (status t)
    (outOfServiceReason t) (mileage t) (mileageLastUpdated t) (lastOilChange t)
    (lastOilChangeMileage t) (inspectionStickerExpiry t) (oemsInspectionExpiry t)
    (lastBrakeChange t) (lastBrakeChangeMileage t) (lastTireChange t)
    (lastTireChangeMileage t) v (alertsCleared t) (updatedAt t) (updatedBy t).

(** ** The alert-clearing workflow (services/firebase.ts, ClearAlertModal.tsx) *)

Module Clearance.
Import Firestore.

Definition maxRetries : nat := 3.

(** The label put into the record's description. *)
Definition alertLabel (alertType : string) : string :=
  if decide (alertType = "oilChange") then "Oil Change"
  else if decide (alertType = "brakeChange") then "Brake Service"
  else if decide (alertType = "tireChange") then "Tire Service"
  else if decide (alertType = "inspection") then "WV Inspection"
  else if decide (alertType = "oemsInspection") then "OEMS Inspection"
  else alertType.

(** [userId || 'alert-clear-system'] *)
Definition author (userId : option string) : string :=
  match userId with
  | Some u => if decide (u = "") then "alert-clear-system" else u
  | None => "alert-clear-system"
  end.

(** The document handed to [addDoc]; its dates are read when the attempt
    starts. *)
Definition dismissalRecord (truckId alertType : string) (notes : JS.text)
    (userId : option string) (truckData : Truck) (now : Z) : MaintenanceRecord :=
  mkRecord truckId (unitNumber truckData) "other"
    ("Maintenance Alert Cleared: " +:+ alertLabel alertType)
    now (mileage truckData) 0 "Alert Clear System"
    (JS.lit "Maintenance alert dismissed without performing work. Mechanic assessment: "
       ++ notes)
    now (author userId).

(** The retry loop
<<
    while (!maintenanceRecordCreated && retryCount < maxRetries) { ... }
>>
    [remaining] is [maxRetries - retryCount], the number of iterations the
    loop condition still allows. *)
Fixpoint createRecord (remaining : nat) (retryCount : nat)
    (mk : Z -> MaintenanceRecord) (w : World) : result unit * World :=
  match remaining with
  | O => (Ok tt, w)
  | S remaining' =>
      match addDoc (mk (clock w)) w with
      | (Ok _, w') => (Ok tt, w')
      | (Throw recordError, w') =>
          let retryCount := S retryCount in
          if (maxRetries <=? retryCount)%nat then
            (Throw (Error ("Failed to create maintenance record for alert clearing: "
                             +:+ JS.message recordError)), w')
          else
            createRecord remaining' retryCount mk
              (sleep (1000 * Z.of_nat retryCount) w')
      end
  end.

(** [clearMaintenanceAlert(truckId, alertType, notes, userId)].  The outer
    [try ... catch] logs and rethrows. *)
Definition clearMaintenanceAlert (truckId alertType : string) (notes : JS.text)
    (userId : option string) (w : World) : result unit * World :=
  match getDoc truckId w with
  | (Throw e, w1) => (Throw e, w1)
  | (Ok None, w1) => (Throw (Error "Truck not found"), w1)
  | (Ok (Some truckData), w1) =>
      let currentAlertsCleared := default ∅ (alertsCleared truckData) in
      let updatedAlertsCleared := <[alertType := clock w1]> currentAlertsCleared in
      match updateDoc truckId
              (fun t => setUpdatedBy (author userId)
                          (setUpdatedAt (clock w1)
                             (setAlertsCleared (Some updatedAlertsCleared) t))) w1 with
      | (Throw e, w2) => (Throw e, w2)
      | (Ok _, w2) =>
          createRecord maxRetries 0
            (dismissalRecord truckId alertType notes userId truckData) w2
      end
  end.

(** What the modal's [handleClearAlert] does with the text of its notes
    field and the handler [onClearAlert] it was given. *)
Inductive ModalOutcome :=
| AskForNotes      (* alert 'Please provide notes ...', nothing is called *)
| Closed           (* the handler returned: the modal closes *)
| FailedToClear.   (* the handler threw: alert 'Failed to clear alert ...' *)

Definition handleClearAlert (truck : Truck) (alertType : AlertType)
    (notes : JS.text)
    (onClearAlert : string -> string -> JS.text -> World -> result unit * World)
    (w : World) : ModalOutcome * World :=
  if negb (JS.truthy (JS.trim notes)) then (AskForNotes, w)
  else
    match onClearAlert (id truck) (alertKey alertType) (JS.trim notes) w with
    | (Ok _, w') => (Closed, w')
    | (Throw _, w') => (FailedToClear, w')
    end.

(** The dashboard's handler, bound to the signed-in user. *)
Definition dashboardHandleClearAlert (uid : option string)
    (truckId alertType : string) (notes : JS.text) (w : World) :=
  clearMaintenanceAlert truckId alertType notes uid w.

End Clearance.

(** ** The cloud functions (functions/mailersend.js, functions/index.js) *)

Module Functions.
Import Rules Firestore.

(** *** The maintenance check *)

(** An element of [trucksWithMaintenance]: [{...truck, alerts, hasOverdue}]. *)
Record BatchEntry := mkEntry {
  entryTruck : Truck;
  alerts : list AlertInfo;
  hasOverdue : bool
}.

(** The blocks that set [hasOverdue] when they push: oil and the two
    inspections whenever overdue, brakes over 1000 miles and tires over
    2000 miles overdue. *)
Definition setsHasOverdue (a : AlertInfo) : bool :=
  match priority a with
  | due_soon => false
  | overdue =>
      match type a, message a with
      | brakeChange, OverdueBy milesOverdue _ _ _ => 1000 <? milesOverdue
      | tireChange, OverdueBy milesOverdue _ _ _ => 2000 <? milesOverdue
      | _, _ => true
      end
  end.

(** The test at the head of the loop body:
<<
    if (!testMode && truck.lastMaintenanceAlertSent) {
      ...
      if (lastAlertDate > sevenDaysAgo) { ...; continue; }
    }
>> *)
Definition skipsTruck (testMode : bool) (sevenDaysAgo : Z) (truck : Truck) : bool :=
  negb testMode &&
  match lastMaintenanceAlertSent truck with
  | Some lastAlertDate => sevenDaysAgo <? lastAlertDate
  | None => false
  end.

(** One iteration of the loop of [checkMaintenanceDue]: the entry pushed
    onto [trucksWithMaintenance], if any.  [todayInspection] and [todayOems]
    are the instants the two [new Date()] of the date blocks return. *)
Definition checkTruck (testMode : bool) (now todayInspection todayOems : Z)
    (truck : Truck) : result (option BatchEntry) :=
  let sevenDaysAgo := now - sevenDays in
  if skipsTruck testMode sevenDaysAgo truck then Ok None
  else
    maintenanceAlerts <- alertsAt now todayInspection todayOems truck ;;
    if (0 <? length maintenanceAlerts)%nat || bool_decide (status truck = out_of_service)
    then Ok (Some (mkEntry truck maintenanceAlerts (existsb setsHasOverdue maintenanceAlerts)))
    else Ok None.

(** The loop over the fleet.  [today truckId k] is the instant the date
    block of key [k] reads for that truck. *)
Fixpoint checkFleet (testMode : bool) (now : Z) (today : string -> AlertType -> Z)
    (fleet : list Truck) : result (list BatchEntry) :=
  match fleet with
  | [] => Ok []
  | truck :: rest =>
      entry <- checkTruck testMode now
                 (today (id truck) inspection) (today (id truck) oemsInspection) truck ;;
      entries <- checkFleet testMode now today rest ;;
      Ok (option_list entry ++ entries)
  end.

(** [checkMaintenanceDue(testMode)]; the [catch] logs and rethrows. *)
Definition checkMaintenanceDue (testMode : bool) (today : string -> AlertType -> Z)
    (w : World) : result (list BatchEntry) * World :=
  match getTrucks w with
  | (Throw e, w') => (Throw e, w')
  | (Ok fleet, w') => (checkFleet testMode (clock w') today fleet, w')
  end.

(** *** The digest *)

(** [generateTruckMaintenanceHtml]: the banner (with its reason) when the
    truck is out of service, then one paragraph per alert. *)
Record TruckSection := mkSection {
  sectionTruck : Truck;
  outOfServiceBanner : option string;
  paragraphs : list AlertInfo
}.

Definition generateTruckMaintenanceHtml (truck : Truck)
    (maintenanceAlerts : list AlertInfo) : TruckSection :=
  mkSection truck
    (match status truck with
     | out_of_service =>
         Some (match outOfServiceReason truck with
               | Some reason =>
                   if decide (reason = "") then "No reason specified" else reason
               | None => "No reason specified"
               end)
     | in_service => None
     end)
    maintenanceAlerts.

Record Digest := mkDigest {
  trucksRequiringAttention : nat;
  sections : list TruckSection
}.

Definition createMaintenanceEmailHTML (trucksWithMaintenance : list BatchEntry) : Digest :=
  mkDigest (length trucksWithMaintenance)
    (map (fun e => generateTruckMaintenanceHtml (entryTruck e) (alerts e))
       trucksWithMaintenance).

(** *** The mail channel *)

(** What the POST to the mail API comes to for one message: a response
    with [response.ok], a response without it (the text is the message the
    helper derives from the body), or a [fetch] that rejects. *)
Inductive FetchOutcome :=
| Sent (messageId : option string) (httpStatus : Z)
| Refused (errorMessage : string)
| Unreachable (e : JsError).

Record MailParams := mkMail {
  apiKey : string;
  fromEmail : string;
  fromName : string;
  toEmail : string;
  toName : string;
  replyTo : string;
  subject : string;
  trucksInSubject : nat;
  html : Digest
}.

Record MailResult := mkMailResult {
  messageId : option string;
  httpStatus : Z;
  accepted : list string;
  rejected : list string
}.

(** [sendWithMailerSend(params)] for a single address in [toEmail], against
    a channel that tells the fate of a message by its recipient.  The second
    component is the request made, if the helper got as far as [fetch]. *)
Definition sendWithMailerSend (channel : string -> FetchOutcome) (params : MailParams)
    : result MailResult * option (string * FetchOutcome) :=
  if decide (apiKey params = "") then
    (Throw (Error "MailerSend API key is required"), None)
  else if bool_decide (fromEmail params = "") || bool_decide (toEmail params = "")
          || bool_decide (subject params = "") then
    (Throw (Error "fromEmail, toEmail, and subject are required"), None)
  else
    let request := Some (toEmail params, channel (toEmail params)) in
    match channel (toEmail params) with
    | Sent mid st => (Ok (mkMailResult mid st [toEmail params] []), request)
    | Refused errorMessage => (Throw (Error errorMessage), request)
    | Unreachable e => (Throw e, request)
    end.

(** *** The two triggers *)

Definition recipients : list (string * string) :=
  [ ("john.browning@lincolnems.com", "John Browning");
    ("deathlikesnake6@gmail.com", "William Frazier");
    ("tw4001@aol.com", "Trish Watson");
    ("sergentlatosha@gmail.com", "LaTosha Sergent");
    ("charley.egnor@lincolnems.com", "Charley Egnor") ].

(** [recipients.map(recipient => sendWithMailerSend({...}))]: every call is
    started before any is awaited. *)
Definition sendPromises (channel : string -> FetchOutcome) (key subjectLine : string)
    (n : nat) (htmlContent : Digest)
    : list (result MailResult * option (string * FetchOutcome)) :=
  map (fun recipient : string * string =>
         sendWithMailerSend channel
           (mkMail key "alerts@trucks.lincolnems.com" "Lincoln EMS Truck Alerts"
              (fst recipient) (snd recipient) "maintenance@lincolnems.com"
              subjectLine n htmlContent))
    recipients.

(** [Promise.all]: the list of values when every promise is fulfilled,
    otherwise a rejection.  When several promises reject, JavaScript
    reports the one that settled first; here it is the first of the list. *)
Fixpoint promiseAll {A} (settled : list (result A)) : result (list A) :=
  match settled with
  | [] => Ok []
  | Ok a :: rest => rest' <- promiseAll rest ;; Ok (a :: rest')
  | Throw e :: _ => Throw e
  end.

(** [updatePromises]: one [update({lastMaintenanceAlertSent: new Date()})]
    per truck of the batch, all started at the instant the clock of [w]
    shows; the first component tells whether all of them succeeded. *)
Fixpoint updateLastSent (batch : list BatchEntry) (w : World) : bool * World :=
  match batch with
  | [] => (true, w)
  | e :: rest =>
      let '(r, w') :=
        updateDoc (id (entryTruck e)) (setLastMaintenanceAlertSent (Some (clock w))) w in
      let '(ok, w'') := updateLastSent rest w' in
      (isOk r && ok, w'')
  end.

Record Request := mkRequest {
  isOptions : bool;             (* req.method === 'OPTIONS' *)
  queryTest : option string;    (* req.query.test *)
  bodyTestIsTrue : bool         (* req.body && req.body.test === true *)
}.

Inductive Response :=
| NoContent                                   (* 204 *)
| NoMaintenanceDue (trucksChecked : nat)      (* 200 *)
| EmailsSent (trucksWithMaintenance recipientCount : nat)
    (recipientEmails : list string) (messageIds : list (option string))
    (acceptedList rejectedList : list string)  (* 200, ok: true *)
| ServerError (err : JsError).                (* 500, ok: false *)

(** What a trigger leaves behind: its answer (the scheduled one has none),
    the requests made to the mail API, and the store. *)
Record Outcome := mkOutcome {
  response : option Response;
  requests : list (string * FetchOutcome);
  world : World
}.

Definition requestsOf {A} (ps : list (result A * option (string * FetchOutcome)))
    : list (string * FetchOutcome) :=
  omap snd ps.

(** [const testMode = req.query.test === 'true' || (req.body && req.body.test === true)] *)
Definition testModeOf (req : Request) : bool :=
  bool_decide (queryTest req = Some "true") || bodyTestIsTrue req.

(** [exports.sendMaintenanceAlert].  [elapsed] is the time that passes while
    the sends are awaited: the [new Date()] of the updates is read after
    [await Promise.all(sendPromises)], not when the check read its [now]. *)
Definition sendMaintenanceAlert (req : Request) (key : string)
    (channel : string -> FetchOutcome) (today : string -> AlertType -> Z)
    (elapsed : Z) (w : World) : Outcome :=
  if isOptions req then mkOutcome (Some NoContent) [] w
  else
    let testMode := testModeOf req in
    match checkMaintenanceDue testMode today w with
    | (Throw err, w1) => mkOutcome (Some (ServerError err)) [] w1
    | (Ok [], w1) => mkOutcome (Some (NoMaintenanceDue 0)) [] w1
    | (Ok trucksWithMaintenance, w1) =>
        let n := length trucksWithMaintenance in
        let htmlContent := createMaintenanceEmailHTML trucksWithMaintenance in
        let promises := sendPromises channel key "Maintenance Due Alert" n htmlContent in
        let w2 := sleep elapsed w1 in
        match promiseAll (map fst promises) with
        | Throw err => mkOutcome (Some (ServerError err)) (requestsOf promises) w2
        | Ok results =>
            let answer :=
              EmailsSent n (length recipients) (map fst recipients)
                (map messageId results)
                (concat (map accepted results)) (concat (map rejected results)) in
            mkOutcome (Some answer) (requestsOf promises)
              (snd (updateLastSent trucksWithMaintenance w2))
        end
    end.

(** [exports.dailyMaintenanceCheck]: errors are logged, nothing is
    returned.  [elapsed] is as above. *)
Definition dailyMaintenanceCheck (key : string)
    (channel : string -> FetchOutcome) (today : string -> AlertType -> Z)
    (elapsed : Z) (w : World) : Outcome :=
  match checkMaintenanceDue false today w with
  | (Throw _, w1) => mkOutcome None [] w1
  | (Ok [], w1) => mkOutcome None [] w1
  | (Ok trucksWithMaintenance, w1) =>
      let n := length trucksWithMaintenance in
      let htmlContent := createMaintenanceEmailHTML trucksWithMaintenance in
      let promises := sendPromises channel key "Daily Maintenance Alert" n htmlContent in
      let w2 := sleep elapsed w1 in
      match promiseAll (map fst promises) with
      | Throw _ => mkOutcome None (requestsOf promises) w2
      | Ok _ =>
          mkOutcome None (requestsOf promises)
            (snd (updateLastSent trucksWithMaintenance w2))
      end
  end.

End Functions.

(** ** Vocabulary of the specification *)

Module Spec.
Import Rules.

(** The mileage-based kinds with their parameters, and the two documents. *)
Definition mileageBased (k : AlertType) : bool :=
  match k with oilChange | brakeChange | tireChange => true | _ => false end.

Definition interval (k : AlertType) : Z :=
  match k with
  | oilChange => 5000 | brakeChange => 25000 | tireChange => 40000 | _ => 0
  end.

Definition earlyWarningMargin (k : AlertType) : Z :=
  match k with
  | oilChange => 500 | brakeChange => 2500 | tireChange => 4000 | _ => 0
  end.

Definition lastServiceOdometer (k : AlertType) (truck : Truck) : option Z :=
  match k with
  | oilChange => lastOilChangeMileage truck
  | brakeChange => lastBrakeChangeMileage truck
  | tireChange => lastTireChangeMileage truck
  | _ => None
  end.

Definition lastServiceDate (k : AlertType) (truck : Truck) : option Z :=
  match k with
  | oilChange => lastOilChange truck
  | brakeChange => lastBrakeChange truck
  | tireChange => lastTireChange truck
  | _ => None
  end.

Definition expiryDate (k : AlertType) (truck : Truck) : option Z :=
  match k with
  | inspection => inspectionStickerExpiry truck
  | oemsInspection => oemsInspectionExpiry truck
  | _ => None
  end.

(** The instant the date block of a document subtracts from the expiry. *)
Definition todayOf (k : AlertType) (todayInspection todayOems : Z) : Z :=
  match k with oemsInspection => todayOems | _ => todayInspection end.

(** [ClearanceState[kind]] *)
Definition clearedAt (k : AlertType) (truck : Truck) : option Z :=
  m ← alertsCleared truck; m !! alertKey k.

(** Every last-service odometer reading is on record. *)
Definition odometersRecorded (truck : Truck) : Prop :=
  is_Some (lastOilChangeMileage truck) /\ is_Some (lastBrakeChangeMileage truck)
  /\ is_Some (lastTireChangeMileage truck).

(** Everything a truck document holds besides the three fields
    [alertsCleared], [updatedAt] and [updatedBy]. *)
Definition maintenanceData (t : Truck) :=
  (id t, unitNumber t, vin t, vehicleType t, vehicleYear t, status t,
   outOfServiceReason t, mileage t, mileageLastUpdated t,
   lastOilChange t, lastOilChangeMileage t,
   inspectionStickerExpiry t, oemsInspectionExpiry t,
   lastBrakeChange t, lastBrakeChangeMileage t,
   lastTireChange t, lastTireChangeMileage t, lastMaintenanceAlertSent t).

(** The truck document after a clearance of [alertType] at instant [now]. *)
Definition clearedDoc (alertType : string) (now : Z) (who : string) (t : Truck) : Truck :=
  setUpdatedBy who
    (setUpdatedAt now
       (setAlertsCleared (Some (<[alertType := now]> (default ∅ (alertsCleared t)))) t)).

(** Two worlds that differ at most in their [maintenance] collection. *)
Definition sameButRecords (w w2 : World) : Prop :=
  trucks w = trucks w2 /\ clock w = clock w2 /\ faults w = faults w2.

(** The error a send ends with, if it fails. *)
Definition failureOf (o : Functions.FetchOutcome) : option JsError :=
  match o with
  | Functions.Sent _ _ => None
  | Functions.Refused errorMessage => Some (Error errorMessage)
  | Functions.Unreachable e => Some e
  end.

(** How the promise of a send to [to] settles when the request is made. *)
Definition settled (to : string) (o : Functions.FetchOutcome)
    : result Functions.MailResult :=
  match o with
  | Functions.Sent mid st => Ok (Functions.mkMailResult mid st [to] [])
  | Functions.Refused errorMessage => Throw (Error errorMessage)
  | Functions.Unreachable e => Throw e
  end.

(** The addresses of the distribution list. *)
Definition recipientEmails : list string := map fst Functions.recipients.

(** The severity reported for a kind, if any. *)
Definition severity (k : AlertType) (alerts : list AlertInfo) : option Priority :=
  priority <$> alertFor k alerts.

End Spec.

(** ** Further vocabulary *)

Module Shape.
Import Rules Spec.

(** The order in which the blocks push. *)
Definition kindOrder : list AlertType :=
  [oilChange; inspection; oemsInspection; brakeChange; tireChange].

(** What an entry of a kind looks like: its severity goes with the form of
    its message, an overdue mileage is not negative, the miles left are
    positive and within the margin of the kind, the days left are between 1
    and 30, and the odometer values quoted are the ones the rule used. *)
Definition wellFormed (truck : Truck) (a : AlertInfo) : Prop :=
  match message a with
  | OverdueBy milesOverdue lastChangedAt _ nextDueAt =>
      priority a = overdue /\ mileageBased (type a) = true
      /\ 0 <= milesOverdue /\ milesOverdue = mileage truck - nextDueAt
      /\ nextDueAt = lastChangedAt + interval (type a)
  | DueIn miles lastChangedAt _ nextDueAt =>
      priority a = due_soon /\ mileageBased (type a) = true
      /\ 0 < miles <= earlyWarningMargin (type a) /\ miles = nextDueAt - mileage truck
      /\ nextDueAt = lastChangedAt + interval (type a)
  | ExpiredOn expiry =>
      priority a = overdue /\ expiryDate (type a) truck = Some expiry
  | ExpiresIn days expiry =>
      priority a = due_soon /\ 1 <= days <= 30
      /\ expiryDate (type a) truck = Some expiry
  end.

(** The document ids of the trucks of a batch. *)
Definition batchIds (batch : list Functions.BatchEntry) : list string :=
  map (fun e => id (Functions.entryTruck e)) batch.

(** Every document of the collection carries its own id. *)
Definition keyedById (ts : gmap string Truck) : Prop :=
  forall key t, ts !! key = Some t -> id t = key.

(** A channel on which every send to the list goes through. *)
Definition allDelivered (channel : string -> Functions.FetchOutcome) : Prop :=
  forall r, r ∈ recipientEmails -> failureOf (channel r) = None.

(** The message id the channel gave for a recipient, if any. *)
Definition messageIdOf (o : Functions.FetchOutcome) : option string :=
  match o with Functions.Sent mid _ => mid | _ => None end.

(** The value a send to [to] is fulfilled with. *)
Definition resultOf (to : string) (o : Functions.FetchOutcome) : Functions.MailResult :=
  match o with
  | Functions.Sent mid st => Functions.mkMailResult mid st [to] []
  | _ => Functions.mkMailResult None 0 [] []
  end.

(** The [trucks] collection after [lastMaintenanceAlertSent] was set to [now]
    on the documents named [ids]. *)
Definition stamped (ids : list string) (now : Z) (ts : gmap string Truck) (key : string)
    : option Truck :=
  if decide (key ∈ ids) then setLastMaintenanceAlertSent (Some now) <$> ts !! key
  else ts !! key.

(** The answer of the HTTP trigger for a batch whose digest went out to the
    whole list, and the requests made for it. *)
Definition answerFor (channel : string -> Functions.FetchOutcome)
    (batch : list Functions.BatchEntry) : Functions.Response :=
  match batch with
  | [] => Functions.NoMaintenanceDue 0
  | _ =>
      Functions.EmailsSent (length batch) 5 recipientEmails
        (map (fun r => messageIdOf (channel r)) recipientEmails) recipientEmails []
  end.

Definition requestsFor (channel : string -> Functions.FetchOutcome)
    (batch : list Functions.BatchEntry) : list (string * Functions.FetchOutcome) :=
  match batch with
  | [] => []
  | _ => map (fun r => (r, channel r)) recipientEmails
  end.

End Shape.
From Stdlib Require Import Sorted.

(** ** The trucks subscription (services/firebase.ts) *)

Module Subscription.
Import Rules.

(** [safeDate]: a missing or unreadable date becomes the present instant. *)
Definition safeDate (now : Z) (value : option Z) : Z :=
  match value with
  | Some d => d
  | None => now
  end.

(** [s || fallback] on a string. *)
Definition orString (s fallback : string) : string :=
  if decide (s = "") then fallback else s.

(** [truckWithDefaults]: what the snapshot handler hands to the dashboard for
    the document [data] stored under [docId], at instant [now].  The fields the
    handler does not name ([mileageLastUpdated], [lastMaintenanceAlertSent],
    [alertsCleared]) pass through, and so do [vehicleYear], [status],
    [mileage] and [updatedAt], whose defaults apply to a missing value only. *)
Definition truckWithDefaults (now : Z) (docId : string) (data : Truck) : Truck :=
  mkTruck docId
    (orString (unitNumber data) "")
    (orString (vin data) "")
    (orString (vehicleType data) "Not specified")
    (vehicleYear data)
    (status data)
    (Some (match outOfServiceReason data with Some r => r | None => "" end))
    (mileage data)
    (mileageLastUpdated data)
    (Some (safeDate now (lastOilChange data)))
    (Some (orZero (lastOilChangeMileage data)))
    (Some (safeDate now (inspectionStickerExpiry data)))
    (Some (safeDate now (oemsInspectionExpiry data)))
    (Some (safeDate now (lastBrakeChange data)))
    (Some (orZero (lastBrakeChangeMileage data)))
    (Some (safeDate now (lastTireChange data)))
    (Some (orZero (lastTireChangeMileage data)))
    (lastMaintenanceAlertSent data)
    (alertsCleared data)
    (updatedAt data)
    (orString (updatedBy data) "").

(** What the subscription is told by the store. *)
Inductive SubscriptionEvent :=
| Snapshot                   (* the listener receives a snapshot *)
| Failure (code : string)    (* the listener receives an error *)
| SetupThrows.               (* [onSnapshot] itself throws *)

(** What the subscription does about it. *)
Inductive SubscriptionAction :=
| Deliver                    (* callback(trucks) *)
| RetryAfter (ms : Z)        (* setTimeout(attemptSubscription, ms) *)
| Report.                    (* errorCallback(error), if given *)

Definition maxRetries : nat := 3.

(** The two handlers of [onSnapshot] in [attemptSubscription]; the state is
    [retryCount]. *)
Definition onEvent (retryCount : nat) (ev : SubscriptionEvent)
    : nat * SubscriptionAction :=
  match ev with
  | Snapshot => (retryCount, Deliver)
  | Failure code =>
      if (bool_decide (code = "unavailable") || bool_decide (code = "deadline-exceeded"))
         && (retryCount <? maxRetries)%nat
      then (S retryCount, RetryAfter (2 ^ Z.of_nat (S retryCount) * 1000))
      else (retryCount, Report)
  | SetupThrows => (retryCount, Report)
  end.

(** A run of the subscription over the events the store sends it.  A failure
    ends the listener it is sent to; a new one is attached only by the retry,
    so past a [Report] there is nothing left to receive events. *)
Fixpoint run (retryCount : nat) (events : list SubscriptionEvent)
    : list SubscriptionAction :=
  match events with
  | [] => []
  | ev :: rest =>
      match onEvent retryCount ev with
      | (_, Report) => [Report]
      | (retryCount', action) => action :: run retryCount' rest
      end
  end.

Definition delays (actions : list SubscriptionAction) : list Z :=
  omap (fun a => match a with RetryAfter ms => Some ms | _ => None end) actions.

End Subscription.

(** ** More of the dashboard card (TruckCard.tsx) *)

Module Card.
Import Rules.

(** [const needsMaintenance = truck.mileage > truck.lastOilChangeMileage + 5000]:
    the 'Maintenance Due' badge.  Against a missing reading the comparison is
    with [NaN] and fails. *)
Definition needsMaintenance (truck : Truck) : bool :=
  match lastOilChangeMileage truck with
  | Some last => last + 5000 <? mileage truck
  | None => false
  end.

Inductive Colour :=
| Red       (* 'text-red-600 font-medium' *)
| Orange    (* 'text-orange-600 font-medium' *)
| Plain.    (* 'font-medium' *)

(** [getExpirationColor(new Date(expiry))] at instant [today]; with no expiry
    date every comparison is with [NaN] and fails. *)
Definition getExpirationColor (expiry : option Z) (today : Z) : Colour :=
  match expiry with
  | Some expiryDate =>
      let daysUntilExpiry := ceilDays (expiryDate - today) in
      if daysUntilExpiry <=? 10 then Red
      else if daysUntilExpiry <=? 30 then Orange
      else Plain
  | None => Plain
  end.

(** An item of [truck.equipment]. *)
Record Equipment := mkEquipment {
  equipmentId : string;
  equipmentType : string;
  serialNumber : string;
  assignedDate : Z
}.

Definition EQUIPMENT_ORDER : list string :=
  ["lifepak-15"; "ekg-battery-charger"; "lucas-device"; "stretcher";
   "cot-battery-charger"; "stairchair"; "handheld-radio"].

(** [EQUIPMENT_ORDER.indexOf(t)], [None] for -1. *)
Fixpoint indexOf (t : string) (order : list string) : option nat :=
  match order with
  | [] => None
  | x :: rest => if decide (x = t) then Some O else S <$> indexOf t rest
  end.

(** The comparator of [sortEquipmentByOrder]. *)
Definition compareEquipment (a b : Equipment) : Z :=
  match indexOf (equipmentType a) EQUIPMENT_ORDER,
        indexOf (equipmentType b) EQUIPMENT_ORDER with
  | Some indexA, Some indexB => Z.of_nat indexA - Z.of_nat indexB
  | Some _, None => -1
  | None, Some _ => 1
  | None, None => 0
  end.

(** [Array.prototype.sort] is stable; for a comparator that orders by a rank,
    as this one does, its result is that of the insertion sort that puts each
    element before the first element it does not come after. *)
Fixpoint insertBy {A} (cmp : A -> A -> Z) (x : A) (sorted : list A) : list A :=
  match sorted with
  | [] => [x]
  | y :: rest => if cmp x y <=? 0 then x :: y :: rest else y :: insertBy cmp x rest
  end.

Definition sortBy {A} (cmp : A -> A -> Z) (l : list A) : list A :=
  foldr (insertBy cmp) [] l.

(** [sortEquipmentByOrder(equipment)] *)
Definition sortEquipmentByOrder (equipment : list Equipment) : list Equipment :=
  sortBy compareEquipment equipment.

(** The place of an item in the display order; items of an unlisted type come
    last. *)
Definition rank (e : Equipment) : nat :=
  match indexOf (equipmentType e) EQUIPMENT_ORDER with
  | Some i => i
  | None => length EQUIPMENT_ORDER
  end.

End Card.

(** ** Maintenance records (services/firebase.ts) *)

Module Records.
Import Firestore.

Definition setOilChange (d m : Z) (t : Truck) : Truck :=
  mkTruck (id t) (unitNumber t) (vin t) (vehicleType t) (vehicleYear t) (status t)
    (outOfServiceReason t) (mileage t) (mileageLastUpdated t) (Some d)
    (Some m) (inspectionStickerExpiry t) (oemsInspectionExpiry t)
    (lastBrakeChange t) (lastBrakeChangeMileage t) (lastTireChange t)
    (lastTireChangeMileage t) (lastMaintenanceAlertSent t) (alertsCleared t)
    (updatedAt t) (updatedBy t).

Definition setBrakeChange (d m : Z) (t : Truck) : Truck :=
  mkTruck (id t) (unitNumber t) (vin t) (vehicleType t) (vehicleYear t) (status t)
    (outOfServiceReason t) (mileage t) (mileageLastUpdated t) (lastOilChange t)
    (lastOilChangeMileage t) (inspectionStickerExpiry t) (oemsInspectionExpiry t)
    (Some d) (Some m) (lastTireChange t)
    (lastTireChangeMileage t) (lastMaintenanceAlertSent t) (alertsCleared t)
    (updatedAt t) (updatedBy t).

Definition setTireChange (d m : Z) (t : Truck) : Truck :=
  mkTruck (id t) (unitNumber t) (vin t) (vehicleType t) (vehicleYear t) (status t)
    (outOfServiceReason t) (mileage t) (mileageLastUpdated t) (lastOilChange t)
    (lastOilChangeMileage t) (inspectionStickerExpiry t) (oemsInspectionExpiry t)
    (lastBrakeChange t) (lastBrakeChangeMileage t) (Some d)
    (Some m) (lastMaintenanceAlertSent t) (alertsCleared t)
    (updatedAt t) (updatedBy t).

(** The [switch (record.type)]: the fields it adds to [truckUpdates], if any. *)
Definition serviceFields (record : MaintenanceRecord) : option (Truck -> Truck) :=
  if decide (recordType record = "oil-change")
  then Some (setOilChange (date record) (recordMileage record))
  else if decide (recordType record = "brake-change")
  then Some (setBrakeChange (date record) (recordMileage record))
  else if decide (recordType record = "tire-change")
  then Some (setTireChange (date record) (recordMileage record))
  else None.

(** The record as it is stored: [{...record, createdAt: new Date(), createdBy: uid}]. *)
Definition stamp (record : MaintenanceRecord) (now : Z) (uid : string) : MaintenanceRecord :=
  mkRecord (truckId record) (truckUnitNumber record) (recordType record)
    (description record) (date record) (recordMileage record) (cost record)
    (performedBy record) (notes record) now uid.

(** [addMaintenanceRecord(record)] for the signed-in user [uid].  The
    [catch] logs and rethrows. *)
Definition addMaintenanceRecord (record : MaintenanceRecord) (uid : string) (w : World)
    : result unit * World :=
  match addDoc (stamp record (clock w) uid) w with
  | (Throw e, w1) => (Throw e, w1)
  | (Ok _, w1) =>
      if negb (bool_decide (truckId record = ""))
         && negb (bool_decide (recordMileage record = 0))
      then
        match serviceFields record with
        | Some fields =>
            match updateDoc (truckId record)
                    (fun t => setUpdatedBy uid (setUpdatedAt (clock w1) (fields t))) w1 with
            | (Throw e, w2) => (Throw e, w2)
            | (Ok _, w2) => (Ok tt, w2)
            end
        | None => (Ok tt, w1)
        end
      else (Ok tt, w1)
  end.

End Records.

(** The [type] of the record that logs a service of a kind. *)
Definition recordTypeOf (k : AlertType) : string :=
  match k with
  | oilChange => "oil-change"
  | brakeChange => "brake-change"
  | tireChange => "tire-change"
  | inspection | oemsInspection => "inspection"
  end.

From stdpp Require Import pretty.

Local Open Scope Z_scope.

(** ** The photo cache (utils/photoCache.ts) *)

Module PhotoCache.

Definition CACHE_KEY_PREFIX : text := JS.lit "truck_photo_".
Definition BACKUP_KEY_PREFIX : text := JS.lit "truck_photo_backup_".
Definition MAX_CACHE_SIZE : nat := 50.

(** The cache object: its [Map], in insertion order, and the browser's
    [localStorage]. *)
Record Cache := mkCache {
  cache : list (text * text);
  localStorage : gmap text text
}.

Definition empty : Cache := mkCache [] ∅.

(** [Map.prototype.get], [has], [set] and [delete]; [set] on a key that is
    present keeps its place. *)
Fixpoint mapGet (key : text) (m : list (text * text)) : option text :=
  match m with
  | [] => None
  | (k, v) :: rest => if decide (k = key) then Some v else mapGet key rest
  end.

Definition mapHas (key : text) (m : list (text * text)) : bool :=
  bool_decide (is_Some (mapGet key m)).

Fixpoint mapSet (key value : text) (m : list (text * text)) : list (text * text) :=
  match m with
  | [] => [(key, value)]
  | (k, v) :: rest =>
      if decide (k = key) then (k, value) :: rest else (k, v) :: mapSet key value rest
  end.

Fixpoint mapDelete (key : text) (m : list (text * text)) : list (text * text) :=
  match m with
  | [] => []
  | (k, v) :: rest => if decide (k = key) then rest else (k, v) :: mapDelete key rest
  end.

(** ToInt32 of an integer. *)
Definition toInt32 (x : Z) : Z := (x + 2 ^ 31) mod 2 ^ 32 - 2 ^ 31.

(** The loop of [getCacheKey]:
<<
    hash = ((hash << 5) - hash) + char;
    hash = hash & hash;
>> *)
Definition hashOf (photoURL : text) : Z :=
  fold_left (fun hash char => toInt32 (toInt32 (hash * 2 ^ 5) - hash + Z.of_N char))
    photoURL 0.

(** The decimal digits of a number, as a template literal prints it. *)
Definition digits (n : Z) : text := JS.lit (pretty n).

Definition getCacheKey (photoURL : text) : text :=
  CACHE_KEY_PREFIX ++ digits (Z.abs (hashOf photoURL)).

(** [s.startsWith(p)] *)
Fixpoint startsWith (s p : text) : bool :=
  match p, s with
  | [], _ => true
  | c :: p', d :: s' => (c =? d)%N && startsWith s' p'
  | _ :: _, [] => false
  end.

(** [this.cache.get(cacheKey) || localStorage.getItem(cacheKey)] *)
Definition getCachedPhoto (photoURL : text) (c : Cache) : option text :=
  let cacheKey := getCacheKey photoURL in
  match mapGet cacheKey (cache c) with
  | Some v => if JS.truthy v then Some v else localStorage c !! cacheKey
  | None => localStorage c !! cacheKey
  end.

(** One removal of [cleanupCache] and of [removeCachedPhoto]. *)
Definition dropKey (c : Cache) (key : text) : Cache :=
  mkCache (mapDelete key (cache c)) (delete key (localStorage c)).

Definition cleanupCache (c : Cache) : Cache :=
  if (length (cache c) <=? MAX_CACHE_SIZE)%nat then c
  else
    let entries := cache c in
    let toRemove := take (length entries - MAX_CACHE_SIZE) entries in
    fold_left dropKey (map fst toRemove) c.

(** [setCachedPhoto]; [stored] tells whether [localStorage.setItem] went
    through (it throws when the quota is reached, and the error is
    swallowed). *)
Definition setCachedPhoto (photoURL cachedURL : text) (stored : bool) (c : Cache) : Cache :=
  let cacheKey := getCacheKey photoURL in
  cleanupCache
    (mkCache (mapSet cacheKey cachedURL (cache c))
       (if stored then <[cacheKey := cachedURL]> (localStorage c) else localStorage c)).

Definition isCached (photoURL : text) (c : Cache) : bool :=
  let cacheKey := getCacheKey photoURL in
  mapHas cacheKey (cache c) || bool_decide (is_Some (localStorage c !! cacheKey)).

Definition removeCachedPhoto (photoURL : text) (c : Cache) : Cache :=
  dropKey c (getCacheKey photoURL).

(** [Object.keys(localStorage).forEach(key => { if (key.startsWith(prefix))
    localStorage.removeItem(key) })] *)
Definition removePrefixed (prefix : text) (ls : gmap text text) : gmap text text :=
  fold_left (fun ls key => if startsWith key prefix then delete key ls else ls)
    (map fst (map_to_list ls)) ls.

Definition clearCache (c : Cache) : Cache :=
  mkCache [] (removePrefixed CACHE_KEY_PREFIX (localStorage c)).

(** The backups by unit number. *)
Definition savePhotoURLBackup (unitNumber photoURL : text) (stored : bool) (c : Cache)
    : Cache :=
  if negb (JS.truthy photoURL) || negb (JS.truthy unitNumber) then c
  else
    let backupKey := BACKUP_KEY_PREFIX ++ unitNumber in
    if stored then mkCache (cache c) (<[backupKey := photoURL]> (localStorage c)) else c.

Definition getPhotoURLBackup (unitNumber : text) (c : Cache) : option text :=
  if negb (JS.truthy unitNumber) then None
  else localStorage c !! (BACKUP_KEY_PREFIX ++ unitNumber).

Definition removePhotoURLBackup (unitNumber : text) (c : Cache) : Cache :=
  if negb (JS.truthy unitNumber) then c
  else mkCache (cache c) (delete (BACKUP_KEY_PREFIX ++ unitNumber) (localStorage c)).

Definition clearPhotoURLBackups (c : Cache) : Cache :=
  mkCache (cache c) (removePrefixed BACKUP_KEY_PREFIX (localStorage c)).

(** The operations a client of the cache can apply to it. *)
Inductive Op :=
| SetCachedPhoto (photoURL cachedURL : text) (stored : bool)
| RemoveCachedPhoto (photoURL : text)
| ClearCache
| SavePhotoURLBackup (unitNumber photoURL : text) (stored : bool)
| RemovePhotoURLBackup (unitNumber : text)
| ClearPhotoURLBackups.

Definition apply (c : Cache) (op : Op) : Cache :=
  match op with
  | SetCachedPhoto photoURL cachedURL stored => setCachedPhoto photoURL cachedURL stored c
  | RemoveCachedPhoto photoURL => removeCachedPhoto photoURL c
  | ClearCache => clearCache c
  | SavePhotoURLBackup unitNumber photoURL stored =>
      savePhotoURLBackup unitNumber photoURL stored c
  | RemovePhotoURLBackup unitNumber => removePhotoURLBackup unitNumber c
  | ClearPhotoURLBackups => clearPhotoURLBackups c
  end.

(** The cache after a sequence of operations on the fresh singleton. *)
Definition after (ops : list Op) : Cache := fold_left apply ops empty.

(** The [Map] holds each key once and no more than [MAX_CACHE_SIZE] of them. *)
Definition bounded (c : Cache) : Prop :=
  NoDup (map fst (cache c)) /\ (length (cache c) <= MAX_CACHE_SIZE)%nat.

End PhotoCache.

(** ** Truck documents by field (services/firebase.ts, UpdateMileagesModal.tsx,
    TruckCard.tsx) *)

Module Documents.
Import PhotoCache.

(** The values of the fields written here. *)
Inductive Value :=
| VString (s : text)
| VNumber (n : Z)
| VDate (d : Z)
| VFile (name : text).

(** A document, and an object literal some of whose properties may hold
    [undefined]. *)
Abbreviation Fields := (gmap string Value).
Abbreviation Updates := (gmap string (option Value)).

(** The [trucks] collection by field, the photo cache of the browser, the
    clock and the fate of the coming calls to the store. *)
Record Client := mkClient {
  docs : gmap string Fields;
  storage : Cache;
  time : Z;
  pending : list (option string)
}.

Definition withDocs (ds : gmap string Fields) (w : Client) : Client :=
  mkClient ds (storage w) (time w) (pending w).

Definition withStorage (c : Cache) (w : Client) : Client :=
  mkClient (docs w) c (time w) (pending w).

Definition withPending (fs : list (option string)) (w : Client) : Client :=
  mkClient (docs w) (storage w) (time w) fs.

(** [updateDoc(ref, fields)]: the named fields are overwritten, the others
    kept; the call is rejected when the document does not exist. *)
Definition updateDoc (key : string) (fields : Fields) (w : Client) : result unit * Client :=
  match pending w with
  | Some msg :: fs => (Throw (Error msg), withPending fs w)
  | fate =>
      let w' := withPending (tail fate) w in
      match docs w !! key with
      | Some old => (Ok tt, withDocs (<[key := fields ∪ old]> (docs w)) w')
      | None => (Throw (Error "No document to update"), w')
      end
  end.

(** What [updateTruck] reads of its optional argument [currentTruck]. *)
Record Current := mkCurrent {
  currentPhotoURL : option text;
  currentUnitNumber : text
}.

(** [Object.fromEntries(Object.entries(rest).filter(([_, v]) => v !== undefined))]
    after [const { photo, ...rest } = updates]. *)
Definition cleanUpdates (updates : Updates) : Fields :=
  omap (fun v => v) (delete "photo" updates).

(** [updateTruck(truckId, updates, userId, currentTruck)].  [upload] is how
    the upload of the photo and the request for its URL end, if they are
    made; [stored] tells whether [localStorage.setItem] goes through. *)
Definition updateTruck (truckId : string) (updates : Updates) (userId : string)
    (currentTruck : option Current) (upload : result text) (stored : bool) (w : Client)
    : result bool * Client :=
  let kept := match currentTruck with
              | Some ct => default [] (currentPhotoURL ct)
              | None => []
              end in
  let uploaded := match updates !! "photo" with
                  | Some (Some (VFile _)) => upload
                  | _ => Ok kept
                  end in
  match uploaded with
  | Throw e => (Throw e, w)
  | Ok photoURL =>
      let finalUpdates :=
        <["updatedBy" := VString (JS.lit userId)]>
          (<["updatedAt" := VDate (time w)]>
             (<["photoURL" := VString photoURL]> (cleanUpdates updates))) in
      match updateDoc truckId finalUpdates w with
      | (Throw e, w1) => (Throw e, w1)
      | (Ok _, w1) =>
          match currentTruck with
          | Some ct =>
              if JS.truthy photoURL && JS.truthy (currentUnitNumber ct)
              then (Ok true,
                    withStorage
                      (savePhotoURLBackup (currentUnitNumber ct) photoURL stored (storage w1))
                      w1)
              else (Ok true, w1)
          | None => (Ok true, w1)
          end
      end
  end.

(** A row of the mileage form. *)
Record MileageUpdate := mkMileageUpdate {
  updateTruckId : string;
  updateUnitNumber : string;
  currentMileage : Z;
  newMileage : Z
}.

(** How [handleSubmit] of the mileage form ends. *)
Inductive SubmitOutcome :=
| NotSignedIn     (* [if (!user) return] *)
| NoChanges       (* 'No mileage changes detected. ...' *)
| Updated         (* [setSuccess(true)] *)
| UpdateFailed.   (* 'Failed to update mileages. Please try again.' *)

(** The calls [trucksToUpdate.map(update => updateTruck(...))] makes: each
    reaches its [updateDoc] before the next starts, so the writes are sent in
    the order of the list, and [Promise.all] takes none of them back. *)
Fixpoint updateAll (uid : string) (trucksToUpdate : list MileageUpdate) (w : Client)
    : list (result bool) * Client :=
  match trucksToUpdate with
  | [] => ([], w)
  | update :: rest =>
      let '(r, w1) :=
        updateTruck (updateTruckId update)
          (<["mileage" := Some (VNumber (newMileage update))]>
             (<["mileageLastUpdated" := Some (VDate (time w))]> ∅))
          uid None (Ok []) false w in
      let '(rs, w2) := updateAll uid rest w1 in
      (r :: rs, w2)
  end.

(** [handleSubmit] of [UpdateMileagesModal]. *)
Definition handleSubmit (user : option string) (mileageUpdates : list MileageUpdate)
    (w : Client) : SubmitOutcome * Client :=
  match user with
  | None => (NotSignedIn, w)
  | Some uid =>
      let trucksToUpdate :=
        filter (fun update => newMileage update <> currentMileage update) mileageUpdates in
      if bool_decide (length trucksToUpdate = 0%nat) then (NoChanges, w)
      else
        let '(results, w') := updateAll uid trucksToUpdate w in
        if forallb isOk results then (Updated, w') else (UpdateFailed, w')
  end.

(** The effect of [TruckCard] on [truck.photoURL]: a truck that reaches the
    card without a photo URL gets the backup of its unit number written back.
    The first component is the URL the card takes as restored, if it takes
    one.  A failure of the write is logged and goes no further. *)
Definition restorePhotoURL (photoURL : text) (truckId : string) (unitNumber : text)
    (user : option string) (w : Client) : option text * Client :=
  match user with
  | Some uid =>
      if negb (JS.truthy photoURL) && negb (bool_decide (truckId = ""))
         && JS.truthy unitNumber
      then
        match getPhotoURLBackup unitNumber (storage w) with
        | Some backupURL =>
            if JS.truthy backupURL then
              (Some backupURL,
               snd (updateDoc truckId
                      (<["updatedBy" := VString (JS.lit uid)]>
                         (<["updatedAt" := VDate (time w)]>
                            (<["photoURL" := VString backupURL]> ∅))) w))
            else (None, w)
        | None => (None, w)
        end
      else (None, w)
  | None => (None, w)
  end.

(** The fields sent for a row of the mileage form by [uid] at instant [now]. *)
Definition mileageWrite (uid : string) (now : Z) (update : MileageUpdate) : Fields :=
  <["updatedBy" := VString (JS.lit uid)]>
    (<["updatedAt" := VDate now]>
       (<["photoURL" := VString []]>
          (cleanUpdates
             (<["mileage" := Some (VNumber (newMileage update))]>
                (<["mileageLastUpdated" := Some (VDate now)]> ∅))))).

(** The rows of the form whose mileage was changed. *)
Definition changed (mileageUpdates : list MileageUpdate) : list MileageUpdate :=
  filter (fun update => newMileage update <> currentMileage update) mileageUpdates.

(** The text of a field. *)
Definition fieldText (key : string) (fields : Fields) : text :=
  match fields !! key with
  | Some (VString s) => s
  | _ => []
  end.

End Documents.

(** ** Sample data *)

Module Sample.
Import Rules Firestore.

Definition day : Z := msPerDay.

(** A truck in service, with every field on record and nothing due:
    oil last changed at 100000, odometer 101000, inspections a year away
    from instant 0. *)
Definition quiet (docId unit : string) : Truck :=
  mkTruck docId unit "1FDXE4FS5KDC00052" "Ford E-450" 2019 in_service None
    101000 None
    (Some 0) (Some 100000)
    (Some (365 * day)) (Some (365 * day))
    (Some 0) (Some 90000) (Some 0) (Some 80000)
    None None 0 "admin".

Definition unit52 : Truck := quiet "truck-52" "52".

(** A truck at 6000 miles with no service on record yet. *)
Definition neverServiced : Truck :=
  mkTruck "truck-61" "61" "1FDXE4FS5KDC00061" "Ford E-450" 2024 in_service None
    6000 None
    None None
    (Some (365 * day)) (Some (365 * day))
    None None None None
    None None 0 "admin".

Definition setMileage (v : Z) (t : Truck) : Truck :=
  mkTruck (id t) (unitNumber t) (vin t) (vehicleType t) (vehicleYear t) (status t)
    (outOfServiceReason t) v (mileageLastUpdated t) (lastOilChange t)
    (lastOilChangeMileage t) (inspectionStickerExpiry t) (oemsInspectionExpiry t)
    (lastBrakeChange t) (lastBrakeChangeMileage t) (lastTireChange t)
    (lastTireChangeMileage t) (lastMaintenanceAlertSent t) (alertsCleared t)
    (updatedAt t) (updatedBy t).

Definition setInspectionStickerExpiry (v : option Z) (t : Truck) : Truck :=
  mkTruck (id t) (unitNumber t) (vin t) (vehicleType t) (vehicleYear t) (status t)
    (outOfServiceReason t) (mileage t) (mileageLastUpdated t) (lastOilChange t)
    (lastOilChangeMileage t) v (oemsInspectionExpiry t)
    (lastBrakeChange t) (lastBrakeChangeMileage t) (lastTireChange t)
    (lastTireChangeMileage t) (lastMaintenanceAlertSent t) (alertsCleared t)
    (updatedAt t) (updatedBy t).

Definition setStatus (v : ServiceStatus) (reason : option string) (t : Truck) : Truck :=
  mkTruck (id t) (unitNumber t) (vin t) (vehicleType t) (vehicleYear t) v
    reason (mileage t) (mileageLastUpdated t) (lastOilChange t)
    (lastOilChangeMileage t) (inspectionStickerExpiry t) (oemsInspectionExpiry t)
    (lastBrakeChange t) (lastBrakeChangeMileage t) (lastTireChange t)
    (lastTireChangeMileage t) (lastMaintenanceAlertSent t) (alertsCleared t)
    (updatedAt t) (updatedBy t).

(** The same truck 1000 miles past its oil change. *)
Definition oilOverdue : Truck := setMileage 106000 unit52.

(** The overdue truck whose oil alert was cleared at instant 0. *)
Definition oilClearedAt0 : Truck :=
  setAlertsCleared (Some {[ "oilChange" := 0 ]}) oilOverdue.

(** The quiet truck taken out of service, every kind cleared at instant 0. *)
Definition parked : Truck :=
  setAlertsCleared
    (Some (list_to_map [("oilChange", 0); ("inspection", 0); ("oemsInspection", 0);
                        ("brakeChange", 0); ("tireChange", 0)]))
    (setStatus out_of_service (Some "Transmission") unit52).

(** The overdue truck with an inspection sticker expired at instant 0, whose
    inspection alert was cleared at instant 0 and which was in the digest sent
    at instant 0. *)
Definition alertedAt0 : Truck :=
  setLastMaintenanceAlertSent (Some 0)
    (setAlertsCleared (Some {[ "inspection" := 0 ]})
       (setInspectionStickerExpiry (Some 0) oilOverdue)).

Definition storeOf (ts : list Truck) : gmap string Truck :=
  list_to_map ((fun t => (id t, t)) <$> ts).

Definition worldOf (ts : list Truck) (now : Z) (script : list (option string)) : World :=
  mkWorld (storeOf ts) [] now script.

(** The store holds the overdue truck; the reads and the write on the truck
    document succeed and the three attempts to add the record fail. *)
Definition recordsUnavailable : World :=
  worldOf [oilOverdue] 0
    [None; None; Some "unavailable"; Some "unavailable"; Some "unavailable"].

(** The same store with every call succeeding. *)
Definition healthy : World := worldOf [oilOverdue] 0 [].

(** A channel that delivers to everybody, and one on which the third
    recipient of the list is refused. *)
Definition delivers : string -> Functions.FetchOutcome :=
  fun _ => Functions.Sent (Some "msg") 202.

Definition thirdRefused : string -> Functions.FetchOutcome :=
  fun to => if decide (to = "tw4001@aol.com")
            then Functions.Refused "The to.0.email domain is blocked."
            else Functions.Sent (Some "msg") 202.

Definition sameInstant (now : Z) : string -> AlertType -> Z := fun _ _ => now.

End Sample.

(** * Properties *)

(** ** The rules *)

Section RulesFacts.
Import Rules Spec.

Implicit Types (truck : Truck) (k : AlertType) (a : AlertInfo).

Lemma ceilDays_whole (n tod : Z) :
  0 <= tod < msPerDay -> ceilDays (n * msPerDay - tod) = n.
Proof.
  intros Htod. unfold ceilDays.
  assert (Hd : 0 < msPerDay) by (unfold msPerDay; lia).
  replace (- (n * msPerDay - tod)) with (tod + (- n) * msPerDay) by lia.
  rewrite Z.div_add by lia.
  rewrite Z.div_small by lia. lia.
Qed.

Lemma isAlertClearedRecently_clearedAt truck sevenDaysAgo k :
  isAlertClearedRecently truck sevenDaysAgo k
  = match clearedAt k truck with
    | Some cleared => sevenDaysAgo <? cleared
    | None => false
    end.
Proof.
  unfold isAlertClearedRecently, clearedAt.
  destruct (alertsCleared truck) as [m|]; simpl; [|done].
  by destruct (m !! alertKey k).
Qed.

Lemma mileageBlock_type k interval margin last lastDate truck sda a :
  mileageBlock k interval margin last lastDate truck sda = Ok (Some a) -> type a = k.
Proof.
  unfold mileageBlock.
  repeat case_match; destruct last; simpl; intros; simplify_eq; done.
Qed.

Lemma expiryBlock_type k expiry truck sda today a :
  expiryBlock k expiry truck sda today = Some a -> type a = k.
Proof.
  unfold expiryBlock. repeat case_match; intros; simplify_eq; done.
Qed.

Lemma blockOf_type k now ti to truck a :
  blockOf k now ti to truck = Ok (Some a) -> type a = k.
Proof.
  destruct k; simpl; intros H.
  - by eapply mileageBlock_type.
  - inversion H as [H']. by eapply expiryBlock_type.
  - inversion H as [H']. by eapply expiryBlock_type.
  - by eapply mileageBlock_type.
  - by eapply mileageBlock_type.
Qed.

(** [alertsAt] runs the five blocks and fails exactly when one of them
    does. *)
Lemma alertsAt_blocks now ti to truck alerts :
  alertsAt now ti to truck = Ok alerts <->
  exists oil brake tire,
    blockOf oilChange now ti to truck = Ok oil
    /\ blockOf brakeChange now ti to truck = Ok brake
    /\ blockOf tireChange now ti to truck = Ok tire
    /\ alerts = pushed [oil; inspectionCheck truck (now - sevenDays) ti;
                        oemsInspectionCheck truck (now - sevenDays) to; brake; tire].
Proof.
  unfold alertsAt, blockOf. split.
  - destruct (oilChangeCheck _ _) as [oil|]; simpl; [|done].
    destruct (brakeChangeCheck _ _) as [brake|]; simpl; [|done].
    destruct (tireChangeCheck _ _) as [tire|]; simpl; [|done].
    intros [= <-]. by exists oil, brake, tire.
  - intros (oil & brake & tire & -> & -> & -> & ->). done.
Qed.

(** The entry of a key in the result is what the block of that key pushed. *)
Lemma alertsAt_alertFor now ti to truck alerts k :
  alertsAt now ti to truck = Ok alerts ->
  blockOf k now ti to truck = Ok (alertFor k alerts).
Proof.
  intros (oil & brake & tire & Hoil & Hbrake & Htire & ->)%alertsAt_blocks.
  pose proof (blockOf_type inspection now ti to truck) as Hwv.
  pose proof (blockOf_type oemsInspection now ti to truck) as Hoems.
  simpl in Hwv, Hoems.
  destruct (inspectionCheck truck (now - sevenDays) ti) as [wv|] eqn:Ewv;
    [specialize (Hwv wv eq_refl)|clear Hwv];
  (destruct (oemsInspectionCheck truck (now - sevenDays) to) as [oems|] eqn:Eoems;
    [specialize (Hoems oems eq_refl)|clear Hoems]);
  (destruct oil as [oil|];
    [pose proof (blockOf_type _ _ _ _ _ _ Hoil) as Toil|]);
  (destruct brake as [brake|];
    [pose proof (blockOf_type _ _ _ _ _ _ Hbrake) as Tbrake|]);
  (destruct tire as [tire|];
    [pose proof (blockOf_type _ _ _ _ _ _ Htire) as Ttire|]);
  destruct k; unfold alertFor, pushed; simpl;
    rewrite ?Hwv, ?Hoems, ?Toil, ?Tbrake, ?Ttire; simpl;
    first [ done | exact Hoil | exact Hbrake | exact Htire
          | by rewrite ?Ewv, ?Eoems ].
Qed.

(** With the three odometer readings on record no block throws. *)
Lemma mileageBlock_recorded k interval margin last lastDate truck sda :
  is_Some last ->
  exists o, mileageBlock k interval margin last lastDate truck sda = Ok o.
Proof.
  intros [l ->]. unfold mileageBlock. simpl. repeat case_match; eauto.
Qed.

Lemma alertsAt_recorded now ti to truck :
  odometersRecorded truck -> exists alerts, alertsAt now ti to truck = Ok alerts.
Proof.
  intros (Hoil & Hbrake & Htire).
  destruct (mileageBlock_recorded oilChange 5000 500 _ (lastOilChange truck) truck
              (now - sevenDays) Hoil) as [oil Eoil].
  destruct (mileageBlock_recorded brakeChange 25000 2500 _ (lastBrakeChange truck) truck
              (now - sevenDays) Hbrake) as [brake Ebrake].
  destruct (mileageBlock_recorded tireChange 40000 4000 _ (lastTireChange truck) truck
              (now - sevenDays) Htire) as [tire Etire].
  eexists. apply alertsAt_blocks. exists oil, brake, tire. repeat split; done.
Qed.

(** A mileage block in terms of the vocabulary of the specification. *)
Lemma blockOf_mileage k now ti to truck :
  mileageBased k = true ->
  blockOf k now ti to truck
  = mileageBlock k (interval k) (earlyWarningMargin k) (lastServiceOdometer k truck)
      (lastServiceDate k truck) truck (now - sevenDays).
Proof. by destruct k. Qed.

Lemma blockOf_document k now ti to truck :
  mileageBased k = false ->
  blockOf k now ti to truck
  = Ok (expiryBlock k (expiryDate k truck) truck (now - sevenDays) (todayOf k ti to)).
Proof. by destruct k. Qed.

(** A block whose key was cleared less than seven days ago pushes nothing,
    and does not throw. *)
Lemma blockOf_cleared k now ti to truck :
  isAlertClearedRecently truck (now - sevenDays) k = true ->
  blockOf k now ti to truck = Ok None.
Proof.
  intros Hc.
  destruct (mileageBased k) eqn:Ek.
  - rewrite blockOf_mileage by done. unfold mileageBlock.
    rewrite Hc. simpl. by rewrite !andb_false_r.
  - rewrite blockOf_document by done. unfold expiryBlock.
    rewrite Hc. simpl. by destruct (expiryDate k truck).
Qed.

End RulesFacts.

Section RulesClaims.
Import Rules Spec Sample.

Implicit Types (truck : Truck) (k : AlertType).

(** The three outcomes of a mileage block whose gate is open. *)
Lemma mileageBlock_open k interval margin last lastDate truck sda :
  isAlertClearedRecently truck sda k = false ->
  let nextDue := last + interval in
  mileageBlock k interval margin (Some last) lastDate truck sda
  = Ok (if nextDue <=? mileage truck then
          Some (mkAlert k overdue (OverdueBy (mileage truck - nextDue) last lastDate nextDue))
        else if nextDue - margin <=? mileage truck then
          Some (mkAlert k due_soon (DueIn (nextDue - mileage truck) last lastDate nextDue))
        else None).
Proof.
  intros Hc. unfold mileageBlock. rewrite Hc. simpl. rewrite !andb_true_r.
  by repeat case_match.
Qed.

(** The three outcomes of a date block whose gate is open, by whole days:
    the expiry date is the start of a day, [n] days after the start of the
    day in which the block reads the clock. *)
Lemma expiryBlock_open k truck sda midnight tod n :
  isAlertClearedRecently truck sda k = false ->
  0 <= tod < msPerDay ->
  let expiry := midnight + n * msPerDay in
  expiryBlock k (Some expiry) truck sda (midnight + tod)
  = if n <=? 0 then Some (mkAlert k overdue (ExpiredOn expiry))
    else if n <=? 30 then Some (mkAlert k due_soon (ExpiresIn n expiry))
    else None.
Proof.
  intros Hc Htod. unfold expiryBlock. rewrite Hc. simpl.
  replace (midnight + n * msPerDay - (midnight + tod)) with (n * msPerDay - tod) by lia.
  by rewrite ceilDays_whole.
Qed.

(** C6.  Mileage thresholds, for oil (5000, margin 500), brakes (25000,
    2500) and tires (40000, 4000), on a truck whose odometer readings are
    on record and whose alert of that kind was not cleared in the last seven
    days: with [nextDue = lastServiceOdometer + interval], an odometer equal
    to [nextDue] gives an overdue alert (0 miles overdue), an odometer equal
    to [nextDue - margin] gives a due-soon alert ([margin] miles left), and
    one unit less gives no alert of that kind.  [alertsAt] is the body shared
    by [getMaintenanceAlerts] and [checkMaintenanceDue]. *)
Theorem mileage_threshold_boundaries now ti to truck k last :
  mileageBased k = true ->
  lastServiceOdometer k truck = Some last ->
  odometersRecorded truck ->
  isAlertClearedRecently truck (now - sevenDays) k = false ->
  let nextDue := last + interval k in
  exists alerts,
    alertsAt now ti to truck = Ok alerts
    /\ (mileage truck = nextDue ->
        alertFor k alerts
        = Some (mkAlert k overdue (OverdueBy 0 last (lastServiceDate k truck) nextDue)))
    /\ (mileage truck = nextDue - earlyWarningMargin k ->
        alertFor k alerts
        = Some (mkAlert k due_soon
                  (DueIn (earlyWarningMargin k) last (lastServiceDate k truck) nextDue)))
    /\ (mileage truck = nextDue - earlyWarningMargin k - 1 ->
        alertFor k alerts = None).
Proof.
  intros Hk Hlast Hrec Hc nextDue.
  destruct (alertsAt_recorded now ti to truck Hrec) as [alerts Ha].
  exists alerts. split; [done|].
  pose proof (alertsAt_alertFor _ _ _ _ _ k Ha) as Hb.
  rewrite blockOf_mileage, Hlast, mileageBlock_open in Hb by done.
  fold nextDue in Hb. injection Hb as Hb. rewrite <- Hb.
  assert (0 < earlyWarningMargin k) by (destruct k; simpl; done || lia).
  repeat split; intros Hm; rewrite Hm.
  - rewrite Z.leb_refl. do 4 f_equal. lia.
  - destruct (nextDue <=? nextDue - earlyWarningMargin k) eqn:E1; [lia|].
    rewrite Z.leb_refl. do 4 f_equal. lia.
  - destruct (nextDue <=? nextDue - earlyWarningMargin k - 1) eqn:E1; [lia|].
    destruct (nextDue - earlyWarningMargin k <=? nextDue - earlyWarningMargin k - 1) eqn:E2;
      [lia|done].
Qed.

Lemma mileage_threshold_boundaries_witness :
  exists alerts,
    alertsAt 0 0 0 (setMileage 105000 unit52) = Ok alerts
    /\ alertFor oilChange alerts
       = Some (mkAlert oilChange overdue (OverdueBy 0 100000 (Some 0) 105000)).
Proof.
  destruct (mileage_threshold_boundaries 0 0 0 (setMileage 105000 unit52) oilChange 100000)
    as (alerts & Ha & Hover & _).
  - reflexivity.
  - reflexivity.
  - repeat split; eexists; reflexivity.
  - reflexivity.
  - exists alerts. split; [exact Ha | apply Hover; reflexivity].
Defined.

(** C7.  Date thresholds, for each of the two inspections, on a truck
    whose document was not cleared in the last seven days: with the expiry
    date at the start of a day and the clock read at any instant of today,
    [daysUntilExpiry = ceil((expiryDate - now) / day)] is the number [n] of
    days between today and the expiry date, and an expiry date of today
    ([n = 0]) gives an overdue alert, one of today + 30 a due-soon alert,
    and one of today + 31 no alert for that document. *)
Theorem expiry_date_boundaries now ti to truck k midnight tod n :
  mileageBased k = false ->
  expiryDate k truck = Some (midnight + n * msPerDay) ->
  todayOf k ti to = midnight + tod ->
  0 <= tod < msPerDay ->
  odometersRecorded truck ->
  isAlertClearedRecently truck (now - sevenDays) k = false ->
  ceilDays (midnight + n * msPerDay - todayOf k ti to) = n
  /\ exists alerts,
    alertsAt now ti to truck = Ok alerts
    /\ (n = 0 -> severity k alerts = Some overdue)
    /\ (n = 30 -> severity k alerts = Some due_soon)
    /\ (n = 31 -> severity k alerts = None).
Proof.
  intros Hk Hexp Htoday Htod Hrec Hc. split.
  { rewrite Htoday.
    replace (midnight + n * msPerDay - (midnight + tod)) with (n * msPerDay - tod) by lia.
    by apply ceilDays_whole. }
  destruct (alertsAt_recorded now ti to truck Hrec) as [alerts Ha].
  exists alerts. split; [done|].
  pose proof (alertsAt_alertFor _ _ _ _ _ k Ha) as Hb.
  rewrite blockOf_document, Hexp, Htoday, expiryBlock_open in Hb by done.
  injection Hb as Hb. unfold severity. rewrite <- Hb.
  repeat split; intros ->; reflexivity.
Qed.

Lemma expiry_date_boundaries_witness :
  exists alerts,
    alertsAt (8 * 3600000) (8 * 3600000) (8 * 3600000)
      (setInspectionStickerExpiry (Some (30 * msPerDay)) unit52) = Ok alerts
    /\ severity inspection alerts = Some due_soon.
Proof.
  destruct (expiry_date_boundaries (8 * 3600000) (8 * 3600000) (8 * 3600000)
              (setInspectionStickerExpiry (Some (30 * msPerDay)) unit52)
              inspection 0 (8 * 3600000) 30)
    as (_ & alerts & Ha & _ & Hsoon & _).
  - reflexivity.
  - reflexivity.
  - reflexivity.
  - unfold msPerDay. lia.
  - repeat split; eexists; reflexivity.
  - reflexivity.
  - exists alerts. split; [exact Ha | apply Hsoon; reflexivity].
Defined.

End RulesClaims.

Section GateClaims.
Import Rules Spec Sample Functions.

Implicit Types (truck : Truck) (k : AlertType).

Lemma gate_closed_iff truck now k cleared :
  clearedAt k truck = Some cleared ->
  isAlertClearedRecently truck (now - sevenDays) k = true <-> now - cleared < sevenDays.
Proof.
  intros Hc. rewrite isAlertClearedRecently_clearedAt, Hc.
  rewrite Z.ltb_lt. lia.
Qed.

Lemma gate_open_iff truck now k :
  isAlertClearedRecently truck (now - sevenDays) k = false <->
  clearedAt k truck = None
  \/ exists cleared, clearedAt k truck = Some cleared /\ sevenDays <= now - cleared.
Proof.
  rewrite isAlertClearedRecently_clearedAt.
  destruct (clearedAt k truck) as [c|].
  - rewrite Z.ltb_ge. split.
    + intros H. right. exists c. split; [done|lia].
    + intros [?|(c' & [= <-] & ?)]; [done|lia].
  - split; [by left|done].
Qed.

(** With its gate open a block does what it does for a truck that was never
    cleared: the threshold rule alone. *)
Lemma blockOf_gate_open k now ti to truck :
  isAlertClearedRecently truck (now - sevenDays) k = false ->
  blockOf k now ti to truck = blockOf k now ti to (setAlertsCleared None truck).
Proof.
  intros Hc.
  destruct k; unfold blockOf, oilChangeCheck, brakeChangeCheck, tireChangeCheck,
    inspectionCheck, oemsInspectionCheck, mileageBlock, expiryBlock; simpl;
    rewrite Hc; reflexivity.
Qed.

(** A kind cleared less than seven days ago: its block pushes nothing and
    the result has no entry for it. *)
Lemma clearance_gate_closed now ti to truck k cleared :
  clearedAt k truck = Some cleared -> now - cleared < sevenDays ->
  blockOf k now ti to truck = Ok None
  /\ forall alerts, alertsAt now ti to truck = Ok alerts -> alertFor k alerts = None.
Proof.
  intros Hc Hlt.
  assert (Hg : isAlertClearedRecently truck (now - sevenDays) k = true)
    by (by eapply gate_closed_iff).
  pose proof (blockOf_cleared k now ti to truck Hg) as Hb.
  split; [done|]. intros alerts Ha.
  pose proof (alertsAt_alertFor _ _ _ _ _ k Ha) as Hb'.
  congruence.
Qed.

(** C5, as the code has it.  A kind whose alert was cleared less than
    seven days ago ([now - cleared < 7 days]) reports no alert whatever the
    thresholds; a kind never cleared, or cleared seven days ago or more
    ([now - cleared >= 7 days]), is evaluated as for a truck that was never
    cleared.  An oil alert cleared at [T] on a truck overdue for its oil change
    is absent at [T + 6 days] and back, overdue, at [T + 8 days]. *)
Theorem clearance_gate now ti to truck k :
  (forall cleared,
     clearedAt k truck = Some cleared -> now - cleared < sevenDays ->
     blockOf k now ti to truck = Ok None
     /\ forall alerts, alertsAt now ti to truck = Ok alerts -> alertFor k alerts = None)
  /\ (clearedAt k truck = None
      \/ (exists cleared, clearedAt k truck = Some cleared /\ sevenDays <= now - cleared) ->
      blockOf k now ti to truck = blockOf k now ti to (setAlertsCleared None truck))
  /\ (forall T last,
        clearedAt oilChange truck = Some T ->
        lastOilChangeMileage truck = Some last ->
        last + 5000 <= mileage truck ->
        odometersRecorded truck ->
        (exists alerts,
           alertsAt (T + 6 * msPerDay) ti to truck = Ok alerts
           /\ alertFor oilChange alerts = None)
        /\ (exists alerts,
              alertsAt (T + 8 * msPerDay) ti to truck = Ok alerts
              /\ severity oilChange alerts = Some overdue)).
Proof.
  split; [|split].
  - intros cleared Hc Hlt. by apply (clearance_gate_closed _ _ _ _ _ cleared).
  - intros Ho%gate_open_iff. by apply blockOf_gate_open.
  - intros T last HT Hlast Hover Hrec. split.
    + destruct (alertsAt_recorded (T + 6 * msPerDay) ti to truck Hrec) as [alerts Ha].
      exists alerts. split; [done|].
      pose proof (alertsAt_alertFor _ _ _ _ _ oilChange Ha) as Hb.
      rewrite blockOf_cleared in Hb; [congruence|].
      eapply gate_closed_iff; [done|]. unfold sevenDays, msPerDay. lia.
    + destruct (alertsAt_recorded (T + 8 * msPerDay) ti to truck Hrec) as [alerts Ha].
      exists alerts. split; [done|].
      pose proof (alertsAt_alertFor _ _ _ _ _ oilChange Ha) as Hb.
      rewrite (blockOf_mileage oilChange) in Hb by done. simpl in Hb.
      rewrite Hlast, mileageBlock_open in Hb.
      * destruct (last + 5000 <=? mileage truck) eqn:E; [|lia].
        injection Hb as Hb. unfold severity. by rewrite <- Hb.
      * apply gate_open_iff. right. exists T. split; [done|].
        unfold sevenDays, msPerDay. lia.
Qed.

Lemma clearance_gate_witness :
  (exists alerts,
     alertsAt (0 + 6 * msPerDay) 0 0 oilClearedAt0 = Ok alerts
     /\ alertFor oilChange alerts = None)
  /\ (exists alerts,
        alertsAt (0 + 8 * msPerDay) 0 0 oilClearedAt0 = Ok alerts
        /\ severity oilChange alerts = Some overdue).
Proof.
  destruct (clearance_gate 0 0 0 oilClearedAt0 oilChange) as (_ & _ & H).
  apply (H 0 100000).
  - reflexivity.
  - reflexivity.
  - simpl. lia.
  - repeat split; eexists; reflexivity.
Defined.

(** C5 as stated fails at the boundary: exactly seven days after the
    clearance, [now - cleared > 7 days] does not hold, yet the oil alert is
    reported, by the card and by the cloud function alike. *)
Lemma clearance_gate_counterexample :
  clearedAt oilChange oilClearedAt0 = Some 0
  /\ ~ (sevenDays - 0 > sevenDays)
  /\ TruckCard.getMaintenanceAlerts sevenDays oilClearedAt0
     = Ok [mkAlert oilChange overdue (OverdueBy 1000 100000 (Some 0) 105000)]
  /\ checkTruck false sevenDays sevenDays sevenDays oilClearedAt0
     = Ok (Some (mkEntry oilClearedAt0
                   [mkAlert oilChange overdue (OverdueBy 1000 100000 (Some 0) 105000)]
                   true)).
Proof.
  split; [reflexivity|]. split; [lia|]. split; reflexivity.
Qed.

(** *** Missing fields *)

(** A missing expiry date: the block is skipped. *)
Lemma expiryBlock_absent k truck sda today : expiryBlock k None truck sda today = None.
Proof. reflexivity. Qed.

(** A missing odometer reading counts as 0 for [nextDue]; nothing is thrown as
    long as the block has no alert to push. *)
Lemma mileageBlock_unrecorded_quiet k interval margin lastDate truck sda :
  mileage truck < interval - margin \/ isAlertClearedRecently truck sda k = true ->
  0 <= margin ->
  mileageBlock k interval margin None lastDate truck sda = Ok None.
Proof.
  intros H Hm. unfold mileageBlock. simpl. rewrite !Z.add_0_l.
  destruct H as [H| ->].
  - destruct (interval <=? mileage truck) eqn:E1; [lia|].
    destruct (interval - margin <=? mileage truck) eqn:E2; [lia|]. simpl. done.
  - simpl. by rewrite !andb_false_r.
Qed.

(** But when it has one, building the message reads [toLocaleString] off the
    missing reading. *)
Lemma mileageBlock_unrecorded_throws k interval margin lastDate truck sda :
  interval - margin <= mileage truck ->
  0 <= margin ->
  isAlertClearedRecently truck sda k = false ->
  mileageBlock k interval margin None lastDate truck sda
  = Throw (TypeError "Cannot read properties of undefined (reading 'toLocaleString')").
Proof.
  intros H Hm Hc. unfold mileageBlock. rewrite Hc. simpl.
  rewrite !andb_true_r, !Z.add_0_l.
  destruct (interval <=? mileage truck) eqn:E1; [done|].
  destruct (interval - margin <=? mileage truck) eqn:E2; [done|lia].
Qed.

(** C2 fails on the code: a truck at 6000 miles whose last oil change
    odometer is missing makes the card's [getMaintenanceAlerts] throw, and
    makes [checkMaintenanceDue] reject for the whole fleet, where the claim has
    the reading count as 0 and an alert set returned. *)
Theorem unrecorded_odometer_throws :
  lastOilChangeMileage neverServiced = None
  /\ TruckCard.getMaintenanceAlerts 0 neverServiced
     = Throw (TypeError "Cannot read properties of undefined (reading 'toLocaleString')")
  /\ checkTruck false 0 0 0 neverServiced
     = Throw (TypeError "Cannot read properties of undefined (reading 'toLocaleString')")
  /\ fst (checkMaintenanceDue false (sameInstant 0) (worldOf [unit52; neverServiced] 0 []))
     = Throw (TypeError "Cannot read properties of undefined (reading 'toLocaleString')").
Proof. repeat split; vm_compute; reflexivity. Qed.

End GateClaims.

(** ** The batch of the cloud function *)

Section BatchFacts.
Import Rules Spec Sample Functions.

Implicit Types (truck : Truck) (k : AlertType) (e : BatchEntry).

Lemma skipsTruck_testMode sda truck : skipsTruck true sda truck = false.
Proof. reflexivity. Qed.

(** The batch gate reads [lastMaintenanceAlertSent] and nothing else. *)
Lemma skipsTruck_alertsCleared testMode sda m truck :
  skipsTruck testMode sda (setAlertsCleared m truck) = skipsTruck testMode sda truck.
Proof. reflexivity. Qed.

Lemma skipsTruck_true_iff testMode sda truck :
  skipsTruck testMode sda truck = true <->
  testMode = false
  /\ exists lastAlertDate,
       lastMaintenanceAlertSent truck = Some lastAlertDate /\ sda < lastAlertDate.
Proof.
  unfold skipsTruck. destruct testMode; simpl.
  - split; [done|]. by intros [? _].
  - destruct (lastMaintenanceAlertSent truck) as [l|].
    + rewrite Z.ltb_lt. split.
      * intros H. split; [done|]. by exists l.
      * by intros (_ & l' & [= <-] & H).
    + split; [done|]. by intros (_ & l' & ? & _).
Qed.

(** What one iteration pushes, once the batch gate lets the truck through. *)
Lemma checkTruck_not_skipped testMode now ti to truck alerts :
  skipsTruck testMode (now - sevenDays) truck = false ->
  alertsAt now ti to truck = Ok alerts ->
  checkTruck testMode now ti to truck
  = Ok (if (0 <? length alerts)%nat || bool_decide (status truck = out_of_service)
        then Some (mkEntry truck alerts (existsb setsHasOverdue alerts))
        else None).
Proof.
  intros Hs Ha. unfold checkTruck. rewrite Hs, Ha. simpl. by case_match.
Qed.

Lemma checkTruck_skipped testMode now ti to truck :
  skipsTruck testMode (now - sevenDays) truck = true ->
  checkTruck testMode now ti to truck = Ok None.
Proof. intros Hs. unfold checkTruck. by rewrite Hs. Qed.

Lemma checkTruck_entry testMode now ti to truck e :
  checkTruck testMode now ti to truck = Ok (Some e) ->
  entryTruck e = truck /\ alertsAt now ti to truck = Ok (alerts e)
  /\ skipsTruck testMode (now - sevenDays) truck = false.
Proof.
  unfold checkTruck.
  destruct (skipsTruck testMode (now - sevenDays) truck); [done|].
  destruct (alertsAt now ti to truck) as [al|]; simpl; [|done].
  case_match; [|done]. by intros [= <-].
Qed.

(** The batch holds exactly the entries pushed for the trucks of the fleet. *)
Lemma checkFleet_elem_of testMode now today fleet batch e :
  checkFleet testMode now today fleet = Ok batch ->
  e ∈ batch <->
  exists truck,
    truck ∈ fleet
    /\ checkTruck testMode now (today (id truck) inspection)
         (today (id truck) oemsInspection) truck = Ok (Some e).
Proof.
  revert batch. induction fleet as [|t fleet IH]; intros batch; simpl.
  - intros [= <-]. split; [by intros ?%elem_of_nil|].
    by intros (? & ?%elem_of_nil & _).
  - destruct (checkTruck testMode now _ _ t) as [o|] eqn:Et; simpl; [|done].
    destruct (checkFleet testMode now today fleet) as [rest|] eqn:Er; simpl; [|done].
    intros [= <-]. rewrite elem_of_app, (IH rest eq_refl). split.
    + intros [He|(truck & Hin & Hc)].
      * destruct o as [e'|]; simpl in He; [|by apply elem_of_nil in He].
        apply list_elem_of_singleton in He as ->.
        exists t. split; [left|done].
      * exists truck. split; [by right|done].
    + intros (truck & [->|Hin]%elem_of_cons & Hc).
      * left. rewrite Hc in Et. injection Et as <-. simpl. by left.
      * right. by exists truck.
Qed.

End BatchFacts.

(** ** The alert-clearing workflow *)

Section ClearanceFacts.
Import Rules Spec Sample Firestore Clearance.

Implicit Types (w : World) (truck : Truck).

Lemma call_frame w :
  trucks (snd (call w)) = trucks w /\ maintenance (snd (call w)) = maintenance w
  /\ clock (snd (call w)) = clock w.
Proof. unfold call. by destruct (faults w). Qed.

Lemma call_sameButRecords w w2 :
  sameButRecords w w2 ->
  fst (call w) = fst (call w2) /\ sameButRecords (snd (call w)) (snd (call w2)).
Proof.
  intros (Ht & Hc & Hf). unfold call, sameButRecords. rewrite Hf.
  destruct (faults w2) eqn:E; unfold withFaults; simpl; repeat split; congruence.
Qed.

(** The retry loop leaves the [trucks] collection alone. *)
Lemma createRecord_trucks remaining retryCount mk w :
  trucks (snd (createRecord remaining retryCount mk w)) = trucks w.
Proof.
  revert retryCount w. induction remaining as [|n IH]; intros retryCount w; simpl; [done|].
  unfold addDoc. pose proof (call_frame w) as (Ht & _ & _).
  destruct (call w) as [[msg|] w']; simpl in *.
  - case_match; simpl; [done|].
    rewrite IH. simpl. done.
  - done.
Qed.

(** Its outcome does not depend on the record it is asked to add. *)
Lemma createRecord_sameButRecords remaining retryCount mk mk2 w w2 :
  sameButRecords w w2 ->
  fst (createRecord remaining retryCount mk w)
  = fst (createRecord remaining retryCount mk2 w2)
  /\ sameButRecords (snd (createRecord remaining retryCount mk w))
       (snd (createRecord remaining retryCount mk2 w2)).
Proof.
  revert retryCount w w2.
  induction remaining as [|n IH]; intros retryCount w w2 Hs; simpl; [done|].
  unfold addDoc. destruct (call_sameButRecords w w2 Hs) as [Hf Hs'].
  destruct (call w) as [[msg|] w'], (call w2) as [[msg2|] w2']; simpl in *; try done.
  - injection Hf as ->.
    case_match; simpl; [done|].
    apply IH. destruct Hs' as (Ht & Hc & Hfa). unfold sameButRecords, sleep. simpl.
    by rewrite Ht, Hc, Hfa.
Qed.

(** When no attempt succeeds the loop throws and adds nothing. *)
Lemma createRecord_all_fail mk w e1 e2 e3 rest :
  faults w = Some e1 :: Some e2 :: Some e3 :: rest ->
  createRecord maxRetries 0 mk w
  = (Throw (Error ("Failed to create maintenance record for alert clearing: " +:+ e3)),
     mkWorld (trucks w) (maintenance w) (clock w + 1000 + 2000) rest).
Proof.
  intros Hf. destruct w as [ts ms c fs]. simpl in Hf. subst fs.
  unfold maxRetries, createRecord, addDoc, call, sleep, withFaults, withClock. simpl.
  repeat f_equal; lia.
Qed.

(** The workflow, step by step, on a truck that exists. *)
Lemma clearMaintenanceAlert_found truckId alertType notes userId w truckData f1 f2 rest :
  faults w = f1 :: f2 :: rest ->
  trucks w !! truckId = Some truckData ->
  clearMaintenanceAlert truckId alertType notes userId w
  = match f1, f2 with
    | Some msg, _ => (Throw (Error msg), withFaults (f2 :: rest) w)
    | None, Some msg => (Throw (Error msg), withFaults rest w)
    | None, None =>
        createRecord maxRetries 0
          (dismissalRecord truckId alertType notes userId truckData)
          (mkWorld (<[truckId := clearedDoc alertType (clock w) (author userId) truckData]>
                      (trucks w))
             (maintenance w) (clock w) rest)
    end.
Proof.
  intros Hf Ht. destruct w as [ts ms c fs]. simpl in *. subst fs.
  unfold clearMaintenanceAlert, getDoc, updateDoc, call.
  cbn [faults trucks clock maintenance withFaults withTrucks].
  destruct f1 as [m1|]; [done|].
  cbn [faults trucks clock maintenance withFaults withTrucks]. rewrite Ht.
  destruct f2 as [m2|]; [done|].
  cbn [faults trucks clock maintenance withFaults withTrucks]. reflexivity.
Qed.

(** The same with an empty script: every call succeeds. *)
Lemma clearMaintenanceAlert_healthy truckId alertType notes userId w truckData :
  faults w = [] ->
  trucks w !! truckId = Some truckData ->
  clearMaintenanceAlert truckId alertType notes userId w
  = (Ok tt,
     mkWorld (<[truckId := clearedDoc alertType (clock w) (author userId) truckData]>
                (trucks w))
       (maintenance w
        ++ [dismissalRecord truckId alertType notes userId truckData (clock w)])
       (clock w) []).
Proof.
  intros Hf Ht. destruct w as [ts ms c fs]. simpl in *. subst fs.
  unfold clearMaintenanceAlert, getDoc, updateDoc, call.
  cbn [faults trucks clock maintenance withFaults withTrucks]. rewrite Ht.
  reflexivity.
Qed.

(** Either the workflow throws without having touched the [trucks]
    collection, or it has rewritten the one document, whatever happens to the
    record afterwards. *)
Lemma clearMaintenanceAlert_trucks truckId alertType notes userId w :
  (isOk (fst (clearMaintenanceAlert truckId alertType notes userId w)) = false
   /\ trucks (snd (clearMaintenanceAlert truckId alertType notes userId w)) = trucks w)
  \/ exists truckData,
       trucks w !! truckId = Some truckData
       /\ trucks (snd (clearMaintenanceAlert truckId alertType notes userId w))
          = <[truckId := clearedDoc alertType (clock w) (author userId) truckData]> (trucks w).
Proof.
  unfold clearMaintenanceAlert, getDoc, updateDoc.
  pose proof (call_frame w) as (Ht & _ & Hc).
  destruct (call w) as [[m1|] w1]; cbn [fst snd] in *;
    [left; split; [reflexivity|congruence]|].
  destruct (trucks w1 !! truckId) as [truckData|] eqn:Et; cbn [fst snd];
    [|left; split; [reflexivity|congruence]].
  pose proof (call_frame w1) as (Ht1 & _ & Hc1).
  destruct (call w1) as [[m2|] w2]; cbn [fst snd] in *;
    [left; split; [reflexivity|congruence]|].
  rewrite Ht1, Et. rewrite createRecord_trucks. cbn [trucks withTrucks].
  right. exists truckData. split; [congruence|]. unfold clearedDoc. congruence.
Qed.

(** When the document is read and written but the record cannot be added,
    the workflow throws after the clearance has been written. *)
Lemma clearMaintenanceAlert_unrecorded truckId alertType notes userId w truckData
    e1 e2 e3 rest :
  faults w = None :: None :: Some e1 :: Some e2 :: Some e3 :: rest ->
  trucks w !! truckId = Some truckData ->
  clearMaintenanceAlert truckId alertType notes userId w
  = (Throw (Error ("Failed to create maintenance record for alert clearing: " +:+ e3)),
     mkWorld (<[truckId := clearedDoc alertType (clock w) (author userId) truckData]>
                (trucks w))
       (maintenance w) (clock w + 1000 + 2000) rest).
Proof.
  intros Hf Ht.
  rewrite (clearMaintenanceAlert_found _ _ _ _ _ _ _ _ _ Hf Ht).
  by rewrite (createRecord_all_fail _ _ e1 e2 e3 rest).
Qed.

(** A later clearance of the same kind overwrites what an earlier one wrote
    on the truck document. *)
Lemma clearedDoc_again alertType now1 who1 now2 who2 truck :
  clearedDoc alertType now2 who2 (clearedDoc alertType now1 who1 truck)
  = clearedDoc alertType now2 who2 truck.
Proof. unfold clearedDoc. simpl. by rewrite insert_insert_eq. Qed.

(** The outcome of the workflow and what it writes on the truck do not depend
    on the justification. *)
Lemma clearMaintenanceAlert_any_notes truckId alertType notes notes2 userId w :
  fst (clearMaintenanceAlert truckId alertType notes userId w)
  = fst (clearMaintenanceAlert truckId alertType notes2 userId w)
  /\ sameButRecords (snd (clearMaintenanceAlert truckId alertType notes userId w))
       (snd (clearMaintenanceAlert truckId alertType notes2 userId w)).
Proof.
  unfold clearMaintenanceAlert, getDoc, updateDoc.
  destruct (call w) as [[m1|] w1]; cbn [fst snd]; [done|].
  destruct (trucks w1 !! truckId) as [truckData|]; cbn [fst snd]; [|done].
  destruct (call w1) as [[m2|] w2]; cbn [fst snd]; [done|].
  destruct (trucks w2 !! truckId) as [t|]; cbn [fst snd]; [|done].
  by apply createRecord_sameButRecords.
Qed.

(** *** Blank text *)

Lemma trimStart_nil (s : JS.text) :
  trimStart s = [] <-> forallb isWhiteSpace s = true.
Proof.
  induction s as [|c s IH]; simpl; [done|].
  destruct (isWhiteSpace c); simpl; [done|]. split; done.
Qed.

Lemma trimStart_head (s r : JS.text) c :
  trimStart s = c :: r -> isWhiteSpace c = false.
Proof.
  induction s as [|c' s IH]; simpl; [done|].
  destruct (isWhiteSpace c') eqn:E; [done|]. by intros [= <- <-].
Qed.

Lemma forallb_rev (s : JS.text) :
  forallb isWhiteSpace (rev s) = forallb isWhiteSpace s.
Proof.
  induction s as [|c s IH]; simpl; [done|].
  rewrite forallb_app, IH. simpl. rewrite andb_true_r. apply andb_comm.
Qed.

(** [trim] leaves nothing exactly of the texts made of white space only. *)
Lemma trim_blank (s : JS.text) :
  JS.truthy (JS.trim s) = false <-> forallb isWhiteSpace s = true.
Proof.
  assert (Hnil : forall l : JS.text, JS.truthy l = false <-> l = [])
    by (intros []; simpl; split; done).
  rewrite Hnil. unfold JS.trim, JS.trimEnd.
  assert (Hrev : forall l : JS.text, rev l = [] <-> l = []).
  { intros l. split; [|by intros ->].
    intros H. apply (f_equal (@rev _)) in H. by rewrite rev_involutive in H. }
  rewrite Hrev, trimStart_nil, forallb_rev.
  destruct (trimStart s) as [|c r] eqn:E.
  - simpl. by rewrite <- trimStart_nil.
  - simpl. rewrite (trimStart_head _ _ _ E). simpl. split; [done|].
    intros H%trimStart_nil. congruence.
Qed.

(** C10.  A successful clearance rewrites the one truck document, and on
    it only [alertsCleared], [updatedAt] and [updatedBy]: every other field
    (odometer, last service readings and dates, expiry dates, status, ...)
    keeps its value, the cleared instants of the other alert kinds are kept,
    that of the cleared kind is the instant of the call, and the documents of
    the other trucks are untouched. *)
Theorem clearance_frame truckId alertType notes userId w w' :
  clearMaintenanceAlert truckId alertType notes userId w = (Ok tt, w') ->
  exists before after,
    trucks w !! truckId = Some before
    /\ trucks w' !! truckId = Some after
    /\ after
       = setUpdatedBy (author userId)
           (setUpdatedAt (clock w)
              (setAlertsCleared
                 (Some (<[alertType := clock w]> (default ∅ (alertsCleared before))))
                 before))
    /\ maintenanceData after = maintenanceData before
    /\ (forall key, key <> alertType ->
          default ∅ (alertsCleared after) !! key = default ∅ (alertsCleared before) !! key)
    /\ (forall k, alertKey k <> alertType -> clearedAt k after = clearedAt k before)
    /\ (forall k, alertKey k = alertType -> clearedAt k after = Some (clock w))
    /\ (forall otherId, otherId <> truckId -> trucks w' !! otherId = trucks w !! otherId).
Proof.
  intros H.
  destruct (clearMaintenanceAlert_trucks truckId alertType notes userId w)
    as [[Hthrow _]|(before & Hb & Hnew)]; rewrite H in *; [done|].
  simpl in Hnew.
  exists before, (clearedDoc alertType (clock w) (author userId) before).
  split; [done|]. split; [by rewrite Hnew, lookup_insert_eq|].
  split; [done|]. split; [done|]. split; [|split; [|split]].
  - intros key Hk. unfold clearedDoc. simpl. by rewrite lookup_insert_ne.
  - intros k Hk. unfold clearedAt, clearedDoc. simpl.
    rewrite lookup_insert_ne by done.
    destruct (alertsCleared before); simpl; [done|]. by rewrite lookup_empty.
  - intros k <-. unfold clearedAt, clearedDoc. simpl. by rewrite lookup_insert_eq.
  - intros otherId Hne. by rewrite Hnew, lookup_insert_ne.
Qed.

Lemma clearance_frame_witness :
  exists before after,
    trucks healthy !! "truck-52" = Some before
    /\ maintenanceData after = maintenanceData before
    /\ clearedAt oilChange after = Some 0.
Proof.
  destruct (clearance_frame "truck-52" "oilChange" (JS.lit "pads at 8 mm") (Some "mech")
              healthy
              (snd (clearMaintenanceAlert "truck-52" "oilChange" (JS.lit "pads at 8 mm")
                      (Some "mech") healthy)))
    as (before & after & Hb & _ & _ & Hdata & _ & _ & Hk & _).
  - vm_compute. reflexivity.
  - exists before, after. split; [exact Hb|]. split; [exact Hdata|].
    apply (Hk oilChange). reflexivity.
Defined.

(** The record of a dismissal quotes the unit number and the mileage of the
    truck, which a clearance leaves alone. *)
Lemma dismissalRecord_clearedDoc truckId alertType notes userId alertType1 now1 who1
    truckData now :
  dismissalRecord truckId alertType notes userId (clearedDoc alertType1 now1 who1 truckData)
    now
  = dismissalRecord truckId alertType notes userId truckData now.
Proof. reflexivity. Qed.

(** Clearing a kind on a store where the same kind of the same truck was
    cleared before: the outcome is the one on the store without that earlier
    clearance, and so is the store once the write of the truck document has
    gone through. *)
Lemma clear_over_cleared truckId alertType notes userId truckData now1 who1 ts ms now script :
  ts !! truckId = Some truckData ->
  let cleared := <[truckId := clearedDoc alertType now1 who1 truckData]> ts in
  let again := clearMaintenanceAlert truckId alertType notes userId
                 (mkWorld cleared ms now script) in
  let fresh := clearMaintenanceAlert truckId alertType notes userId
                 (mkWorld ts ms now script) in
  fst again = fst fresh
  /\ maintenance (snd again) = maintenance (snd fresh)
  /\ clock (snd again) = clock (snd fresh)
  /\ faults (snd again) = faults (snd fresh)
  /\ (head script = None \/ head script = Some None ->
      head (tail script) = None \/ head (tail script) = Some None ->
      snd again = snd fresh).
Proof.
  intros Hts cleared again fresh. subst again fresh.
  unfold clearMaintenanceAlert, getDoc, updateDoc, call.
  cbn [faults trucks clock withFaults].
  assert (Hc : cleared !! truckId = Some (clearedDoc alertType now1 who1 truckData))
    by (subst cleared; by rewrite lookup_insert_eq).
  assert (Hsame : forall fs,
            mkWorld
              (<[truckId := clearedDoc alertType now (author userId)
                              (clearedDoc alertType now1 who1 truckData)]> cleared)
              ms now fs
            = mkWorld (<[truckId := clearedDoc alertType now (author userId) truckData]> ts)
                ms now fs).
  { intros fs. subst cleared. by rewrite insert_insert_eq, clearedDoc_again. }
  destruct script as [|[m1|] [|[m2|] script]];
    cbn [fst snd faults trucks clock maintenance withFaults withTrucks head tail];
    rewrite ?Hc, ?Hts;
    cbn [fst snd faults trucks clock maintenance withFaults withTrucks head tail].
  - fold (clearedDoc alertType now (author userId) (clearedDoc alertType now1 who1 truckData)).
    fold (clearedDoc alertType now (author userId) truckData).
    unfold withTrucks. cbn [faults trucks clock maintenance].
    rewrite Hsame. repeat split; done.
  - repeat split; try done. by intros [|].
  - repeat split; try done. by intros [|].
  - repeat split; try done. by intros [|].
  - fold (clearedDoc alertType now (author userId) (clearedDoc alertType now1 who1 truckData)).
    fold (clearedDoc alertType now (author userId) truckData).
    unfold withTrucks. cbn [faults trucks clock maintenance].
    rewrite Hsame. repeat split; done.
  - repeat split; try done. by intros _ [|].
  - fold (clearedDoc alertType now (author userId) (clearedDoc alertType now1 who1 truckData)).
    fold (clearedDoc alertType now (author userId) truckData).
    unfold withTrucks. cbn [faults trucks clock maintenance].
    rewrite Hsame. repeat split; done.
Qed.

(** C1.  A clearance whose record cannot be filed: when the read and the
    write of the truck document go through and the three attempts to add the
    record fail, the call throws, so the clearance is never reported as done
    (the modal reports the failure), and no record is added; the write of the
    truck document is not taken back.  Calling clear again for the same truck
    and kind then behaves as if the first call had never happened: whatever
    the store does, the second call ends as it would on the store the first
    call found, with the same records, and once its own write of the truck
    document has gone through the whole store is the same. *)
Theorem failed_clearance_not_reported truckId alertType notes userId w truckData
    e1 e2 e3 rest :
  faults w = None :: None :: Some e1 :: Some e2 :: Some e3 :: rest ->
  trucks w !! truckId = Some truckData ->
  let first := clearMaintenanceAlert truckId alertType notes userId w in
  fst first
  = Throw (Error ("Failed to create maintenance record for alert clearing: " +:+ e3))
  /\ (forall truck k raw,
        id truck = truckId -> alertKey k = alertType ->
        JS.trim raw = notes -> JS.truthy notes = true ->
        handleClearAlert truck k raw (dashboardHandleClearAlert userId) w
        = (FailedToClear, snd first))
  /\ maintenance (snd first) = maintenance w
  /\ trucks (snd first)
     = <[truckId := clearedDoc alertType (clock w) (author userId) truckData]> (trucks w)
  /\ (forall notes2 user2 later script,
        let again := clearMaintenanceAlert truckId alertType notes2 user2
                       (withFaults script (withClock later (snd first))) in
        let fresh := clearMaintenanceAlert truckId alertType notes2 user2
                       (withFaults script (withClock later w)) in
        fst again = fst fresh
        /\ maintenance (snd again) = maintenance (snd fresh)
        /\ clock (snd again) = clock (snd fresh)
        /\ faults (snd again) = faults (snd fresh)
        /\ (head script = None \/ head script = Some None ->
            head (tail script) = None \/ head (tail script) = Some None ->
            snd again = snd fresh)).
Proof.
  intros Hf Ht first. subst first.
  rewrite (clearMaintenanceAlert_unrecorded _ _ _ _ _ truckData e1 e2 e3 rest Hf Ht).
  cbn [fst snd maintenance trucks].
  split; [done|]. split; [|split; [done|split; [done|]]].
  - intros truck k raw Hid Hk Hraw Htruthy. unfold handleClearAlert, dashboardHandleClearAlert.
    rewrite Hraw, Htruthy, Hid, Hk. cbn [negb].
    by rewrite (clearMaintenanceAlert_unrecorded _ _ _ _ _ truckData e1 e2 e3 rest Hf Ht).
  - intros notes2 user2 later script.
    exact (clear_over_cleared truckId alertType notes2 user2 truckData (clock w)
             (author userId) (trucks w) (maintenance w) later script Ht).
Qed.

Lemma failed_clearance_not_reported_witness :
  fst (clearMaintenanceAlert "truck-52" "oilChange" (JS.lit "pads at 8 mm") (Some "mech")
         recordsUnavailable)
  = Throw (Error "Failed to create maintenance record for alert clearing: unavailable")
  /\ maintenance (snd (clearMaintenanceAlert "truck-52" "oilChange" (JS.lit "pads at 8 mm")
                         (Some "mech") recordsUnavailable)) = []
  /\ snd (clearMaintenanceAlert "truck-52" "oilChange" (JS.lit "pads at 8 mm") (Some "mech")
            (withFaults []
               (withClock day
                  (snd (clearMaintenanceAlert "truck-52" "oilChange"
                          (JS.lit "pads at 8 mm") (Some "mech") recordsUnavailable)))))
     = snd (clearMaintenanceAlert "truck-52" "oilChange" (JS.lit "pads at 8 mm")
              (Some "mech") (withFaults [] (withClock day recordsUnavailable))).
Proof.
  destruct (failed_clearance_not_reported "truck-52" "oilChange" (JS.lit "pads at 8 mm")
              (Some "mech") recordsUnavailable oilOverdue
              "unavailable" "unavailable" "unavailable" [])
    as (Hthrow & _ & Hrec & _ & Hagain); [reflexivity | reflexivity |].
  split; [exact Hthrow|]. split; [exact Hrec|].
  destruct (Hagain (JS.lit "pads at 8 mm") (Some "mech") day []) as (_ & _ & _ & _ & Hsame).
  apply Hsame; by left.
Defined.

(** C4 fails on the code: called with an empty justification, the workflow
    clears the alert and files a record whose assessment is empty. *)
Lemma empty_justification_counterexample :
  clearMaintenanceAlert "truck-52" "oilChange" [] (Some "mech") healthy
  = (Ok tt,
     mkWorld (<["truck-52" := clearedDoc "oilChange" 0 "mech" oilOverdue]> (trucks healthy))
       [dismissalRecord "truck-52" "oilChange" [] (Some "mech") oilOverdue 0] 0 [])
  /\ notes (dismissalRecord "truck-52" "oilChange" [] (Some "mech") oilOverdue 0)
     = JS.lit "Maintenance alert dismissed without performing work. Mechanic assessment: ".
Proof.
  split; [|reflexivity].
  rewrite (clearMaintenanceAlert_healthy "truck-52" "oilChange" [] (Some "mech")
             healthy oilOverdue) by reflexivity.
  reflexivity.
Qed.

(** C4, as the code has it.  The workflow does not look at the
    justification: its outcome, and everything it leaves behind but the text
    of the record, are the same for every justification, the empty one
    included.  The check is the modal's: when the notes are empty or white
    space only it asks for notes, calls no handler and leaves the store as it
    is; otherwise it calls the handler with the trimmed notes. *)
Theorem justification_checked_by_modal :
  (forall truckId alertType notes userId w,
     fst (clearMaintenanceAlert truckId alertType notes userId w)
     = fst (clearMaintenanceAlert truckId alertType [] userId w)
     /\ sameButRecords (snd (clearMaintenanceAlert truckId alertType notes userId w))
          (snd (clearMaintenanceAlert truckId alertType [] userId w)))
  /\ (forall truck k notes handler w,
        forallb isWhiteSpace notes = true ->
        handleClearAlert truck k notes handler w = (AskForNotes, w))
  /\ (forall truck k notes handler w,
        forallb isWhiteSpace notes = false ->
        JS.trim notes <> []
        /\ handleClearAlert truck k notes handler w
           = match handler (id truck) (alertKey k) (JS.trim notes) w with
             | (Ok _, w') => (Closed, w')
             | (Throw _, w') => (FailedToClear, w')
             end).
Proof.
  split; [|split].
  - intros. apply clearMaintenanceAlert_any_notes.
  - intros truck k notes handler w Hblank%trim_blank.
    unfold handleClearAlert. by rewrite Hblank.
  - intros truck k notes handler w Hnb.
    assert (Ht : JS.truthy (JS.trim notes) = true).
    { destruct (JS.truthy (JS.trim notes)) eqn:E; [done|].
      apply trim_blank in E. congruence. }
    split.
    + intros Hnil. by rewrite Hnil in Ht.
    + unfold handleClearAlert. by rewrite Ht.
Qed.

Lemma justification_checked_by_modal_witness :
  handleClearAlert oilOverdue oilChange [32%N; 9%N; 160%N]
    (dashboardHandleClearAlert (Some "mech")) healthy
  = (AskForNotes, healthy).
Proof.
  destruct justification_checked_by_modal as (_ & Hblank & _).
  apply Hblank. reflexivity.
Defined.

End ClearanceFacts.

(** ** The fan-out *)

Section DispatchFacts.
Import Rules Spec Sample Firestore Functions.

Implicit Types (w : World) (channel : string -> FetchOutcome).

(** A call with a key, a sender, a recipient and a subject reaches [fetch],
    and its promise settles as the channel has it. *)
Lemma sendWithMailerSend_valid channel params :
  apiKey params <> "" -> fromEmail params <> "" -> toEmail params <> "" ->
  subject params <> "" ->
  sendWithMailerSend channel params
  = (settled (toEmail params) (channel (toEmail params)),
     Some (toEmail params, channel (toEmail params))).
Proof.
  intros Hk Hf Ht Hs. unfold sendWithMailerSend, settled.
  destruct (decide (apiKey params = "")); [done|].
  rewrite !bool_decide_eq_false_2 by done. simpl.
  by destruct (channel (toEmail params)).
Qed.

(** Without a key no request is made at all. *)
Lemma sendWithMailerSend_no_key channel params :
  apiKey params = "" ->
  sendWithMailerSend channel params
  = (Throw (Error "MailerSend API key is required"), None).
Proof.
  intros Hk. unfold sendWithMailerSend. by destruct (decide (apiKey params = "")).
Qed.

(** A fulfilled send lists its recipient as accepted and nobody as rejected. *)
Lemma sendWithMailerSend_Ok channel params r :
  fst (sendWithMailerSend channel params) = Ok r ->
  accepted r = [toEmail params] /\ rejected r = [].
Proof.
  unfold sendWithMailerSend.
  destruct (decide (apiKey params = "")); [done|].
  case_match; [done|].
  destruct (channel (toEmail params)); simpl; [|done..].
  by intros [= <-].
Qed.

(** The promises of a trigger: with a key, one request per recipient of the
    list, each settling on its own. *)
Lemma sendPromises_settled channel key subjectLine n htmlContent :
  key <> "" -> subjectLine <> "" ->
  sendPromises channel key subjectLine n htmlContent
  = map (fun r => (settled r (channel r), Some (r, channel r))) recipientEmails.
Proof.
  intros Hk Hs. unfold sendPromises, recipientEmails.
  assert (Hrs : Forall (fun r : string * string => fst r <> "") recipients)
    by (repeat constructor; done).
  induction Hrs as [|[to name] rs Hto Hrs IH]; simpl; [done|].
  rewrite sendWithMailerSend_valid by done. simpl. by rewrite IH.
Qed.

Lemma requestsOf_settled channel (rs : list string) :
  requestsOf (map (fun r => (settled r (channel r), Some (r, channel r))) rs)
  = map (fun r => (r, channel r)) rs.
Proof.
  unfold requestsOf. induction rs as [|r rs IH]; [done|]. simpl. by f_equal.
Qed.

Lemma promises_settled channel (rs : list string) :
  map fst (map (fun r => (settled r (channel r), Some (r, channel r))) rs)
  = map (fun r => settled r (channel r)) rs.
Proof. induction rs as [|r rs IH]; [done|]. simpl. by f_equal. Qed.

(** [Promise.all] over sends of which exactly one fails rejects with the
    error of that one. *)
Lemma promiseAll_one_fails channel (rs : list string) bad err :
  bad ∈ rs ->
  failureOf (channel bad) = Some err ->
  (forall r, r ∈ rs -> r <> bad -> failureOf (channel r) = None) ->
  promiseAll (map (fun r => settled r (channel r)) rs) = Throw err.
Proof.
  intros Hin Hbad Hothers. induction rs as [|r rs IH]; [by apply elem_of_nil in Hin|].
  simpl. destruct (decide (r = bad)) as [->|Hne].
  - unfold settled. destruct (channel bad); simpl in Hbad; by simplify_eq.
  - assert (Hr : failureOf (channel r) = None) by (apply Hothers; [left|done]).
    unfold settled at 1. destruct (channel r); simpl in Hr; [|done..].
    rewrite IH; [done| |].
    + apply elem_of_cons in Hin as [?|?]; [congruence|done].
    + intros r' Hr' ?. apply Hothers; [by right|done].
Qed.

(** [Promise.all] fulfilled: every promise was, in order. *)
Lemma promiseAll_Ok {A} (settledList : list (result A)) (values : list A) :
  promiseAll settledList = Ok values -> settledList = map Ok values.
Proof.
  revert values. induction settledList as [|[a|e] l IH]; intros values; simpl.
  - by intros [= <-].
  - destruct (promiseAll l) as [vs|]; simpl; [|done].
    intros [= <-]. simpl. by rewrite (IH vs eq_refl).
  - done.
Qed.

(** Nothing is ever listed as rejected: a fulfilled send has an empty
    [rejected], and a failed one throws. *)
Lemma settled_rejected channel (rs : list string) results :
  promiseAll (map (fun r => settled r (channel r)) rs) = Ok results ->
  concat (map rejected results) = [] /\ concat (map accepted results) = rs.
Proof.
  revert results. induction rs as [|r rs IH]; intros results; simpl.
  - by intros [= <-].
  - unfold settled at 1. destruct (channel r); simpl; [|done..].
    destruct (promiseAll _) as [vs|]; simpl; [|done].
    intros [= <-]. simpl. destruct (IH vs eq_refl) as [-> ->]. done.
Qed.

(** The fleet check reads the store and leaves it as it is. *)
Lemma checkMaintenanceDue_frame testMode today w :
  trucks (snd (checkMaintenanceDue testMode today w)) = trucks w
  /\ maintenance (snd (checkMaintenanceDue testMode today w)) = maintenance w.
Proof.
  unfold checkMaintenanceDue, getTrucks.
  pose proof (call_frame w) as (Ht & Hm & _).
  destruct (call w) as [[msg|] w1]; done.
Qed.

(** C3, as the code has it.  When exactly one recipient of the list
    fails, with the API key set and a batch to send: a request is made for each
    of the five recipients, so the sends to the other four go through; the
    trigger as a whole fails with the error of the failing send (the HTTP
    trigger answers 500 with it, and no accepted or rejected list; the
    scheduled one logs it); and the [trucks] collection, [lastMaintenanceAlertSent]
    included, is left as it was. *)
Theorem one_recipient_fails key channel today elapsed w bad err :
  key <> "" ->
  bad ∈ recipientEmails ->
  failureOf (channel bad) = Some err ->
  (forall r, r ∈ recipientEmails -> r <> bad -> failureOf (channel r) = None) ->
  (forall req e batch,
     isOptions req = false ->
     fst (checkMaintenanceDue (testModeOf req) today w) = Ok (e :: batch) ->
     let out := sendMaintenanceAlert req key channel today elapsed w in
     requests out = map (fun r => (r, channel r)) recipientEmails
     /\ (forall r, r ∈ recipientEmails -> r <> bad ->
           exists mid st, (r, Sent mid st) ∈ requests out)
     /\ response out = Some (ServerError err)
     /\ trucks (world out) = trucks w)
  /\ (forall e batch,
        fst (checkMaintenanceDue false today w) = Ok (e :: batch) ->
        let out := dailyMaintenanceCheck key channel today elapsed w in
        requests out = map (fun r => (r, channel r)) recipientEmails
        /\ (forall r, r ∈ recipientEmails -> r <> bad ->
              exists mid st, (r, Sent mid st) ∈ requests out)
        /\ response out = None
        /\ trucks (world out) = trucks w).
Proof.
  intros Hk Hin Hbad Hothers.
  pose proof (promiseAll_one_fails channel recipientEmails bad err Hin Hbad Hothers) as Hall.
  assert (Hdelivered : forall r, r ∈ recipientEmails -> r <> bad ->
            exists mid st,
              (r, Sent mid st) ∈ map (fun r => (r, channel r)) recipientEmails).
  { intros r Hr Hne. specialize (Hothers r Hr Hne).
    destruct (channel r) as [mid st| |] eqn:E; simpl in Hothers; [|done..].
    exists mid, st. apply list_elem_of_fmap. exists r. by rewrite E. }
  split.
  - intros req e batch Hopt Hcheck. unfold sendMaintenanceAlert. rewrite Hopt.
    fold (testModeOf req).
    pose proof (checkMaintenanceDue_frame (testModeOf req) today w) as [Ht _].
    destruct (checkMaintenanceDue (testModeOf req) today w) as [r w1].
    simpl in Hcheck, Ht. subst r. cbv zeta.
    rewrite sendPromises_settled by done.
    rewrite promises_settled, Hall. cbn [requests response world].
    rewrite requestsOf_settled. done.
  - intros e batch Hcheck. unfold dailyMaintenanceCheck.
    pose proof (checkMaintenanceDue_frame false today w) as [Ht _].
    destruct (checkMaintenanceDue false today w) as [r w1].
    simpl in Hcheck, Ht. subst r. cbv zeta.
    rewrite sendPromises_settled by done.
    rewrite promises_settled, Hall. cbn [requests response world].
    rewrite requestsOf_settled. done.
Qed.

Lemma one_recipient_fails_witness :
  let out :=
    sendMaintenanceAlert (mkRequest false None false) "key" thirdRefused (sameInstant 0)
      1500 healthy in
  requests out = map (fun r => (r, thirdRefused r)) recipientEmails
  /\ (forall r, r ∈ recipientEmails -> r <> "tw4001@aol.com" ->
        exists mid st, (r, Sent mid st) ∈ requests out)
  /\ response out = Some (ServerError (Error "The to.0.email domain is blocked."))
  /\ trucks (world out) = trucks healthy.
Proof.
  destruct (one_recipient_fails "key" thirdRefused (sameInstant 0) 1500 healthy
              "tw4001@aol.com" (Error "The to.0.email domain is blocked."))
    as [Hhttp _].
  - done.
  - unfold recipientEmails. simpl. set_solver.
  - reflexivity.
  - intros r _ Hne. unfold thirdRefused. by destruct (decide (r = "tw4001@aol.com")).
  - eapply Hhttp; [reflexivity|]. vm_compute. reflexivity.
Defined.

(** The answer of the HTTP trigger never lists a rejected recipient. *)
Lemma rejected_list_empty req key channel today elapsed w n c emails ids acc rej :
  response (sendMaintenanceAlert req key channel today elapsed w)
  = Some (EmailsSent n c emails ids acc rej) ->
  rej = [].
Proof.
  unfold sendMaintenanceAlert.
  destruct (isOptions req); [done|].
  destruct (checkMaintenanceDue _ today w) as [[[|e batch]|] w1]; [done| |done].
  cbv zeta.
  destruct (promiseAll _) as [results|] eqn:Hall; [|done].
  cbn [response]. intros [= _ _ _ _ _ <-].
  apply promiseAll_Ok in Hall.
  assert (Hall' : Forall (fun r => rejected r = []) results).
  { apply Forall_forall. intros r Hr.
    assert (Hin : Ok r ∈ map fst (sendPromises channel key "Maintenance Due Alert"
                                    (length (e :: batch))
                                    (createMaintenanceEmailHTML (e :: batch)))).
    { rewrite Hall. apply list_elem_of_fmap. by exists r. }
    apply list_elem_of_fmap in Hin as (p & Hp & Hin).
    unfold sendPromises in Hin. apply list_elem_of_fmap in Hin as (recipient & -> & _).
    symmetry in Hp. by apply sendWithMailerSend_Ok in Hp as [_ ?]. }
  clear Hall. induction Hall' as [|r rs Hr _ IH]; [done|]. simpl. by rewrite Hr, IH.
Qed.

(** C3 as stated fails on the code: with the third recipient refused by
    the channel, the answer is the error, not an outcome whose rejected list
    names that recipient. *)
Lemma partial_failure_counterexample :
  failureOf (thirdRefused "tw4001@aol.com")
  = Some (Error "The to.0.email domain is blocked.")
  /\ response (sendMaintenanceAlert (mkRequest false None false) "key" thirdRefused
                 (sameInstant 0) 1500 healthy)
     = Some (ServerError (Error "The to.0.email domain is blocked."))
  /\ ~ (exists n c emails ids acc rej,
          response (sendMaintenanceAlert (mkRequest false None false) "key" thirdRefused
                      (sameInstant 0) 1500 healthy)
          = Some (EmailsSent n c emails ids acc rej)
          /\ "tw4001@aol.com" ∈ rej).
Proof.
  split; [reflexivity|]. split; [vm_compute; reflexivity|].
  intros (n & c & emails & ids & acc & rej & H & Hin).
  apply rejected_list_empty in H. subst rej. by apply elem_of_nil in Hin.
Qed.

End DispatchFacts.

(** ** The triggers on a store that answers *)

Section TriggerFacts.
Import Rules Spec Shape Sample Firestore Functions.

Implicit Types (w : World) (channel : string -> FetchOutcome) (e : BatchEntry)
  (truck : Truck) (k : AlertType).

Lemma call_no_faults w : faults w = [] -> call w = (None, w).
Proof. intros H. unfold call. by rewrite H. Qed.

(** With no fault pending, an update rewrites the document if there is one
    and changes nothing otherwise. *)
Lemma updateDoc_no_faults key fields w :
  faults w = [] ->
  trucks (snd (updateDoc key fields w)) = alter fields key (trucks w)
  /\ maintenance (snd (updateDoc key fields w)) = maintenance w
  /\ clock (snd (updateDoc key fields w)) = clock w
  /\ faults (snd (updateDoc key fields w)) = [].
Proof.
  intros Hf. unfold updateDoc. rewrite call_no_faults by done.
  destruct (trucks w !! key) as [t|] eqn:Et; simpl.
  - repeat split; try done. apply map_eq. intros k.
    destruct (decide (key = k)) as [<-|Hne].
    + by rewrite lookup_insert_eq, lookup_alter_eq, Et.
    + by rewrite lookup_insert_ne, lookup_alter_ne.
  - repeat split; try done. apply map_eq. intros k.
    destruct (decide (key = k)) as [<-|Hne].
    + by rewrite lookup_alter_eq, Et.
    + by rewrite lookup_alter_ne.
Qed.

(** The updates that follow a dispatch stamp the documents of the batch and
    no other. *)
Lemma updateLastSent_no_faults batch w :
  faults w = [] ->
  (forall key, trucks (snd (updateLastSent batch w)) !! key
               = stamped (batchIds batch) (clock w) (trucks w) key)
  /\ maintenance (snd (updateLastSent batch w)) = maintenance w
  /\ clock (snd (updateLastSent batch w)) = clock w
  /\ faults (snd (updateLastSent batch w)) = [].
Proof.
  revert w. induction batch as [|e batch IH]; intros w Hf.
  - simpl. repeat split; done.
  - simpl.
    destruct (updateDoc_no_faults (id (entryTruck e))
                (setLastMaintenanceAlertSent (Some (clock w))) w Hf)
      as (Ht & Hm & Hc & Hf').
    destruct (updateDoc _ _ w) as [r w1]. simpl in Ht, Hm, Hc, Hf'.
    destruct (IH w1 Hf') as (Ht2 & Hm2 & Hc2 & Hf2).
    destruct (updateLastSent batch w1) as [ok w2]. simpl in *.
    repeat split; try congruence.
    intros key. rewrite Ht2, Hc. unfold stamped. rewrite Ht.
    destruct (decide (key = id (entryTruck e))) as [->|Hne].
    + rewrite lookup_alter_eq.
      rewrite (decide_True (P := _ ∈ _ :: _)) by left.
      destruct (decide (_ ∈ batchIds batch)); [|done].
      by destruct (trucks w !! id (entryTruck e)).
    + rewrite lookup_alter_ne by done.
      destruct (decide (key ∈ batchIds batch)) as [Hin|Hnin].
      * by rewrite (decide_True (P := _ ∈ _ :: _)) by (by right).
      * rewrite (decide_False (P := _ ∈ _ :: _)); [done|].
        by intros [?|?]%elem_of_cons.
Qed.

Lemma checkMaintenanceDue_Ok testMode today w batch :
  fst (checkMaintenanceDue testMode today w) = Ok batch ->
  checkFleet testMode (clock w) today (snd <$> map_to_list (trucks w)) = Ok batch.
Proof.
  unfold checkMaintenanceDue, getTrucks.
  pose proof (call_frame w) as (Ht & _ & Hc).
  destruct (call w) as [[msg|] w1]; simpl in *; [done|]. by rewrite Ht, Hc.
Qed.

Lemma checkMaintenanceDue_no_faults testMode today w :
  faults w = [] -> snd (checkMaintenanceDue testMode today w) = w.
Proof.
  intros Hf. unfold checkMaintenanceDue, getTrucks. by rewrite call_no_faults.
Qed.

(** [Promise.all] over sends that all go through. *)
Lemma promiseAll_all_sent channel (rs : list string) :
  (forall r, r ∈ rs -> failureOf (channel r) = None) ->
  promiseAll (map (fun r => settled r (channel r)) rs)
  = Ok (map (fun r => resultOf r (channel r)) rs).
Proof.
  induction rs as [|r rs IH]; intros Hall; [done|]. simpl.
  assert (Hr : failureOf (channel r) = None) by (apply Hall; left).
  unfold settled at 1, resultOf at 1.
  destruct (channel r); simpl in Hr; [|done..].
  rewrite IH; [done|]. intros r' ?. apply Hall. by right.
Qed.

Lemma resultOf_lists channel (rs : list string) :
  (forall r, r ∈ rs -> failureOf (channel r) = None) ->
  concat (map accepted (map (fun r => resultOf r (channel r)) rs)) = rs
  /\ concat (map rejected (map (fun r => resultOf r (channel r)) rs)) = []
  /\ map messageId (map (fun r => resultOf r (channel r)) rs)
     = map (fun r => messageIdOf (channel r)) rs.
Proof.
  induction rs as [|r rs IH]; intros Hall; [done|]. simpl.
  assert (Hr : failureOf (channel r) = None) by (apply Hall; left).
  destruct IH as (-> & -> & ->); [intros r' ?; apply Hall; by right|].
  unfold resultOf, messageIdOf. by destruct (channel r).
Qed.

(** Past the batch gate an iteration does the same in both modes. *)
Lemma checkTruck_modes now ti to truck :
  skipsTruck false (now - sevenDays) truck = false ->
  checkTruck true now ti to truck = checkTruck false now ti to truck.
Proof. intros Hs. unfold checkTruck. by rewrite Hs. Qed.

(** A check that succeeds has evaluated every truck of the fleet, and holds
    what each iteration pushed. *)
Lemma checkFleet_each testMode now today fleet batch truck :
  checkFleet testMode now today fleet = Ok batch ->
  truck ∈ fleet ->
  exists o,
    checkTruck testMode now (today (id truck) inspection) (today (id truck) oemsInspection)
      truck = Ok o
    /\ forall e, o = Some e -> e ∈ batch.
Proof.
  intros Hfleet Hin.
  destruct (checkTruck testMode now (today (id truck) inspection)
              (today (id truck) oemsInspection) truck) as [o|err] eqn:Ec.
  - exists o. split; [done|]. intros e ->.
    apply (checkFleet_elem_of _ _ _ _ _ _ Hfleet). by exists truck.
  - exfalso. revert batch Hfleet. induction fleet as [|t fleet IH]; intros batch; simpl.
    + by apply elem_of_nil in Hin.
    + apply elem_of_cons in Hin as [<-|Hin].
      * by rewrite Ec.
      * destruct (checkTruck testMode now _ _ t); simpl; [|done].
        destruct (checkFleet testMode now today fleet) as [rest|]; simpl; [|done].
        intros _. by apply (IH Hin rest).
Qed.

(** The fleet of a check is the documents of the store. *)
Lemma checkMaintenanceDue_stored testMode today w batch :
  fst (checkMaintenanceDue testMode today w) = Ok batch ->
  (forall e,
     e ∈ batch <->
     exists docId truck,
       trucks w !! docId = Some truck
       /\ checkTruck testMode (clock w) (today (id truck) inspection)
            (today (id truck) oemsInspection) truck = Ok (Some e))
  /\ (forall docId truck,
        trucks w !! docId = Some truck ->
        exists o,
          checkTruck testMode (clock w) (today (id truck) inspection)
            (today (id truck) oemsInspection) truck = Ok o
          /\ forall e, o = Some e -> e ∈ batch).
Proof.
  intros Hcheck%checkMaintenanceDue_Ok. split.
  - intros e. rewrite (checkFleet_elem_of _ _ _ _ _ _ Hcheck). split.
    + intros (truck & Hin & Hc).
      apply list_elem_of_fmap in Hin as ([docId t] & -> & Hin).
      apply elem_of_map_to_list in Hin. by exists docId, t.
    + intros (docId & truck & Hin & Hc). exists truck. split; [|done].
      apply list_elem_of_fmap. exists (docId, truck). split; [done|].
      by apply elem_of_map_to_list.
  - intros docId truck Hin.
    apply (checkFleet_each _ _ _ _ _ _ Hcheck).
    apply list_elem_of_fmap. exists (docId, truck). split; [done|].
    by apply elem_of_map_to_list.
Qed.

(** The HTTP trigger on a store that answers, with the API key set and a
    channel that delivers to the whole list: its answer, its requests and the
    store it leaves, for the batch its check returned. *)
Lemma sendMaintenanceAlert_delivered req key channel today elapsed w batch :
  isOptions req = false ->
  key <> "" ->
  allDelivered channel ->
  faults w = [] ->
  fst (checkMaintenanceDue (testModeOf req) today w) = Ok batch ->
  let out := sendMaintenanceAlert req key channel today elapsed w in
  response out = Some (answerFor channel batch)
  /\ requests out = requestsFor channel batch
  /\ (forall docId, trucks (world out) !! docId
                    = stamped (batchIds batch) (clock w + elapsed) (trucks w) docId)
  /\ maintenance (world out) = maintenance w.
Proof.
  intros Hopt Hk Hall Hf Hcheck. unfold sendMaintenanceAlert. rewrite Hopt. cbv zeta.
  pose proof (checkMaintenanceDue_no_faults (testModeOf req) today w Hf) as Hw.
  destruct (checkMaintenanceDue (testModeOf req) today w) as [r w1].
  simpl in Hcheck, Hw. subst r w1.
  destruct batch as [|e batch].
  { cbn [response requests world]. repeat split; done. }
  rewrite sendPromises_settled by done.
  rewrite promises_settled, (promiseAll_all_sent channel recipientEmails Hall).
  cbn [requests response world].
  destruct (resultOf_lists channel recipientEmails Hall) as (-> & -> & ->).
  rewrite requestsOf_settled.
  destruct (updateLastSent_no_faults (e :: batch) (sleep elapsed w) Hf)
    as (Ht & Hm & _ & _).
  done.
Qed.

(** The same for the scheduled trigger. *)
Lemma dailyMaintenanceCheck_delivered key channel today elapsed w batch :
  key <> "" -> allDelivered channel -> faults w = [] ->
  fst (checkMaintenanceDue false today w) = Ok batch ->
  let out := dailyMaintenanceCheck key channel today elapsed w in
  response out = None
  /\ requests out = requestsFor channel batch
  /\ (forall docId, trucks (world out) !! docId
                    = stamped (batchIds batch) (clock w + elapsed) (trucks w) docId)
  /\ maintenance (world out) = maintenance w.
Proof.
  intros Hk Hall Hf Hcheck. unfold dailyMaintenanceCheck. cbv zeta.
  pose proof (checkMaintenanceDue_no_faults false today w Hf) as Hw.
  destruct (checkMaintenanceDue false today w) as [r w1].
  simpl in Hcheck, Hw. subst r w1.
  destruct batch as [|e batch].
  { cbn [response requests world]. repeat split; done. }
  rewrite sendPromises_settled by done.
  rewrite promises_settled, (promiseAll_all_sent channel recipientEmails Hall).
  cbn [requests response world]. rewrite requestsOf_settled.
  destruct (updateLastSent_no_faults (e :: batch) (sleep elapsed w) Hf)
    as (Ht & Hm & _ & _).
  done.
Qed.

End TriggerFacts.

(** ** What the triggers dispatch *)

Section TriggerClaims.
Import Rules Spec Shape Sample Firestore Functions.

Implicit Types (w : World) (channel : string -> FetchOutcome) (e : BatchEntry)
  (truck : Truck) (k : AlertType).

(** C8.  The HTTP trigger called with the test flag ([test=true] in the
    query or [test: true] in the body) dispatches the batch of the check run
    in test mode over the store: its answer, its requests and the documents it
    stamps are those of that batch.  In that batch the batch gate is bypassed:
    every stored truck that has an alert or is out of service is in it,
    whenever it was last alerted.  The clearance gate is applied as in a
    normal run: the alerts of an entry are those the rules give for its
    truck, so a kind cleared less than seven days ago has no alert in it; and
    the batch of a normal run over the same store is this batch without the
    trucks the batch gate holds back. *)
Theorem test_mode_bypass req key channel today elapsed w batch :
  isOptions req = false ->
  queryTest req = Some "true" \/ bodyTestIsTrue req = true ->
  fst (checkMaintenanceDue true today w) = Ok batch ->
  let out := sendMaintenanceAlert req key channel today elapsed w in
  (key <> "" -> allDelivered channel -> faults w = [] ->
     response out = Some (answerFor channel batch)
     /\ requests out = requestsFor channel batch
     /\ (forall docId, trucks (world out) !! docId
                       = stamped (batchIds batch) (clock w + elapsed) (trucks w) docId))
  /\ (batch = [] <-> response out = Some (NoMaintenanceDue 0))
  /\ (forall docId truck alerts,
        trucks w !! docId = Some truck ->
        alertsAt (clock w) (today (id truck) inspection) (today (id truck) oemsInspection)
          truck = Ok alerts ->
        alerts <> [] \/ status truck = out_of_service ->
        mkEntry truck alerts (existsb setsHasOverdue alerts) ∈ batch)
  /\ (forall e,
        e ∈ batch ->
        (exists docId, trucks w !! docId = Some (entryTruck e))
        /\ alertsAt (clock w) (today (id (entryTruck e)) inspection)
             (today (id (entryTruck e)) oemsInspection) (entryTruck e) = Ok (alerts e)
        /\ forall k cleared,
             clearedAt k (entryTruck e) = Some cleared ->
             clock w - cleared < sevenDays ->
             alertFor k (alerts e) = None)
  /\ (forall batch0,
        fst (checkMaintenanceDue false today w) = Ok batch0 ->
        forall e,
          e ∈ batch0 <->
          e ∈ batch /\ skipsTruck false (clock w - sevenDays) (entryTruck e) = false).
Proof.
  intros Hopt Hflag Hcheck out.
  assert (Htest : testModeOf req = true).
  { unfold testModeOf. destruct Hflag as [Hq|Hb].
    - by rewrite bool_decide_eq_true_2.
    - rewrite Hb. apply orb_true_r. }
  destruct (checkMaintenanceDue_stored true today w batch Hcheck) as [Hmem Heach].
  split; [|split; [|split; [|split]]].
  - intros Hk Hall Hf.
    destruct (sendMaintenanceAlert_delivered req key channel today elapsed w batch)
      as (Hr & Hq & Hs & _); try done. by rewrite Htest.
  - subst out. unfold sendMaintenanceAlert. rewrite Hopt, Htest. cbv zeta.
    destruct (checkMaintenanceDue true today w) as [r w1]. simpl in Hcheck. subst r.
    destruct batch as [|e batch]; [done|].
    split; [done|]. destruct (promiseAll _); done.
  - intros docId truck alerts Hin Ha Hshow.
    apply Hmem. exists docId, truck. split; [done|].
    rewrite (checkTruck_not_skipped true _ _ _ _ alerts) by done.
    destruct Hshow as [Hne|Hst].
    + by destruct alerts.
    + by rewrite (bool_decide_eq_true_2 _ Hst), orb_true_r.
  - intros e (docId & truck & Hin & Hc)%Hmem.
    apply checkTruck_entry in Hc as (<- & Ha & _).
    split; [by exists docId|]. split; [done|].
    intros k cleared Hcl Hlt.
    exact (proj2 (clearance_gate_closed _ _ _ _ k cleared Hcl Hlt) _ Ha).
  - intros batch0 Hcheck0 e.
    destruct (checkMaintenanceDue_stored false today w batch0 Hcheck0) as [Hmem0 _].
    rewrite Hmem0, Hmem. split.
    + intros (docId & truck & Hin & Hc).
      pose proof (checkTruck_entry _ _ _ _ _ _ Hc) as (<- & _ & Hs).
      split; [|done]. exists docId, (entryTruck e). split; [done|].
      by rewrite checkTruck_modes.
    + intros [(docId & truck & Hin & Hc) Hs].
      pose proof (checkTruck_entry _ _ _ _ _ _ Hc) as (Heq & _ & _). subst truck.
      exists docId, (entryTruck e). split; [done|].
      by rewrite <- checkTruck_modes.
Qed.

Lemma test_mode_bypass_witness :
  response (sendMaintenanceAlert (mkRequest false (Some "true") false) "key" delivers
              (sameInstant day) 1500 (worldOf [alertedAt0] day []))
  = Some (EmailsSent 1 5 recipientEmails
            (map (fun r => messageIdOf (delivers r)) recipientEmails) recipientEmails [])
  /\ response (sendMaintenanceAlert (mkRequest false None false) "key" delivers
                 (sameInstant day) 1500 (worldOf [alertedAt0] day []))
     = Some (NoMaintenanceDue 0)
  /\ alertFor inspection [mkAlert oilChange overdue (OverdueBy 1000 100000 (Some 0) 105000)]
     = None.
Proof.
  destruct (test_mode_bypass (mkRequest false (Some "true") false) "key" delivers
              (sameInstant day) 1500 (worldOf [alertedAt0] day [])
              [mkEntry alertedAt0
                 [mkAlert oilChange overdue (OverdueBy 1000 100000 (Some 0) 105000)] true])
    as (Hsent & _ & _ & Hgate & _).
  - reflexivity.
  - by left.
  - by vm_compute.
  - split; [|split; [by vm_compute|]].
    + apply Hsent; [done | by intros r _ | reflexivity].
    + destruct (Hgate (mkEntry alertedAt0
                         [mkAlert oilChange overdue (OverdueBy 1000 100000 (Some 0) 105000)]
                         true)) as (_ & _ & Hk); [by left|].
      apply (Hk inspection 0); [reflexivity|by vm_compute].
Defined.

(** C9.  A stored truck that is out of service, on a store whose check
    succeeds.  If the batch gate lets it through, it is in the batch the
    trigger dispatches, whatever its [alertsCleared]; when its evaluation
    yields no alert its entry has an empty alert list, and its section of the
    digest carries the out-of-service banner.  The trigger then answers for a
    batch that is not empty, makes its five requests and stamps the document
    of the truck; the scheduled trigger does the same.  If the batch gate
    skips the truck, the batch has no entry for it.  The batch gate does not
    read [alertsCleared]: it skips a truck exactly when the run is not in
    test mode and [lastMaintenanceAlertSent] is less than seven days old. *)
Theorem out_of_service_inclusion req key channel today elapsed w docId truck batch :
  isOptions req = false ->
  trucks w !! docId = Some truck ->
  status truck = out_of_service ->
  fst (checkMaintenanceDue (testModeOf req) today w) = Ok batch ->
  let out := sendMaintenanceAlert req key channel today elapsed w in
  let daily := dailyMaintenanceCheck key channel today elapsed w in
  let skipped := skipsTruck (testModeOf req) (clock w - sevenDays) truck in
  (skipped = false ->
     (exists e, e ∈ batch /\ entryTruck e = truck)
     /\ (alertsAt (clock w) (today (id truck) inspection) (today (id truck) oemsInspection)
           truck = Ok [] ->
         mkEntry truck [] false ∈ batch
         /\ generateTruckMaintenanceHtml truck []
            ∈ sections (createMaintenanceEmailHTML batch)
         /\ is_Some (outOfServiceBanner (generateTruckMaintenanceHtml truck [])))
     /\ (key <> "" -> allDelivered channel -> faults w = [] ->
         response out
         = Some (EmailsSent (length batch) 5 recipientEmails
                   (map (fun r => messageIdOf (channel r)) recipientEmails)
                   recipientEmails [])
         /\ (0 < length batch)%nat
         /\ requests out = map (fun r => (r, channel r)) recipientEmails
         /\ (id truck = docId ->
             trucks (world out) !! docId
             = Some (setLastMaintenanceAlertSent (Some (clock w + elapsed)) truck))
         /\ (testModeOf req = false ->
             requests daily = map (fun r => (r, channel r)) recipientEmails
             /\ (id truck = docId ->
                 trucks (world daily) !! docId
                 = Some (setLastMaintenanceAlertSent (Some (clock w + elapsed)) truck)))))
  /\ (skipped = true -> forall e, e ∈ batch -> entryTruck e <> truck)
  /\ (forall m,
        skipsTruck (testModeOf req) (clock w - sevenDays) (setAlertsCleared m truck)
        = skipped)
  /\ (skipped = true <->
      testModeOf req = false
      /\ exists lastAlertDate,
           lastMaintenanceAlertSent truck = Some lastAlertDate
           /\ clock w - sevenDays < lastAlertDate).
Proof.
  intros Hopt Hin Hst Hcheck out daily skipped.
  destruct (checkMaintenanceDue_stored _ today w batch Hcheck) as [Hmem Heach].
  split; [|split; [|split]]; [| | |apply skipsTruck_true_iff].
  - intros Hs.
    assert (Hentry : exists e, e ∈ batch /\ entryTruck e = truck).
    { destruct (Heach docId truck Hin) as (o & Hc & Ho).
      unfold checkTruck in Hc. fold skipped in Hc. rewrite Hs in Hc.
      destruct (alertsAt _ _ _ truck) as [al|]; simpl in Hc; [|done].
      rewrite (bool_decide_eq_true_2 _ Hst), orb_true_r in Hc.
      injection Hc as <-. eexists. split; [by apply Ho|done]. }
    split; [exact Hentry|]. split.
    + intros Ha.
      assert (He : mkEntry truck [] false ∈ batch).
      { apply Hmem. exists docId, truck. split; [done|].
        rewrite (checkTruck_not_skipped _ _ _ _ _ [] Hs Ha). simpl.
        by rewrite bool_decide_eq_true_2. }
      split; [done|]. split.
      * unfold createMaintenanceEmailHTML. simpl.
        apply list_elem_of_fmap. by exists (mkEntry truck [] false).
      * unfold generateTruckMaintenanceHtml. simpl. rewrite Hst. by eexists.
    + intros Hk Hall Hf.
      destruct Hentry as (e & He & Hte).
      assert (Hid : id truck = docId -> docId ∈ batchIds batch).
      { intros <-. unfold batchIds. apply list_elem_of_fmap. exists e. by rewrite Hte. }
      destruct (sendMaintenanceAlert_delivered req key channel today elapsed w batch)
        as (Hr & Hq & Hstamp & _); try done.
      fold out in Hr, Hq, Hstamp.
      destruct batch as [|e0 batch]; [by apply elem_of_nil in He|].
      split; [exact Hr|]. split; [simpl; lia|]. split; [exact Hq|]. split.
      * intros Hd. rewrite Hstamp. unfold stamped.
        rewrite decide_True by auto. by rewrite Hin.
      * intros Hnormal. rewrite Hnormal in Hcheck.
        destruct (dailyMaintenanceCheck_delivered key channel today elapsed w (e0 :: batch))
          as (_ & Hq' & Hstamp' & _); try done.
        fold daily in Hq', Hstamp'. split; [exact Hq'|].
        intros Hd. rewrite Hstamp'. unfold stamped.
        rewrite decide_True by auto. by rewrite Hin.
  - intros Hs e He Heq.
    apply Hmem in He as (d & t & _ & Hc).
    pose proof (checkTruck_entry _ _ _ _ _ _ Hc) as (Hte & _ & Hns).
    rewrite Heq in Hte. subst t. unfold skipped in Hs. congruence.
  - intros m. reflexivity.
Qed.

Lemma out_of_service_inclusion_witness :
  mkEntry parked [] false ∈ [mkEntry parked [] false]
  /\ is_Some (outOfServiceBanner (generateTruckMaintenanceHtml parked []))
  /\ requests (sendMaintenanceAlert (mkRequest false None false) "key" delivers
                 (sameInstant day) 1500 (worldOf [parked] day []))
     = map (fun r => (r, delivers r)) recipientEmails.
Proof.
  destruct (out_of_service_inclusion (mkRequest false None false) "key" delivers
              (sameInstant day) 1500 (worldOf [parked] day []) "truck-52" parked
              [mkEntry parked [] false])
    as (Hin & _ & _).
  - reflexivity.
  - by vm_compute.
  - reflexivity.
  - by vm_compute.
  - destruct (Hin eq_refl) as (_ & Hzero & Hsent).
    destruct (Hzero eq_refl) as (H1 & _ & H3).
    destruct Hsent as (_ & _ & Hq & _); [done | by intros r _ | reflexivity |].
    split; [exact H1|]. split; [exact H3 | exact Hq].
Defined.

End TriggerClaims.

(** * Further properties *)

(** ** Shape of the alert list *)

Section AlertListFacts.
Import Rules Spec Shape Sample Functions.

Implicit Types (truck : Truck) (k : AlertType) (a : AlertInfo).

(** Every entry of the result was pushed by the block of its kind. *)
Lemma alertsAt_elem_of now ti to truck alerts a :
  alertsAt now ti to truck = Ok alerts -> a ∈ alerts ->
  blockOf (type a) now ti to truck = Ok (Some a).
Proof.
  intros Ha Hin.
  pose proof Ha as (oil & brake & tire & Hoil & Hbrake & Htire & ->)%alertsAt_blocks.
  assert (Hcases : Ok (Some a) = blockOf oilChange now ti to truck
                   \/ Ok (Some a) = blockOf inspection now ti to truck
                   \/ Ok (Some a) = blockOf oemsInspection now ti to truck
                   \/ Ok (Some a) = blockOf brakeChange now ti to truck
                   \/ Ok (Some a) = blockOf tireChange now ti to truck).
  { rewrite Hoil, Hbrake, Htire. simpl. unfold pushed in Hin.
    apply list_elem_of_omap in Hin as (o & Ho & ->).
    repeat (apply elem_of_cons in Ho as [->|Ho]); [tauto..|by apply elem_of_nil in Ho]. }
  destruct Hcases as [H|[H|[H|[H|H]]]]; symmetry in H;
    pose proof (blockOf_type _ _ _ _ _ _ H) as ->; exact H.
Qed.

Lemma mileageBlock_wellFormed k truck now ti to a :
  mileageBased k = true ->
  blockOf k now ti to truck = Ok (Some a) -> wellFormed truck a.
Proof.
  intros Hk. rewrite blockOf_mileage by done. unfold mileageBlock, wellFormed.
  destruct (lastServiceOdometer k truck) as [last|]; simpl.
  - assert (0 < earlyWarningMargin k) by (destruct k; simpl in *; done || lia).
    destruct (isAlertClearedRecently truck (now - sevenDays) k); simpl;
      rewrite ?andb_false_r, ?andb_true_r; [done|].
    destruct (last + interval k <=? mileage truck) eqn:E1.
    + intros [= <-]; simpl. repeat split; try done; lia.
    + destruct (last + interval k - earlyWarningMargin k <=? mileage truck) eqn:E2; [|done].
      intros [= <-]; simpl. repeat split; try done; lia.
  - repeat case_match; done.
Qed.

Lemma expiryBlock_wellFormed k truck now ti to a :
  mileageBased k = false ->
  blockOf k now ti to truck = Ok (Some a) -> wellFormed truck a.
Proof.
  intros Hk. rewrite blockOf_document by done. unfold expiryBlock, wellFormed.
  destruct (expiryDate k truck) as [e|] eqn:He; [|done].
  destruct (negb (isAlertClearedRecently truck (now - sevenDays) k)); [|done].
  destruct (ceilDays (e - todayOf k ti to) <=? 0) eqn:E1.
  { intros [= <-]. simpl. by split. }
  destruct (ceilDays (e - todayOf k ti to) <=? 30) eqn:E2; [|done].
  intros [= <-]. simpl. repeat split; try done; lia.
Qed.

(** X1.  The alerts come in the fixed order oil, WV inspection, OEMS
    inspection, brakes, tires, with at most one entry per kind. *)
Theorem alerts_in_kind_order now ti to truck alerts :
  alertsAt now ti to truck = Ok alerts ->
  map type alerts `sublist_of` kindOrder
  /\ NoDup (map type alerts)
  /\ (length alerts <= 5)%nat.
Proof.
  intros Ha.
  assert (Hsub : map type alerts `sublist_of` kindOrder).
  { pose proof Ha as (oil & brake & tire & Hoil & Hbrake & Htire & ->)%alertsAt_blocks.
    pose proof (blockOf_type inspection now ti to truck) as Hwv.
    pose proof (blockOf_type oemsInspection now ti to truck) as Hoems.
    simpl in Hwv, Hoems.
    destruct (inspectionCheck truck (now - sevenDays) ti) as [wv|];
      [specialize (Hwv wv eq_refl)|clear Hwv];
    (destruct (oemsInspectionCheck truck (now - sevenDays) to) as [oems|];
      [specialize (Hoems oems eq_refl)|clear Hoems]);
    (destruct oil as [oil|];
      [pose proof (blockOf_type _ _ _ _ _ _ Hoil) as Toil|]);
    (destruct brake as [brake|];
      [pose proof (blockOf_type _ _ _ _ _ _ Hbrake) as Tbrake|]);
    (destruct tire as [tire|];
      [pose proof (blockOf_type _ _ _ _ _ _ Htire) as Ttire|]);
    unfold pushed, kindOrder; simpl;
      rewrite ?Hwv, ?Hoems, ?Toil, ?Tbrake, ?Ttire;
      repeat first [ apply sublist_nil_l | apply sublist_skip
                   | apply sublist_cons ]. }
  split; [done|]. split.
  - eapply sublist_NoDup; [|exact Hsub]. unfold kindOrder.
    apply (bool_decide_unpack _). by vm_compute.
  - apply sublist_length in Hsub. by rewrite length_map in Hsub.
Qed.

Lemma alerts_in_kind_order_witness :
  map type
    [mkAlert oilChange overdue (OverdueBy 1000 100000 (Some 0) 105000)]
    `sublist_of` kindOrder.
Proof.
  destruct (alerts_in_kind_order day day day oilOverdue
              [mkAlert oilChange overdue (OverdueBy 1000 100000 (Some 0) 105000)])
    as (H & _ & _); [reflexivity|exact H].
Defined.

(** X2.  Every entry is well formed: an overdue mileage entry quotes a
    non-negative overdue mileage, a due-soon one a positive number of miles
    within the margin of its kind (500, 2500, 4000), an expiring document a
    number of days from 1 to 30; severity and message always go together, and
    the figures quoted are those of the truck. *)
Theorem alerts_well_formed now ti to truck alerts a :
  alertsAt now ti to truck = Ok alerts -> a ∈ alerts -> wellFormed truck a.
Proof.
  intros Ha Hin. pose proof (alertsAt_elem_of _ _ _ _ _ _ Ha Hin) as Hb.
  destruct (mileageBased (type a)) eqn:Hk.
  - by eapply mileageBlock_wellFormed.
  - by eapply expiryBlock_wellFormed.
Qed.

Lemma alerts_well_formed_witness :
  wellFormed oilOverdue (mkAlert oilChange overdue (OverdueBy 1000 100000 (Some 0) 105000)).
Proof.
  apply (alerts_well_formed day day day oilOverdue
           [mkAlert oilChange overdue (OverdueBy 1000 100000 (Some 0) 105000)]).
  - reflexivity.
  - left.
Defined.

End AlertListFacts.

(** ** Dispatch and suppression *)

Section DispatchMore.
Import Rules Spec Shape Sample Firestore Functions.

Implicit Types (w : World) (channel : string -> FetchOutcome) (e : BatchEntry).

(** X3.  A dispatch that goes through: with the API key set, the store
    answering and the channel delivering to all five recipients, the HTTP
    trigger answers with the five addresses as accepted, nobody rejected and
    the message ids in the order of the list; one request was made per
    recipient; and afterwards [lastMaintenanceAlertSent] is, on the documents
    of the batch, the instant at which the sends were through, every other
    document being as it was. *)
Theorem dispatch_delivered req key channel today elapsed w e batch :
  isOptions req = false ->
  key <> "" ->
  allDelivered channel ->
  faults w = [] ->
  fst (checkMaintenanceDue (testModeOf req) today w) = Ok (e :: batch) ->
  let out := sendMaintenanceAlert req key channel today elapsed w in
  response out
  = Some (EmailsSent (length (e :: batch)) 5 recipientEmails
            (map (fun r => messageIdOf (channel r)) recipientEmails) recipientEmails [])
  /\ requests out = map (fun r => (r, channel r)) recipientEmails
  /\ (forall docId, trucks (world out) !! docId
                    = stamped (batchIds (e :: batch)) (clock w + elapsed) (trucks w) docId)
  /\ maintenance (world out) = maintenance w.
Proof.
  intros Hopt Hk Hall Hf Hcheck.
  exact (sendMaintenanceAlert_delivered req key channel today elapsed w (e :: batch)
           Hopt Hk Hall Hf Hcheck).
Qed.

Lemma dispatch_delivered_witness :
  requests (sendMaintenanceAlert (mkRequest false None false) "key" delivers
              (sameInstant 0) 1500 healthy)
  = map (fun r => (r, delivers r)) recipientEmails
  /\ trucks (world (sendMaintenanceAlert (mkRequest false None false) "key" delivers
                      (sameInstant 0) 1500 healthy)) !! "truck-52"
     = Some (setLastMaintenanceAlertSent (Some 1500) oilOverdue).
Proof.
  destruct (dispatch_delivered (mkRequest false None false) "key" delivers (sameInstant 0)
              1500 healthy
              (mkEntry oilOverdue
                 [mkAlert oilChange overdue (OverdueBy 1000 100000 (Some 0) 105000)] true)
              [])
    as (_ & H & Hs & _).
  - reflexivity.
  - done.
  - intros r _. reflexivity.
  - reflexivity.
  - vm_compute. reflexivity.
  - split; [exact H|]. rewrite Hs. by vm_compute.
Defined.

(** X4.  Two scheduled runs, on a store in which no document carries an id
    other than its own: the first run went through and stamped its batch at
    the instant its sends were through.  A later run less than seven days
    after that stamp has none of the trucks of the first batch in its batch,
    whatever their alerts; that is the case of a run exactly seven days after
    the first, whose sends took their time.  Once seven days have passed
    since the stamp, the stamp holds no truck back. *)
Theorem no_repeat_within_a_week key channel today today2 elapsed w e batch later batch2 :
  key <> "" ->
  allDelivered channel ->
  faults w = [] ->
  keyedById (trucks w) ->
  fst (checkMaintenanceDue false today w) = Ok (e :: batch) ->
  let w' := world (dailyMaintenanceCheck key channel today elapsed w) in
  let stamp := clock w + elapsed in
  fst (checkMaintenanceDue false today2 (withClock later w')) = Ok batch2 ->
  (later - stamp < sevenDays ->
   forall e2, e2 ∈ batch2 -> id (entryTruck e2) ∉ batchIds (e :: batch))
  /\ (0 < elapsed -> later = clock w + sevenDays ->
      forall e2, e2 ∈ batch2 -> id (entryTruck e2) ∉ batchIds (e :: batch))
  /\ (sevenDays <= later - stamp ->
      forall docId t, docId ∈ batchIds (e :: batch) -> trucks w' !! docId = Some t ->
      lastMaintenanceAlertSent t = Some stamp
      /\ skipsTruck false (later - sevenDays) t = false).
Proof.
  intros Hk Hall Hf Hkeyed Hcheck w' stamp Hcheck2.
  destruct (dailyMaintenanceCheck_delivered key channel today elapsed w (e :: batch)
              Hk Hall Hf Hcheck) as (_ & _ & Hstore & _).
  fold w' in Hstore.
  assert (Hsoon : later - stamp < sevenDays ->
            forall e2, e2 ∈ batch2 -> id (entryTruck e2) ∉ batchIds (e :: batch)).
  { intros Hsoon e2 He2 Hin.
    apply checkMaintenanceDue_Ok in Hcheck2. simpl in Hcheck2.
    apply (checkFleet_elem_of _ _ _ _ _ _ Hcheck2) in He2 as (truck & Hfleet & Hc).
    apply checkTruck_entry in Hc as (Hte & _ & Hskip).
    apply list_elem_of_fmap in Hfleet as ([k t] & -> & Hkt).
    apply elem_of_map_to_list in Hkt. cbn [snd] in *.
    rewrite Hstore in Hkt. unfold stamped in Hkt.
    destruct (decide (k ∈ batchIds (e :: batch))) as [Hk1|Hk1].
    + destruct (trucks w !! k) as [t0|] eqn:E0; simpl in Hkt; [|done].
      injection Hkt as Hkt. rewrite <- Hkt in Hskip.
      unfold skipsTruck in Hskip. simpl in Hskip.
      apply Z.ltb_ge in Hskip. unfold stamp in Hsoon. lia.
    + apply Hkeyed in Hkt. apply Hk1. by rewrite <- Hkt, <- Hte. }
  split; [exact Hsoon|]. split.
  - intros Hpos ->. apply Hsoon. unfold stamp. lia.
  - intros Hlate k t Hin Hkt. rewrite Hstore in Hkt. unfold stamped in Hkt.
    rewrite decide_True in Hkt by done.
    destruct (trucks w !! k) as [t0|]; simpl in Hkt; [|done].
    injection Hkt as <-. split; [done|].
    unfold skipsTruck. simpl. apply Z.ltb_ge. unfold stamp in Hlate. lia.
Qed.

Lemma no_repeat_within_a_week_witness :
  lastMaintenanceAlertSent (setLastMaintenanceAlertSent (Some 1500) oilOverdue) = Some 1500
  /\ skipsTruck false (8 * day - sevenDays)
       (setLastMaintenanceAlertSent (Some 1500) oilOverdue) = false.
Proof.
  edestruct (no_repeat_within_a_week "key" delivers (sameInstant 0)
               (sameInstant (8 * day)) 1500 healthy
               (mkEntry oilOverdue
                  [mkAlert oilChange overdue (OverdueBy 1000 100000 (Some 0) 105000)] true)
               [] (8 * day))
    as (_ & _ & H).
  - done.
  - intros r _. reflexivity.
  - reflexivity.
  - intros k t Hkt. unfold healthy, worldOf, storeOf in Hkt. simpl in Hkt.
    apply lookup_insert_Some in Hkt as [[<- <-]|[_ Hkt]]; [reflexivity|].
    by rewrite lookup_empty in Hkt.
  - vm_compute. reflexivity.
  - vm_compute. reflexivity.
  - apply (H ltac:(by vm_compute) "truck-52").
    + apply (bool_decide_unpack _). by vm_compute.
    + by vm_compute.
Defined.

(** X5.  Without an API key no request reaches the mail API, from either
    trigger and whatever the check returns: no truck document is stamped and
    no record is written; when there is a batch to send, the HTTP trigger
    answers with the error of the helper, and the scheduled trigger ends
    without an answer in every case. *)
Theorem no_key_no_mail req channel today elapsed w :
  let http := sendMaintenanceAlert req "" channel today elapsed w in
  let daily := dailyMaintenanceCheck "" channel today elapsed w in
  requests http = []
  /\ trucks (world http) = trucks w
  /\ maintenance (world http) = maintenance w
  /\ (isOptions req = false ->
      forall e batch,
        fst (checkMaintenanceDue (testModeOf req) today w) = Ok (e :: batch) ->
        response http = Some (ServerError (Error "MailerSend API key is required")))
  /\ requests daily = []
  /\ response daily = None
  /\ trucks (world daily) = trucks w
  /\ maintenance (world daily) = maintenance w.
Proof.
  cbv zeta. unfold sendMaintenanceAlert, dailyMaintenanceCheck.
  pose proof (checkMaintenanceDue_frame (testModeOf req) today w) as [Ht Hm].
  pose proof (checkMaintenanceDue_frame false today w) as [Ht' Hm'].
  destruct (checkMaintenanceDue false today w) as [[[|e' batch']|err'] w1'];
    cbn [fst snd] in Ht', Hm';
    (destruct (isOptions req);
     [|destruct (checkMaintenanceDue (testModeOf req) today w) as [[[|e batch]|err] w1];
       cbn [fst snd] in Ht, Hm]);
    cbn [requests response world sleep withClock trucks maintenance];
    repeat split; try done; by intros _ e0 batch0 [=].
Qed.

Lemma no_key_no_mail_witness :
  response (sendMaintenanceAlert (mkRequest false None false) "" delivers (sameInstant 0)
              1500 healthy)
  = Some (ServerError (Error "MailerSend API key is required")).
Proof.
  destruct (no_key_no_mail (mkRequest false None false) delivers (sameInstant 0) 1500
              healthy)
    as (_ & _ & _ & H & _).
  apply (H eq_refl
           (mkEntry oilOverdue
              [mkAlert oilChange overdue (OverdueBy 1000 100000 (Some 0) 105000)] true)
           []).
  vm_compute. reflexivity.
Defined.

(** X6.  Nothing to send, nothing done: when the check finds no truck that
    needs attention, the HTTP trigger answers 'No maintenance due' with a count
    of 0 and the scheduled trigger ends without an answer; neither makes a
    request to the mail API, and both collections are as they were. *)
Theorem no_batch_no_effect req key channel today elapsed w :
  (isOptions req = false ->
   fst (checkMaintenanceDue (testModeOf req) today w) = Ok [] ->
   let http := sendMaintenanceAlert req key channel today elapsed w in
   response http = Some (NoMaintenanceDue 0)
   /\ requests http = []
   /\ trucks (world http) = trucks w
   /\ maintenance (world http) = maintenance w)
  /\ (fst (checkMaintenanceDue false today w) = Ok [] ->
      let daily := dailyMaintenanceCheck key channel today elapsed w in
      response daily = None
      /\ requests daily = []
      /\ trucks (world daily) = trucks w
      /\ maintenance (world daily) = maintenance w).
Proof.
  unfold sendMaintenanceAlert, dailyMaintenanceCheck. split.
  - intros Hopt Hcheck. rewrite Hopt. cbv zeta.
    pose proof (checkMaintenanceDue_frame (testModeOf req) today w) as [Ht Hm].
    destruct (checkMaintenanceDue (testModeOf req) today w) as [r w1].
    cbn [fst snd] in *. subst r. done.
  - intros Hcheck. cbv zeta.
    pose proof (checkMaintenanceDue_frame false today w) as [Ht Hm].
    destruct (checkMaintenanceDue false today w) as [r w1].
    cbn [fst snd] in *. subst r. done.
Qed.

Lemma no_batch_no_effect_witness :
  response (sendMaintenanceAlert (mkRequest false None false) "key" delivers (sameInstant 0)
              1500 (worldOf [unit52] 0 []))
  = Some (NoMaintenanceDue 0)
  /\ requests (dailyMaintenanceCheck "key" delivers (sameInstant 0) 1500
                 (worldOf [unit52] 0 []))
     = [].
Proof.
  destruct (no_batch_no_effect (mkRequest false None false) "key" delivers (sameInstant 0)
              1500 (worldOf [unit52] 0 []))
    as [Hhttp Hdaily].
  destruct Hhttp as (H1 & _); [reflexivity | by vm_compute |].
  destruct Hdaily as (_ & H2 & _); [by vm_compute|].
  split; [exact H1 | exact H2].
Defined.

(** X7.  What a batch holds: its entries follow the order of the fleet,
    each is a truck of the fleet together with the alerts its evaluation gave,
    each shows something (an alert, or a truck out of service), a normal run
    holds no truck alerted less than seven days ago, and [hasOverdue] is set
    only where an overdue alert is listed. *)
Theorem batch_entries testMode now today fleet batch :
  checkFleet testMode now today fleet = Ok batch ->
  map entryTruck batch `sublist_of` fleet
  /\ forall e, e ∈ batch ->
       alertsAt now (today (id (entryTruck e)) inspection)
         (today (id (entryTruck e)) oemsInspection) (entryTruck e) = Ok (alerts e)
       /\ (alerts e <> [] \/ status (entryTruck e) = out_of_service)
       /\ (testMode = false ->
           forall lastAlertDate,
             lastMaintenanceAlertSent (entryTruck e) = Some lastAlertDate ->
             sevenDays <= now - lastAlertDate)
       /\ (hasOverdue e = true -> exists a, a ∈ alerts e /\ priority a = overdue).
Proof.
  intros Hfleet. split.
  - revert batch Hfleet. induction fleet as [|t fleet IH]; intros batch; simpl.
    + by intros [= <-].
    + destruct (checkTruck testMode now _ _ t) as [o|] eqn:Et; simpl; [|done].
      destruct (checkFleet testMode now today fleet) as [rest|]; simpl; [|done].
      intros [= <-]. specialize (IH rest eq_refl).
      destruct o as [e|]; simpl.
      * apply checkTruck_entry in Et as (-> & _). by apply sublist_skip.
      * by apply sublist_cons.
  - intros e (truck & _ & Hc)%(checkFleet_elem_of _ _ _ _ _ _ Hfleet).
    pose proof (checkTruck_entry _ _ _ _ _ _ Hc) as (Hte & Ha & Hskip).
    subst truck. split; [done|].
    rewrite (checkTruck_not_skipped _ _ _ _ _ _ Hskip Ha) in Hc.
    destruct ((0 <? length (alerts e))%nat
              || bool_decide (status (entryTruck e) = out_of_service)) eqn:Eshow;
      [|done].
    injection Hc as Hc. split; [|split].
    + apply orb_true_iff in Eshow as [Hlen|Hoos].
      * left. intros Hnil. rewrite Hnil in Hlen. done.
      * right. by apply bool_decide_eq_true in Hoos.
    + intros -> l Hl. unfold skipsTruck in Hskip. rewrite Hl in Hskip. simpl in Hskip.
      apply Z.ltb_ge in Hskip. lia.
    + intros Hover. rewrite <- Hc in Hover. simpl in Hover.
      apply existsb_exists in Hover as (a & Hin & Hset).
      exists a. split; [by apply list_elem_of_In|].
      unfold setsHasOverdue in Hset. by destruct (priority a).
Qed.

Lemma batch_entries_witness :
  map entryTruck [mkEntry parked [] false] `sublist_of` [unit52; parked].
Proof.
  destruct (batch_entries false (1 * day) (sameInstant (1 * day)) [unit52; parked]
              [mkEntry parked [] false]) as [H _]; [reflexivity|exact H].
Defined.

(** X8.  The digest of a check has one section per truck of the batch, in
    order, its headline count is the number of sections, and no section is
    empty: each has the out-of-service banner or at least one alert. *)
Theorem digest_sections testMode now today fleet batch :
  checkFleet testMode now today fleet = Ok batch ->
  let digest := createMaintenanceEmailHTML batch in
  trucksRequiringAttention digest = length (sections digest)
  /\ map sectionTruck (sections digest) = map entryTruck batch
  /\ (forall s, s ∈ sections digest ->
        (is_Some (outOfServiceBanner s) <-> status (sectionTruck s) = out_of_service)
        /\ (is_Some (outOfServiceBanner s) \/ paragraphs s <> [])).
Proof.
  intros Hfleet. cbv zeta. unfold createMaintenanceEmailHTML. simpl.
  split; [by rewrite length_map|]. split.
  - rewrite map_map. by apply map_ext.
  - intros s (e & -> & He)%list_elem_of_fmap.
    assert (Hbanner : is_Some (outOfServiceBanner
                                 (generateTruckMaintenanceHtml (entryTruck e) (alerts e)))
                      <-> status (entryTruck e) = out_of_service).
    { unfold generateTruckMaintenanceHtml. simpl.
      destruct (status (entryTruck e)); split; done. }
    split; [exact Hbanner|].
    apply (checkFleet_elem_of _ _ _ _ _ _ Hfleet) in He as (truck & _ & Hc).
    pose proof (checkTruck_entry _ _ _ _ _ _ Hc) as (Hte & Ha & Hskip).
    subst truck. rewrite (checkTruck_not_skipped _ _ _ _ _ _ Hskip Ha) in Hc.
    destruct ((0 <? length (alerts e))%nat
              || bool_decide (status (entryTruck e) = out_of_service)) eqn:Eshow;
      [|done].
    apply orb_true_iff in Eshow as [Hlen|Hoos].
    + right. simpl. intros Hnil. rewrite Hnil in Hlen. done.
    + left. apply Hbanner. by apply bool_decide_eq_true in Hoos.
Qed.

Lemma digest_sections_witness :
  map sectionTruck (sections (createMaintenanceEmailHTML [mkEntry parked [] false]))
  = map entryTruck [mkEntry parked [] false].
Proof.
  destruct (digest_sections false (1 * day) (sameInstant (1 * day)) [unit52; parked]
              [mkEntry parked [] false]) as (_ & H & _); [reflexivity|exact H].
Defined.

End DispatchMore.

(** ** More on the clearing workflow *)

Section ClearanceMore.
Import Rules Spec Shape Sample Firestore Clearance.

Implicit Types (w : World) (truck : Truck) (k : AlertType).

(** The retry loop, case by case on the fate of its attempts. *)
Lemma createRecord_cases mk w :
  (exists e1 e2 e3 rest,
     faults w = Some e1 :: Some e2 :: Some e3 :: rest
     /\ createRecord maxRetries 0 mk w
        = (Throw (Error ("Failed to create maintenance record for alert clearing: " +:+ e3)),
           mkWorld (trucks w) (maintenance w) (clock w + 1000 + 2000) rest))
  \/ (exists waited rest,
        (waited = 0 \/ waited = 1000 \/ waited = 3000)
        /\ createRecord maxRetries 0 mk w
           = (Ok tt,
              mkWorld (trucks w) (maintenance w ++ [mk (clock w + waited)])
                (clock w + waited) rest)).
Proof.
  destruct w as [ts ms c fs].
  destruct fs as [|[e1|] fs1].
  - right. exists 0, []. split; [by left|].
    unfold maxRetries, createRecord, addDoc, call. simpl. by rewrite Z.add_0_r.
  - destruct fs1 as [|[e2|] fs2].
    + right. exists 1000, []. split; [tauto|].
      unfold maxRetries, createRecord, addDoc, call, sleep, withFaults, withClock,
        withMaintenance. simpl.
      change (1000 * Z.of_nat 1) with 1000. done.
    + destruct fs2 as [|[e3|] fs3].
      * right. exists 3000, []. split; [tauto|].
        unfold maxRetries, createRecord, addDoc, call, sleep, withFaults, withClock,
          withMaintenance. simpl.
        change (1000 * Z.of_nat 1) with 1000. change (1000 * Z.of_nat 2) with 2000.
        by replace (c + 1000 + 2000) with (c + 3000) by lia.
      * left. exists e1, e2, e3, fs3. split; [done|].
        by apply (createRecord_all_fail _ _ e1 e2 e3 fs3).
      * right. exists 3000, fs3. split; [tauto|].
        unfold maxRetries, createRecord, addDoc, call, sleep, withFaults, withClock,
          withMaintenance. simpl.
        change (1000 * Z.of_nat 1) with 1000. change (1000 * Z.of_nat 2) with 2000.
        by replace (c + 1000 + 2000) with (c + 3000) by lia.
    + right. exists 1000, fs2. split; [tauto|].
      unfold maxRetries, createRecord, addDoc, call, sleep, withFaults, withClock,
        withMaintenance. simpl.
      change (1000 * Z.of_nat 1) with 1000. done.
  - right. exists 0, fs1. split; [by left|].
    unfold maxRetries, createRecord, addDoc, call. simpl. by rewrite Z.add_0_r.
Qed.

(** X9.  One record per clearance: a call that succeeds has cleared the
    alert and added exactly one record, which names the truck, carries the
    justification after its fixed preamble, the odometer of the truck and the
    author, and is dated at most three seconds (the two back-offs) after the
    clearance; a call that fails has added none. *)
Theorem one_record_per_clearance truckId alertType notes userId w :
  let r := fst (clearMaintenanceAlert truckId alertType notes userId w) in
  let w' := snd (clearMaintenanceAlert truckId alertType notes userId w) in
  (r = Ok tt ->
   exists truckData waited,
     trucks w !! truckId = Some truckData
     /\ (waited = 0 \/ waited = 1000 \/ waited = 3000)
     /\ maintenance w'
        = maintenance w
          ++ [dismissalRecord truckId alertType notes userId truckData (clock w + waited)]
     /\ trucks w' !! truckId
        = Some (clearedDoc alertType (clock w) (author userId) truckData))
  /\ (isOk r = false -> maintenance w' = maintenance w).
Proof.
  cbv zeta. unfold clearMaintenanceAlert, getDoc, updateDoc.
  pose proof (call_frame w) as (Ht & Hm & Hc).
  destruct (call w) as [[m1|] w1]; cbn [fst snd] in *; [done|].
  destruct (trucks w1 !! truckId) as [truckData|] eqn:Et; cbn [fst snd]; [|done].
  pose proof (call_frame w1) as (Ht1 & Hm1 & Hc1).
  destruct (call w1) as [[m2|] w2]; cbn [fst snd] in *; [split; [done|congruence]|].
  rewrite Ht1, Et.
  set (w3 := withTrucks _ w2).
  assert (Hw3 : maintenance w3 = maintenance w /\ clock w3 = clock w
                /\ trucks w3 = <[truckId := clearedDoc alertType (clock w) (author userId)
                                             truckData]> (trucks w)).
  { unfold w3, withTrucks, clearedDoc. simpl. repeat split; congruence. }
  destruct Hw3 as (Hm3 & Hc3 & Ht3).
  destruct (createRecord_cases
              (dismissalRecord truckId alertType notes userId truckData) w3)
    as [(e1 & e2 & e3 & rest & _ & ->)|(waited & rest & Hwait & ->)]; cbn [fst snd].
  - split; [done|]. intros _. cbn [maintenance]. congruence.
  - split; [|done]. intros _. exists truckData, waited.
    split; [congruence|]. split; [done|]. cbn [maintenance trucks].
    rewrite Hm3, Hc3, Ht3. split; [done|]. by rewrite lookup_insert_eq.
Qed.

Lemma one_record_per_clearance_witness :
  maintenance (snd (clearMaintenanceAlert "truck-52" "oilChange" (JS.lit "ok") (Some "mech")
                      recordsUnavailable))
  = maintenance recordsUnavailable.
Proof.
  destruct (one_record_per_clearance "truck-52" "oilChange" (JS.lit "ok") (Some "mech")
              recordsUnavailable) as [_ H].
  apply H. vm_compute. reflexivity.
Defined.

(** X10.  A truck that is not in the store: the call throws and writes
    nothing, neither on a truck nor in the records; when the store answers, the
    error is 'Truck not found'. *)
Theorem unknown_truck_untouched truckId alertType notes userId w :
  trucks w !! truckId = None ->
  let r := fst (clearMaintenanceAlert truckId alertType notes userId w) in
  let w' := snd (clearMaintenanceAlert truckId alertType notes userId w) in
  isOk r = false /\ trucks w' = trucks w /\ maintenance w' = maintenance w
  /\ clock w' = clock w
  /\ (head (faults w) = None \/ head (faults w) = Some None ->
      r = Throw (Error "Truck not found")).
Proof.
  intros Hnone. cbv zeta. unfold clearMaintenanceAlert, getDoc, call.
  destruct w as [ts ms c [|[m1|] fs]]; simpl in *.
  - rewrite Hnone. repeat split; done.
  - repeat split; try done. by intros [|].
  - rewrite Hnone. repeat split; done.
Qed.

Lemma unknown_truck_untouched_witness :
  fst (clearMaintenanceAlert "truck-99" "oilChange" (JS.lit "ok") None healthy)
  = Throw (Error "Truck not found").
Proof.
  destruct (unknown_truck_untouched "truck-99" "oilChange" (JS.lit "ok") None healthy)
    as (_ & _ & _ & _ & H); [reflexivity|].
  apply H. by left.
Defined.

(** X11.  Clearing again: two calls that succeed for the same truck and
    kind leave the cleared instant, [updatedAt] and [updatedBy] of the second,
    whatever the first wrote, and two records, in the order of the calls. *)
Theorem clear_again_resets truckId alertType notes1 notes2 user1 user2 w later truckData :
  faults w = [] ->
  trucks w !! truckId = Some truckData ->
  let w1 := snd (clearMaintenanceAlert truckId alertType notes1 user1 w) in
  let w2 := snd (clearMaintenanceAlert truckId alertType notes2 user2 (withClock later w1)) in
  fst (clearMaintenanceAlert truckId alertType notes1 user1 w) = Ok tt
  /\ fst (clearMaintenanceAlert truckId alertType notes2 user2 (withClock later w1)) = Ok tt
  /\ trucks w2 !! truckId
     = Some (clearedDoc alertType later (author user2) truckData)
  /\ (forall docId, docId <> truckId -> trucks w2 !! docId = trucks w !! docId)
  /\ maintenance w2
     = maintenance w
       ++ [dismissalRecord truckId alertType notes1 user1 truckData (clock w);
           dismissalRecord truckId alertType notes2 user2 truckData later].
Proof.
  intros Hf Ht. cbv zeta.
  rewrite (clearMaintenanceAlert_healthy _ _ _ _ w truckData Hf Ht). cbn [fst snd].
  set (w1 := mkWorld _ _ _ _).
  rewrite (clearMaintenanceAlert_healthy truckId alertType notes2 user2 (withClock later w1)
             (clearedDoc alertType (clock w) (author user1) truckData));
    [|done|by apply lookup_insert_eq].
  cbn [fst snd trucks maintenance clock withClock w1].
  split; [done|]. split; [done|]. split; [|split].
  - by rewrite lookup_insert_eq, clearedDoc_again.
  - intros docId Hne. by rewrite !lookup_insert_ne.
  - rewrite <- app_assoc. simpl. do 3 f_equal.
Qed.

Lemma clear_again_resets_witness :
  trucks (snd (clearMaintenanceAlert "truck-52" "oilChange" (JS.lit "b") (Some "mech")
                 (withClock day
                    (snd (clearMaintenanceAlert "truck-52" "oilChange" (JS.lit "a")
                            (Some "lead") healthy)))))
    !! "truck-52"
  = Some (clearedDoc "oilChange" day "mech" oilOverdue).
Proof.
  destruct (clear_again_resets "truck-52" "oilChange" (JS.lit "a") (JS.lit "b")
              (Some "lead") (Some "mech") healthy day oilOverdue)
    as (_ & _ & H & _); [reflexivity|reflexivity|exact H].
Defined.

(** *** Trimmed notes *)

Lemma trimStart_suffix (s : JS.text) :
  exists blank, s = blank ++ trimStart s /\ forallb isWhiteSpace blank = true.
Proof.
  induction s as [|c s (blank & Hs & Hb)]; simpl.
  - by exists [].
  - destruct (isWhiteSpace c) eqn:E.
    + exists (c :: blank). simpl. rewrite E, Hb. split; [by f_equal|done].
    + by exists [].
Qed.

Lemma head_rev_last (s : JS.text) : head (rev s) = last s.
Proof.
  induction s as [|c s IH]; [done|]. simpl.
  rewrite head_app, IH, last_cons. by destruct (last s).
Qed.

Lemma last_rev_head (s : JS.text) : last (rev s) = head s.
Proof. destruct s as [|c s]; [done|]. simpl. by rewrite last_snoc. Qed.

Lemma trimStart_last (s : JS.text) c :
  last (trimStart s) = Some c -> last s = Some c.
Proof.
  destruct (trimStart_suffix s) as (blank & Hs & _). intros Hl.
  rewrite Hs, last_app, Hl. done.
Qed.

(** What [trim] returns neither starts nor ends with white space. *)
Lemma trim_ends (s : JS.text) c :
  (head (JS.trim s) = Some c -> isWhiteSpace c = false)
  /\ (last (JS.trim s) = Some c -> isWhiteSpace c = false).
Proof.
  unfold JS.trim, JS.trimEnd. split.
  - rewrite head_rev_last. intros Hl%trimStart_last.
    rewrite last_rev_head in Hl.
    destruct (trimStart s) as [|c' r] eqn:E; [done|]. simpl in Hl. injection Hl as <-.
    by eapply trimStart_head.
  - rewrite last_rev_head.
    destruct (trimStart (rev (trimStart s))) as [|c' r] eqn:E; [done|]. simpl.
    intros [= <-]. by eapply trimStart_head.
Qed.

(** X12.  From the modal to the store: with the store answering, a
    justification that is not blank clears the alert of the truck on display,
    the modal closes, and the record filed carries the justification with the
    white space at its ends removed, so that the assessment on file neither
    starts nor ends with white space and is not empty. *)
Theorem modal_files_trimmed_notes truck k notes uid w truckData :
  forallb isWhiteSpace notes = false ->
  faults w = [] ->
  trucks w !! id truck = Some truckData ->
  handleClearAlert truck k notes (dashboardHandleClearAlert uid) w
  = (Closed,
     mkWorld (<[id truck := clearedDoc (alertKey k) (clock w) (author uid) truckData]>
                (trucks w))
       (maintenance w
        ++ [dismissalRecord (id truck) (alertKey k) (JS.trim notes) uid truckData (clock w)])
       (clock w) [])
  /\ JS.trim notes <> []
  /\ (forall c, head (JS.trim notes) = Some c -> isWhiteSpace c = false)
  /\ (forall c, last (JS.trim notes) = Some c -> isWhiteSpace c = false).
Proof.
  intros Hnb Hf Ht.
  assert (Htr : JS.truthy (JS.trim notes) = true).
  { destruct (JS.truthy (JS.trim notes)) eqn:E; [done|].
    apply trim_blank in E. congruence. }
  split; [|split; [|split]].
  - unfold handleClearAlert, dashboardHandleClearAlert. rewrite Htr. simpl.
    by rewrite (clearMaintenanceAlert_healthy _ _ _ _ w truckData Hf Ht).
  - intros Hnil. by rewrite Hnil in Htr.
  - intros c. apply trim_ends.
  - intros c. apply trim_ends.
Qed.

Lemma modal_files_trimmed_notes_witness :
  JS.trim (JS.lit "  pads at 8 mm ") = JS.lit "pads at 8 mm"
  /\ fst (handleClearAlert oilOverdue oilChange (JS.lit "  pads at 8 mm ")
            (dashboardHandleClearAlert (Some "mech")) healthy) = Closed.
Proof.
  split; [reflexivity|].
  destruct (modal_files_trimmed_notes oilOverdue oilChange (JS.lit "  pads at 8 mm ")
              (Some "mech") healthy oilOverdue) as (H & _).
  - reflexivity.
  - reflexivity.
  - reflexivity.
  - by rewrite H.
Defined.

(** *** What a clearance changes for the evaluators *)

(** A block reads the truck through its maintenance data and the cleared
    instant of its own kind. *)
Lemma blockOf_ext k now ti to t1 t2 :
  maintenanceData t1 = maintenanceData t2 ->
  clearedAt k t1 = clearedAt k t2 ->
  blockOf k now ti to t1 = blockOf k now ti to t2.
Proof.
  intros Hd Hc. unfold maintenanceData in Hd. simplify_eq.
  assert (Hg : isAlertClearedRecently t1 (now - sevenDays) k
               = isAlertClearedRecently t2 (now - sevenDays) k)
    by (by rewrite !isAlertClearedRecently_clearedAt, Hc).
  destruct k; unfold blockOf, oilChangeCheck, brakeChangeCheck, tireChangeCheck,
    inspectionCheck, oemsInspectionCheck, mileageBlock, expiryBlock;
    rewrite Hg;
    repeat match goal with
           | H : ?f t1 = ?f t2 |- _ => rewrite ?H; clear H
           end; reflexivity.
Qed.

(** X13.  What a successful clearance changes for the evaluators: for less
    than seven days from the clearance the cleared kind reports nothing,
    whatever the thresholds; every other kind is evaluated exactly as before
    the clearance, at any time.  A clearance under a key that is not one of the
    five kinds changes no evaluation at all. *)
Theorem clearance_silences_one_kind truckId alertType notes userId w w' :
  clearMaintenanceAlert truckId alertType notes userId w = (Ok tt, w') ->
  exists before after,
    trucks w !! truckId = Some before
    /\ trucks w' !! truckId = Some after
    /\ (forall k now ti to,
          alertKey k = alertType -> now - clock w < sevenDays ->
          blockOf k now ti to after = Ok None
          /\ forall alerts, alertsAt now ti to after = Ok alerts -> alertFor k alerts = None)
    /\ (forall k now ti to,
          alertKey k <> alertType ->
          blockOf k now ti to after = blockOf k now ti to before).
Proof.
  intros H.
  destruct (clearMaintenanceAlert_trucks truckId alertType notes userId w)
    as [[Hthrow _]|(before & Hb & Hnew)]; rewrite H in *; [done|].
  simpl in Hnew.
  exists before, (clearedDoc alertType (clock w) (author userId) before).
  split; [done|]. split; [by rewrite Hnew, lookup_insert_eq|]. split.
  - intros k now ti to <- Hsoon.
    apply (clearance_gate_closed _ _ _ _ _ (clock w)); [|done].
    unfold clearedAt, clearedDoc. simpl. by rewrite lookup_insert_eq.
  - intros k now ti to Hne. apply blockOf_ext; [done|].
    unfold clearedAt, clearedDoc. simpl. rewrite lookup_insert_ne by done.
    destruct (alertsCleared before); simpl; [done|]. by rewrite lookup_empty.
Qed.

Lemma clearance_silences_one_kind_witness :
  exists before after,
    trucks healthy !! "truck-52" = Some before
    /\ blockOf oilChange day day day after = Ok None
    /\ blockOf brakeChange day day day after = blockOf brakeChange day day day before.
Proof.
  destruct (clearance_silences_one_kind "truck-52" "oilChange" (JS.lit "ok") (Some "mech")
              healthy
              (snd (clearMaintenanceAlert "truck-52" "oilChange" (JS.lit "ok")
                      (Some "mech") healthy)))
    as (before & after & Hb & _ & Hk & Ho).
  - vm_compute. reflexivity.
  - exists before, after. split; [exact Hb|]. split.
    + apply (Hk oilChange); [reflexivity|]. unfold day, sevenDays, msPerDay. simpl. lia.
    + apply (Ho brakeChange). done.
Defined.

End ClearanceMore.

(** ** The trucks the dashboard is given, and its card *)

Section CardFacts.
Import Rules Spec Shape Sample Subscription Card.

Implicit Types (truck data : Truck) (k : AlertType) (a : AlertInfo).

Lemma ceilDays_nonpos (ms : Z) : ceilDays ms <= 0 <-> ms <= 0.
Proof.
  unfold ceilDays, msPerDay.
  pose proof (Z.div_mod (- ms) (1000 * 60 * 60 * 24) ltac:(lia)) as Hdm.
  pose proof (Z.mod_pos_bound (- ms) (1000 * 60 * 60 * 24) ltac:(lia)) as Hb.
  lia.
Qed.

Lemma truckWithDefaults_recorded now docId data :
  odometersRecorded (truckWithDefaults now docId data).
Proof. repeat split; simpl; eauto. Qed.

Lemma truckWithDefaults_gate now docId data sda k :
  isAlertClearedRecently (truckWithDefaults now docId data) sda k
  = isAlertClearedRecently data sda k.
Proof. reflexivity. Qed.

(** X14: the alert rules never fail on a truck that came through the
    subscription, whatever the stored document lacks; a kind with no odometer
    reading on record is judged as last serviced at mileage 0. *)
Theorem subscribed_trucks_never_throw now docId data render :
  let truck := truckWithDefaults now docId data in
  exists alerts,
    TruckCard.getMaintenanceAlerts render truck = Ok alerts
    /\ forall k,
         mileageBased k = true ->
         lastServiceOdometer k data = None ->
         isAlertClearedRecently data (render - sevenDays) k = false ->
         alertFor k alerts
         = if interval k <=? mileage data then
             Some (mkAlert k overdue
                     (OverdueBy (mileage data - interval k) 0
                        (lastServiceDate k truck) (interval k)))
           else if interval k - earlyWarningMargin k <=? mileage data then
             Some (mkAlert k due_soon
                     (DueIn (interval k - mileage data) 0
                        (lastServiceDate k truck) (interval k)))
           else None.
Proof.
  intros truck.
  destruct (alertsAt_recorded render render render truck
              (truckWithDefaults_recorded now docId data)) as [alerts Ha].
  exists alerts. split; [exact Ha|].
  intros k Hk Hlast Hgate.
  pose proof (alertsAt_alertFor _ _ _ _ _ k Ha) as Hb.
  rewrite blockOf_mileage in Hb by done.
  assert (Hl : lastServiceOdometer k truck = Some 0).
  { destruct k; try done; simpl in *; by rewrite Hlast. }
  rewrite Hl, mileageBlock_open in Hb by done.
  cbn zeta in Hb. rewrite !Z.add_0_l in Hb.
  change (mileage truck) with (mileage data) in Hb.
  by injection Hb as <-.
Qed.

Lemma subscribed_trucks_never_throw_witness :
  exists alerts,
    TruckCard.getMaintenanceAlerts 0 (truckWithDefaults 0 "truck-61" neverServiced)
    = Ok alerts
    /\ alertFor oilChange alerts
       = Some (mkAlert oilChange overdue (OverdueBy 1000 0 (Some 0) 5000)).
Proof.
  destruct (subscribed_trucks_never_throw 0 "truck-61" neverServiced 0)
    as (alerts & Ha & Hk).
  exists alerts. split; [exact Ha|].
  rewrite (Hk oilChange); reflexivity.
Defined.

(** X15: a document that lacks an inspection date reaches the card with the
    instant of the snapshot in its place, so the card reports the inspection
    as expired and colours it red; the server, which reads the stored
    document, reports nothing for that kind. *)
Theorem missing_expiry_shown_expired now docId data render k :
  mileageBased k = false ->
  expiryDate k data = None ->
  now <= render ->
  isAlertClearedRecently data (render - sevenDays) k = false ->
  let truck := truckWithDefaults now docId data in
  (exists alerts,
     TruckCard.getMaintenanceAlerts render truck = Ok alerts
     /\ alertFor k alerts = Some (mkAlert k overdue (ExpiredOn now)))
  /\ getExpirationColor (expiryDate k truck) render = Red
  /\ (forall serverNow ti to alerts,
        alertsAt serverNow ti to data = Ok alerts -> alertFor k alerts = None).
Proof.
  intros Hk Hexp Hle Hgate truck.
  assert (He : expiryDate k truck = Some now).
  { destruct k; try done; simpl in *; by rewrite Hexp. }
  assert (Hdays : (ceilDays (now - render) <=? 0) = true).
  { apply Z.leb_le. apply ceilDays_nonpos. lia. }
  split; [|split].
  - destruct (alertsAt_recorded render render render truck
                (truckWithDefaults_recorded now docId data)) as [alerts Ha].
    exists alerts. split; [exact Ha|].
    pose proof (alertsAt_alertFor _ _ _ _ _ k Ha) as Hb.
    rewrite blockOf_document, He in Hb by done.
    unfold expiryBlock, truck in Hb.
    rewrite truckWithDefaults_gate, Hgate in Hb. simpl negb in Hb. cbv iota in Hb.
    replace (todayOf k render render) with render in Hb by (by destruct k).
    cbn zeta in Hb. rewrite Hdays in Hb. by injection Hb as <-.
  - rewrite He. unfold getExpirationColor. cbn zeta.
    apply Z.leb_le in Hdays. case_match; [done|]. lia.
  - intros serverNow ti to alerts Ha.
    pose proof (alertsAt_alertFor _ _ _ _ _ k Ha) as Hb.
    rewrite blockOf_document, Hexp, expiryBlock_absent in Hb by done.
    by injection Hb as <-.
Qed.

Lemma missing_expiry_shown_expired_witness :
  getExpirationColor
    (expiryDate inspection
       (truckWithDefaults day "truck-52" (setInspectionStickerExpiry None unit52)))
    (2 * day)
  = Red.
Proof.
  apply (missing_expiry_shown_expired day "truck-52"
           (setInspectionStickerExpiry None unit52) (2 * day) inspection);
    [reflexivity | reflexivity | by vm_compute | reflexivity].
Defined.

Lemma card_oil_block now truck alerts last :
  TruckCard.getMaintenanceAlerts now truck = Ok alerts ->
  lastOilChangeMileage truck = Some last ->
  isAlertClearedRecently truck (now - sevenDays) oilChange = false ->
  alertFor oilChange alerts
  = if last + 5000 <=? mileage truck then
      Some (mkAlert oilChange overdue
              (OverdueBy (mileage truck - (last + 5000)) last (lastOilChange truck)
                 (last + 5000)))
    else if last + 5000 - 500 <=? mileage truck then
      Some (mkAlert oilChange due_soon
              (DueIn (last + 5000 - mileage truck) last (lastOilChange truck)
                 (last + 5000)))
    else None.
Proof.
  intros Ha Hlast Hgate.
  pose proof (alertsAt_alertFor _ _ _ _ _ oilChange Ha) as Hb.
  simpl in Hb. unfold oilChangeCheck in Hb.
  rewrite Hlast, mileageBlock_open in Hb by done.
  by injection Hb as <-.
Qed.

(** X16: the 'Maintenance Due' badge of the card and the oil alert.  With the
    alert not cleared, a badge means an overdue oil alert; an overdue oil
    alert means the badge or a truck exactly at the due mileage, where the
    alert is overdue by 0 miles and the badge is off. *)
Theorem badge_and_oil_alert now truck alerts last :
  TruckCard.getMaintenanceAlerts now truck = Ok alerts ->
  lastOilChangeMileage truck = Some last ->
  isAlertClearedRecently truck (now - sevenDays) oilChange = false ->
  (needsMaintenance truck = true -> severity oilChange alerts = Some overdue)
  /\ (severity oilChange alerts = Some overdue ->
        needsMaintenance truck = true \/ mileage truck = last + 5000)
  /\ (mileage truck = last + 5000 ->
        needsMaintenance truck = false
        /\ alertFor oilChange alerts
           = Some (mkAlert oilChange overdue
                     (OverdueBy 0 last (lastOilChange truck) (last + 5000)))).
Proof.
  intros Ha Hlast Hgate.
  pose proof (card_oil_block _ _ _ _ Ha Hlast Hgate) as Hb.
  unfold severity, needsMaintenance. rewrite Hb, Hlast.
  split; [|split].
  - intros Hn%Z.ltb_lt. case_match eqn:E; [done|]. apply Z.leb_gt in E. lia.
  - intros Hs. destruct (last + 5000 <=? mileage truck) eqn:E.
    + apply Z.leb_le in E.
      destruct (decide (mileage truck = last + 5000)); [by right|left].
      apply Z.ltb_lt. lia.
    + by case_match.
  - intros ->. split; [apply Z.ltb_ge; lia|].
    rewrite Z.leb_refl. by rewrite Z.sub_diag.
Qed.

Lemma badge_and_oil_alert_witness :
  exists alerts,
    TruckCard.getMaintenanceAlerts 0 oilOverdue = Ok alerts
    /\ needsMaintenance oilOverdue = true
    /\ severity oilChange alerts = Some overdue.
Proof.
  eexists. split; [reflexivity|]. split; [reflexivity|].
  apply (badge_and_oil_alert 0 oilOverdue _ 100000); reflexivity.
Defined.

(** X17: the colour of an inspection date on the card and the alert of that
    inspection, read at the same instant with the alert not cleared: an
    expired inspection is red, an orange date has a due-soon alert, and the
    date is uncoloured exactly when there is no alert. *)
Theorem expiry_colour_matches_alert now truck alerts k :
  mileageBased k = false ->
  TruckCard.getMaintenanceAlerts now truck = Ok alerts ->
  isAlertClearedRecently truck (now - sevenDays) k = false ->
  let colour := getExpirationColor (expiryDate k truck) now in
  (severity k alerts = Some overdue -> colour = Red)
  /\ (colour = Orange -> severity k alerts = Some due_soon)
  /\ (colour = Plain <-> alertFor k alerts = None).
Proof.
  intros Hk Ha Hgate colour. subst colour.
  pose proof (alertsAt_alertFor _ _ _ _ _ k Ha) as Hb.
  rewrite blockOf_document in Hb by done.
  replace (todayOf k now now) with now in Hb by (by destruct k).
  unfold severity. injection Hb as <-.
  unfold getExpirationColor, expiryBlock.
  destruct (expiryDate k truck) as [expiry|]; [|by repeat split].
  rewrite Hgate. cbn [negb]. cbn zeta.
  destruct (ceilDays (expiry - now) <=? 0) eqn:E0;
    destruct (ceilDays (expiry - now) <=? 10) eqn:E10;
    destruct (ceilDays (expiry - now) <=? 30) eqn:E30;
    rewrite ?Z.leb_le, ?Z.leb_gt in *; try lia; simpl; repeat split; try done.
Qed.

Lemma expiry_colour_matches_alert_witness :
  exists alerts,
    TruckCard.getMaintenanceAlerts 0 (setInspectionStickerExpiry (Some (20 * day)) unit52)
    = Ok alerts
    /\ severity inspection alerts = Some due_soon.
Proof.
  eexists. split; [reflexivity|].
  apply (expiry_colour_matches_alert 0
           (setInspectionStickerExpiry (Some (20 * day)) unit52) _ inspection);
    reflexivity.
Defined.

(** X18: clearing the oil alert of a truck takes the alert off its card for
    the following week; the 'Maintenance Due' badge, which looks at the
    odometer only, stays. *)
Theorem badge_outlives_clearance truckId notes userId w w' before :
  Clearance.clearMaintenanceAlert truckId "oilChange" notes userId w = (Ok tt, w') ->
  trucks w !! truckId = Some before ->
  needsMaintenance before = true ->
  exists after,
    trucks w' !! truckId = Some after
    /\ needsMaintenance after = true
    /\ forall now alerts,
         now - clock w < sevenDays ->
         TruckCard.getMaintenanceAlerts now after = Ok alerts ->
         alertFor oilChange alerts = None.
Proof.
  intros Hc Hb Hn.
  destruct (clearMaintenanceAlert_trucks truckId "oilChange" notes userId w)
    as [[Hf _]|(td & Htd & Ht)]; rewrite Hc in *; [done|].
  simpl in Ht. assert (td = before) as -> by congruence.
  exists (clearedDoc "oilChange" (clock w) (Clearance.author userId) before).
  split; [by rewrite Ht, lookup_insert_eq|]. split; [exact Hn|].
  intros now alerts Hnow Ha.
  refine (proj2 (clearance_gate_closed now now now _ oilChange (clock w) _ Hnow) _ Ha).
  unfold clearedAt. simpl. by rewrite lookup_insert_eq.
Qed.

Lemma badge_outlives_clearance_witness :
  exists after,
    trucks (snd (Clearance.clearMaintenanceAlert "truck-52" "oilChange" (JS.lit "ok")
                   (Some "mech") healthy)) !! "truck-52" = Some after
    /\ needsMaintenance after = true.
Proof.
  destruct (badge_outlives_clearance "truck-52" (JS.lit "ok") (Some "mech") healthy
              (snd (Clearance.clearMaintenanceAlert "truck-52" "oilChange" (JS.lit "ok")
                      (Some "mech") healthy)) oilOverdue)
    as (after & Ha & Hn & _); [reflexivity..|].
  exists after. by split.
Defined.

Lemma delays_budget (n : nat) events :
  (n <= 3)%nat ->
  delays (run n events) `prefix_of` drop n [2000; 4000; 8000].
Proof.
  revert n. induction events as [|ev rest IH]; intros n Hn; [apply prefix_nil|].
  destruct ev as [|code|]; simpl; [by apply IH| |apply prefix_nil].
  - destruct ((bool_decide (code = "unavailable")
               || bool_decide (code = "deadline-exceeded"))
              && (n <? Subscription.maxRetries)%nat) eqn:E; [|apply prefix_nil].
    apply andb_true_iff in E as [_ E%Nat.ltb_lt]. unfold Subscription.maxRetries in E.
    cbn [delays omap]. fold (delays (run (S n) rest)).
    assert (Hd : drop n [2000; 4000; 8000]
                 = 2 ^ Z.of_nat (S n) * 1000 :: drop (S n) [2000; 4000; 8000]).
    { destruct n as [|[|[|n]]]; try lia; reflexivity. }
    rewrite Hd. apply prefix_cons, IH. lia.
Qed.

(** X19: over the whole life of a trucks subscription there are at most three
    retries, after 2, 4 and 8 seconds in that order, whatever the store sends
    and however many snapshots arrive in between: a delivered snapshot does
    not give the retries back. *)
Theorem subscription_retry_budget events :
  delays (run 0 events) `prefix_of` [2000; 4000; 8000]
  /\ (length (delays (run 0 events)) <= 3)%nat.
Proof.
  pose proof (delays_budget 0 events ltac:(lia)) as Hp. simpl in Hp.
  split; [exact Hp|]. by apply prefix_length in Hp.
Qed.

Lemma indexOf_lt (t : string) order i :
  indexOf t order = Some i -> (i < length order)%nat.
Proof.
  revert i. induction order as [|x rest IH]; intros i; simpl; [done|].
  case_decide; [intros [= <-]; lia|].
  destruct (indexOf t rest) as [j|]; simpl; [|done].
  intros [= <-]. specialize (IH j eq_refl). lia.
Qed.

(** The comparator orders by [rank]. *)
Lemma compareEquipment_rank (e1 e2 : Equipment) :
  (compareEquipment e1 e2 <=? 0) = true <-> (rank e1 <= rank e2)%nat.
Proof.
  unfold compareEquipment, rank.
  destruct (indexOf (equipmentType e1) EQUIPMENT_ORDER) as [i|] eqn:Ea;
    destruct (indexOf (equipmentType e2) EQUIPMENT_ORDER) as [j|] eqn:Eb;
    try apply indexOf_lt in Ea; try apply indexOf_lt in Eb;
    rewrite Z.leb_le; lia.
Qed.

Lemma insertBy_perm (x : Equipment) l : insertBy compareEquipment x l ≡ₚ x :: l.
Proof.
  induction l as [|y l IH]; simpl; [done|].
  case_match; [done|]. by rewrite IH, Permutation_swap.
Qed.

Lemma insertBy_sorted (x : Equipment) l :
  StronglySorted (fun e1 e2 => (rank e1 <= rank e2)%nat) l ->
  StronglySorted (fun e1 e2 => (rank e1 <= rank e2)%nat) (insertBy compareEquipment x l).
Proof.
  induction 1 as [|y l Hs IH Hy]; simpl; [by repeat constructor|].
  destruct (compareEquipment x y <=? 0) eqn:E.
  - apply compareEquipment_rank in E.
    constructor; [by constructor|]. constructor; [done|].
    eapply Forall_impl; [exact Hy|]. simpl. lia.
  - assert (Hlt : (rank y < rank x)%nat).
    { destruct (decide (rank x <= rank y)%nat) as [Hle|]; [|lia].
      apply compareEquipment_rank in Hle. congruence. }
    constructor; [exact IH|].
    rewrite insertBy_perm. constructor; [lia|done].
Qed.

Lemma insertBy_filter (x : Equipment) l (r : nat) :
  filter (fun e => rank e = r) (insertBy compareEquipment x l)
  = filter (fun e => rank e = r) (x :: l).
Proof.
  induction l as [|y l IH]; simpl; [done|].
  destruct (compareEquipment x y <=? 0) eqn:E; [done|].
  assert (Hlt : (rank y < rank x)%nat).
  { destruct (decide (rank x <= rank y)%nat) as [Hle|]; [|lia].
    apply compareEquipment_rank in Hle. congruence. }
  rewrite (filter_cons _ y), IH, !(filter_cons _ x), (filter_cons _ y).
  repeat case_decide; try done; lia.
Qed.

(** X20: the equipment list of a card is the stored list rearranged: the
    items follow the display order with items of unlisted types last, and
    items of the same place keep the order they were stored in. *)
Theorem equipment_in_display_order equipment :
  sortEquipmentByOrder equipment ≡ₚ equipment
  /\ StronglySorted (fun e1 e2 => (rank e1 <= rank e2)%nat) (sortEquipmentByOrder equipment)
  /\ forall r : nat,
       filter (fun e => rank e = r) (sortEquipmentByOrder equipment)
       = filter (fun e => rank e = r) equipment.
Proof.
  unfold sortEquipmentByOrder, sortBy.
  induction equipment as [|x l (Hp & Hs & Hf)]; simpl.
  - split; [done|]. split; [constructor|done].
  - split; [by rewrite insertBy_perm, Hp|].
    split; [by apply insertBy_sorted|].
    intros r. rewrite insertBy_filter, !filter_cons, Hf. done.
Qed.

End CardFacts.

(** ** Maintenance records *)

Section RecordFacts.
Import Rules Spec Shape Sample Firestore Records.

Implicit Types (truck : Truck) (k : AlertType) (record : MaintenanceRecord).

Lemma addDoc_first_call r w :
  head (faults w) = None \/ head (faults w) = Some None ->
  addDoc r w = (Ok tt, mkWorld (trucks w) (maintenance w ++ [r]) (clock w) (tail (faults w))).
Proof.
  unfold addDoc, call. destruct w as [ts ms c fs]; simpl.
  intros [H|H]; destruct fs as [|[f|] fs]; simplify_eq/=; done.
Qed.

Lemma serviceFields_service k record :
  mileageBased k = true ->
  recordType record = recordTypeOf k ->
  exists fields,
    serviceFields record = Some fields
    /\ forall t,
         lastServiceOdometer k (fields t) = Some (recordMileage record)
         /\ lastServiceDate k (fields t) = Some (date record)
         /\ mileage (fields t) = mileage t
         /\ alertsCleared (fields t) = alertsCleared t
         /\ forall k2 now ti to uid at_,
              k2 <> k ->
              blockOf k2 now ti to (setUpdatedBy uid (setUpdatedAt at_ (fields t)))
              = blockOf k2 now ti to t.
Proof.
  intros Hk Ht. unfold serviceFields. rewrite Ht.
  destruct k; try done; simpl; eexists; (split; [reflexivity|]);
    intros t; repeat split; intros k2 now ti to uid at_ Hk2;
    destruct k2; done.
Qed.

(** X21: logging a service of a mileage-based kind for a truck on record
    stores the record, stamped with the instant and the user, and sets the
    truck's last service of that kind to the record's date and mileage.  The
    alert of that kind is then silent until the odometer comes within the
    warning margin of the next service; the other kinds and the other trucks
    are as before. *)
Theorem service_record_resets_interval k record uid w before :
  mileageBased k = true ->
  recordType record = recordTypeOf k ->
  truckId record <> "" ->
  recordMileage record <> 0 ->
  faults w = [] ->
  trucks w !! truckId record = Some before ->
  exists w' after,
    addMaintenanceRecord record uid w = (Ok tt, w')
    /\ maintenance w' = maintenance w ++ [stamp record (clock w) uid]
    /\ trucks w' !! truckId record = Some after
    /\ lastServiceOdometer k after = Some (recordMileage record)
    /\ lastServiceDate k after = Some (date record)
    /\ updatedAt after = clock w /\ updatedBy after = uid
    /\ (forall docId, docId <> truckId record -> trucks w' !! docId = trucks w !! docId)
    /\ (forall k2 now ti to,
          k2 <> k -> blockOf k2 now ti to after = blockOf k2 now ti to before)
    /\ (forall now ti to,
          mileage before < recordMileage record + interval k - earlyWarningMargin k ->
          blockOf k now ti to after = Ok None).
Proof.
  intros Hk Ht Hid Hm Hf Hb.
  destruct (serviceFields_service k record Hk Ht) as (fields & Hfields & Hprops).
  destruct (Hprops before) as (Hodo & Hdate & Hmil & Hcl & Hother).
  unfold addMaintenanceRecord.
  rewrite addDoc_first_call by (left; by rewrite Hf).
  rewrite Hf. cbn [tail clock].
  rewrite (bool_decide_eq_false_2 _ Hid), (bool_decide_eq_false_2 _ Hm), Hfields.
  cbn [negb andb]. unfold updateDoc, call. cbn [faults trucks]. rewrite Hb.
  eexists _, _. split; [reflexivity|]. cbn [maintenance trucks withTrucks].
  split; [done|]. split; [by rewrite lookup_insert_eq|].
  repeat split; try done.
  - intros docId Hd. by rewrite lookup_insert_ne.
  - intros k2 now ti to Hk2. by apply Hother.
  - intros now ti to Hlt.
    transitivity (blockOf k now ti to (fields before)); [by destruct k|].
    rewrite blockOf_mileage, Hodo by done.
    unfold mileageBlock. rewrite Hmil. cbn [orZero]. 
    assert (Hi : 0 <= earlyWarningMargin k) by (by destruct k).
    rewrite (proj2 (Z.leb_gt _ _)) by (simpl; lia). cbn [andb].
    rewrite (proj2 (Z.leb_gt _ _)) by (simpl; lia). done.
Qed.

Lemma service_record_resets_interval_witness :
  exists w' after,
    addMaintenanceRecord
      (mkRecord "truck-52" "52" "oil-change" "Oil and filter" day 105900 8900 "Shop"
         (JS.lit "") 0 "")
      "mech" healthy = (Ok tt, w')
    /\ trucks w' !! "truck-52" = Some after
    /\ blockOf oilChange day day day after = Ok None.
Proof.
  destruct (service_record_resets_interval oilChange
              (mkRecord "truck-52" "52" "oil-change" "Oil and filter" day 105900 8900 "Shop"
                 (JS.lit "") 0 "")
              "mech" healthy oilOverdue)
    as (w' & after & Hr & _ & Ha & _ & _ & _ & _ & _ & _ & Hq);
    [reflexivity | reflexivity | done | done | reflexivity | reflexivity |].
  exists w', after. split; [exact Hr|]. split; [exact Ha|].
  apply Hq. by vm_compute.
Defined.

(** X22: a record that names no truck, carries mileage 0, or is of a type
    other than the three mileage services leaves every truck document as it
    was, with one call to the store.  An 'inspection' record in particular
    renews no inspection date: the inspection alerts of the truck are what
    they were. *)
Theorem record_without_truck_update record uid w :
  truckId record = "" \/ recordMileage record = 0
  \/ (forall k, mileageBased k = true -> recordType record <> recordTypeOf k) ->
  let r := fst (addMaintenanceRecord record uid w) in
  let w' := snd (addMaintenanceRecord record uid w) in
  trucks w' = trucks w
  /\ clock w' = clock w
  /\ faults w' = tail (faults w)
  /\ (r = Ok tt -> maintenance w' = maintenance w ++ [stamp record (clock w) uid])
  /\ (isOk r = false -> maintenance w' = maintenance w).
Proof.
  intros Hcase.
  assert (Hno : negb (bool_decide (truckId record = ""))
                && negb (bool_decide (recordMileage record = 0)) = true ->
                serviceFields record = None).
  { intros [Hi Hm]%andb_true_iff.
    apply negb_true_iff, bool_decide_eq_false in Hi.
    apply negb_true_iff, bool_decide_eq_false in Hm.
    destruct Hcase as [?|[?|Hk]]; [done..|].
    unfold serviceFields.
    pose proof (Hk oilChange eq_refl). pose proof (Hk brakeChange eq_refl).
    pose proof (Hk tireChange eq_refl).
    by rewrite !decide_False. }
  unfold addMaintenanceRecord, addDoc, call.
  destruct w as [ts ms c fs]. cbn [faults].
  destruct fs as [|[msg|] fs]; cbn [fst snd withFaults withMaintenance trucks maintenance
                                      clock faults tail];
    try (by repeat split);
    destruct (negb (bool_decide (truckId record = ""))
              && negb (bool_decide (recordMileage record = 0))) eqn:E;
    rewrite ?Hno by done; by repeat split.
Qed.

Lemma record_without_truck_update_witness :
  trucks (snd (addMaintenanceRecord
                 (mkRecord "truck-52" "52" "inspection" "State inspection" day 101000 3500
                    "Shop" (JS.lit "") 0 "")
                 "mech" healthy))
  = trucks healthy.
Proof.
  apply (record_without_truck_update
           (mkRecord "truck-52" "52" "inspection" "State inspection" day 101000 3500
              "Shop" (JS.lit "") 0 "")
           "mech" healthy).
  right; right. intros k Hk. by destruct k.
Defined.

(** X23: the record is stored before the truck is touched and is not taken
    back: when the first call to the store goes through, the record is in
    the collection whatever the outcome, and when the outcome is an error
    no truck document has changed. *)
Theorem record_kept_when_truck_update_fails record uid w :
  head (faults w) = None \/ head (faults w) = Some None ->
  let r := fst (addMaintenanceRecord record uid w) in
  let w' := snd (addMaintenanceRecord record uid w) in
  maintenance w' = maintenance w ++ [stamp record (clock w) uid]
  /\ (isOk r = false -> trucks w' = trucks w)
  /\ (trucks w !! truckId record = None -> truckId record <> "" ->
      recordMileage record <> 0 -> recordType record = "oil-change" ->
      head (tail (faults w)) = None \/ head (tail (faults w)) = Some None ->
      r = Throw (Error "No document to update")).
Proof.
  intros Hfirst. unfold addMaintenanceRecord.
  rewrite addDoc_first_call by done.
  destruct (negb (bool_decide (truckId record = ""))
            && negb (bool_decide (recordMileage record = 0))) eqn:E.
  - destruct (serviceFields record) as [fields|] eqn:Es.
    + unfold updateDoc, call. cbn [faults trucks clock].
      destruct (tail (faults w)) as [|[msg|] fs] eqn:Et;
        cbn [fst snd withFaults trucks maintenance];
        destruct (trucks w !! truckId record) as [t|] eqn:El;
        cbn [fst snd withFaults withTrucks trucks maintenance isOk];
        repeat split; try done; intros; simplify_eq/=; try done;
        destruct H3 as [?|?]; done.
    + repeat split; try done. intros Hl Hi Hm Ht _.
      unfold serviceFields in Es. rewrite Ht in Es. done.
  - repeat split; try done. intros _ Hi Hm.
    rewrite (bool_decide_eq_false_2 _ Hi), (bool_decide_eq_false_2 _ Hm) in E. done.
Qed.

Lemma record_kept_when_truck_update_fails_witness :
  fst (addMaintenanceRecord
         (mkRecord "truck-99" "99" "oil-change" "Oil and filter" day 105900 8900 "Shop"
            (JS.lit "") 0 "")
         "mech" healthy)
  = Throw (Error "No document to update")
  /\ length (maintenance
               (snd (addMaintenanceRecord
                       (mkRecord "truck-99" "99" "oil-change" "Oil and filter" day 105900
                          8900 "Shop" (JS.lit "") 0 "")
                       "mech" healthy))) = 1%nat.
Proof.
  destruct (record_kept_when_truck_update_fails
              (mkRecord "truck-99" "99" "oil-change" "Oil and filter" day 105900 8900 "Shop"
                 (JS.lit "") 0 "")
              "mech" healthy) as (Hm & _ & Hr); [by left|].
  split; [apply Hr; (done || by left)|].
  by rewrite Hm.
Defined.

End RecordFacts.

(** ** The photo cache *)

Section PhotoCacheFacts.
Import PhotoCache.

Implicit Types (c : Cache) (m : list (text * text)) (key k : text).

Lemma mapGet_None key m : mapGet key m = None <-> key ∉ map fst m.
Proof.
  induction m as [|[k v] m IH]; simpl; [split; [intros _; apply not_elem_of_nil|done]|].
  case_decide; subst.
  - split; [done|]. intros []. by left.
  - rewrite IH, not_elem_of_cons. split; [by intros ?|by intros [_ ?]].
Qed.

Lemma mapSet_present key value m :
  key ∈ map fst m -> map fst (mapSet key value m) = map fst m.
Proof.
  induction m as [|[k v] m IH]; simpl; [by intros ?%elem_of_nil|].
  case_decide; [done|]. intros [?|?]%elem_of_cons; [done|]. simpl. by rewrite IH.
Qed.

Lemma mapSet_absent key value m :
  key ∉ map fst m -> mapSet key value m = m ++ [(key, value)].
Proof.
  induction m as [|[k v] m IH]; simpl; [done|].
  intros [? ?]%not_elem_of_cons. rewrite decide_False by done. by rewrite IH.
Qed.

Lemma mapGet_mapSet key value m : mapGet key (mapSet key value m) = Some value.
Proof.
  induction m as [|[k v] m IH]; simpl; [by rewrite decide_True|].
  case_decide; simpl; [by rewrite decide_True|by rewrite decide_False].
Qed.

Lemma mapGet_app_absent key m m2 :
  key ∉ map fst m -> mapGet key (m ++ m2) = mapGet key m2.
Proof.
  induction m as [|[k v] m IH]; simpl; [done|].
  intros [? ?]%not_elem_of_cons. rewrite decide_False by done. by apply IH.
Qed.

Lemma mapDelete_keys key m :
  NoDup (map fst m) ->
  NoDup (map fst (mapDelete key m))
  /\ (length (mapDelete key m) <= length m)%nat
  /\ forall k, k ∈ map fst (mapDelete key m) -> k ∈ map fst m.
Proof.
  induction m as [|[k v] m IH]; simpl; [by repeat split|].
  intros [Hk Hm]%NoDup_cons. destruct (IH Hm) as (Hn & Hl & Hin).
  case_decide; simpl.
  - repeat split; [done|lia|]. intros k2 ?. by right.
  - repeat split; [|lia|].
    + apply NoDup_cons. split; [|done]. intros ?%Hin. done.
    + intros k2 [->|?%Hin]%elem_of_cons; [by left|by right].
Qed.

Lemma cleanupCache_small c :
  (length (cache c) <= MAX_CACHE_SIZE)%nat -> cleanupCache c = c.
Proof. intros H. unfold cleanupCache. by rewrite (proj2 (Nat.leb_le _ _)). Qed.

Lemma cleanupCache_one k0 v0 rest ls :
  length rest = MAX_CACHE_SIZE ->
  cleanupCache (mkCache ((k0, v0) :: rest) ls) = mkCache rest (delete k0 ls).
Proof.
  intros Hl. unfold cleanupCache. cbn [cache length].
  rewrite (proj2 (Nat.leb_gt _ _)) by lia.
  replace (S (length rest) - MAX_CACHE_SIZE)%nat with 1%nat by lia.
  cbn [take map fst fold_left]. unfold dropKey. cbn [cache localStorage mapDelete].
  by rewrite decide_True.
Qed.

Lemma setCachedPhoto_bounded photoURL cachedURL stored c :
  bounded c -> bounded (setCachedPhoto photoURL cachedURL stored c).
Proof.
  intros [Hn Hl]. unfold setCachedPhoto. set (key := getCacheKey photoURL).
  destruct (decide (key ∈ map fst (cache c))) as [Hin|Hout].
  - rewrite cleanupCache_small; cbn [cache].
    + split; cbn [cache]; [by rewrite mapSet_present|].
      rewrite <- (length_map fst), mapSet_present, length_map; done.
    + rewrite <- (length_map fst), mapSet_present, length_map; done.
  - rewrite mapSet_absent by done.
    destruct (decide (length (cache c) = MAX_CACHE_SIZE)) as [Hfull|Hroom].
    + destruct (cache c) as [|[k0 v0] rest] eqn:Ec; [done|].
      change (((k0, v0) :: rest) ++ [(key, cachedURL)])
        with ((k0, v0) :: (rest ++ [(key, cachedURL)])).
      rewrite cleanupCache_one by (rewrite length_app; simpl in *; lia).
      split; cbn [cache].
      * simpl in Hn. apply NoDup_cons in Hn as [_ Hn].
        rewrite map_app. apply NoDup_app. split; [done|].
        split; [|apply NoDup_singleton].
        intros k Hk ->%list_elem_of_singleton. apply Hout. simpl. by right.
      * rewrite length_app. simpl in *. lia.
    + rewrite cleanupCache_small; cbn [cache]; [|rewrite length_app; simpl; lia].
      split; cbn [cache]; [|rewrite length_app; simpl; lia].
      rewrite map_app. apply NoDup_app. split; [done|].
      split; [|apply NoDup_singleton].
      by intros k Hk ->%list_elem_of_singleton.
Qed.

Lemma apply_bounded c op : bounded c -> bounded (apply c op).
Proof.
  intros Hb. destruct op; simpl.
  - by apply setCachedPhoto_bounded.
  - destruct Hb as [Hn Hl]. unfold removeCachedPhoto, dropKey. split; cbn [cache].
    + by apply mapDelete_keys.
    + pose proof (mapDelete_keys (getCacheKey photoURL) _ Hn) as (_ & ? & _). lia.
  - split; simpl; [constructor|lia].
  - unfold savePhotoURLBackup. repeat case_match; done.
  - unfold removePhotoURLBackup. case_match; done.
  - done.
Qed.

Lemma after_bounded (ops : list Op) : bounded (after ops).
Proof.
  unfold after.
  assert (Hb : bounded empty) by (split; simpl; [constructor|lia]).
  revert Hb. generalize empty. induction ops as [|op ops IH]; intros c Hb; [done|].
  simpl. by apply IH, apply_bounded.
Qed.

(** X24: whatever is done with the cache, its memory holds no more than 50
    photos, each under one key. *)
Theorem cache_bounded (ops : list Op) :
  NoDup (map fst (cache (after ops)))
  /\ (length (cache (after ops)) <= 50)%nat.
Proof. exact (after_bounded ops). Qed.

(** What [setCachedPhoto] does to a cache within its bound. *)
Lemma setCachedPhoto_cases (photoURL cachedURL : text) (stored : bool) c :
  bounded c ->
  let key := getCacheKey photoURL in
  let ls := if stored then <[key := cachedURL]> (localStorage c) else localStorage c in
  setCachedPhoto photoURL cachedURL stored c
  = if decide (key ∈ map fst (cache c)) then mkCache (mapSet key cachedURL (cache c)) ls
    else match cache c with
         | (k0, v0) :: rest =>
             if decide (length (cache c) = MAX_CACHE_SIZE)
             then mkCache (rest ++ [(key, cachedURL)]) (delete k0 ls)
             else mkCache (cache c ++ [(key, cachedURL)]) ls
         | [] => mkCache [(key, cachedURL)] ls
         end.
Proof.
  intros [Hn Hl] key ls. unfold setCachedPhoto. fold key. fold ls.
  destruct (decide (key ∈ map fst (cache c))) as [Hin|Hout].
  - rewrite cleanupCache_small; [done|]. cbn [cache].
    rewrite <- (length_map fst), mapSet_present, length_map; done.
  - rewrite mapSet_absent by done.
    destruct (cache c) as [|[k0 v0] rest] eqn:Ec; [done|].
    destruct (decide (length ((k0, v0) :: rest) = MAX_CACHE_SIZE)) as [Hfull|Hroom].
    + change (((k0, v0) :: rest) ++ [(key, cachedURL)])
        with ((k0, v0) :: (rest ++ [(key, cachedURL)])).
      by rewrite cleanupCache_one by (rewrite length_app; simpl in *; lia).
    + rewrite cleanupCache_small; [done|]. cbn [cache].
      rewrite length_app. simpl in *. lia.
Qed.

Lemma setCachedPhoto_get photoURL cachedURL stored c :
  bounded c ->
  mapGet (getCacheKey photoURL) (cache (setCachedPhoto photoURL cachedURL stored c))
  = Some cachedURL.
Proof.
  intros Hb. rewrite setCachedPhoto_cases by done. cbv zeta.
  set (key := getCacheKey photoURL).
  destruct (decide (key ∈ map fst (cache c))) as [Hin|Hout]; cbn [cache].
  - apply mapGet_mapSet.
  - destruct (cache c) as [|[k0 v0] rest] eqn:Ec; cbn [cache].
    + simpl. by rewrite decide_True.
    + assert (key ∉ map fst rest).
      { intros ?. apply Hout. simpl. by right. }
      case_decide; cbn [cache]; rewrite mapGet_app_absent by done;
        simpl; by rewrite decide_True.
Qed.

(** X25: a photo is cached under a key computed from its URL, and a lookup
    goes by that key alone: after a photo was cached for one URL, the lookup
    for any URL with the same key returns it.  This holds for the URL itself,
    and also for a different URL whose key happens to be the same. *)
Theorem cached_photo_by_key photoURL otherURL cachedURL stored c :
  bounded c ->
  getCacheKey otherURL = getCacheKey photoURL ->
  JS.truthy cachedURL = true ->
  getCachedPhoto otherURL (setCachedPhoto photoURL cachedURL stored c) = Some cachedURL
  /\ isCached otherURL (setCachedPhoto photoURL cachedURL stored c) = true.
Proof.
  intros Hb Hkey Hv. unfold getCachedPhoto, isCached, mapHas. cbv zeta.
  rewrite Hkey, setCachedPhoto_get, Hv by done.
  split; [done|]. by rewrite bool_decide_eq_true_2.
Qed.

Lemma cached_photo_by_key_witness :
  JS.lit "https://x/Aa.jpg" <> JS.lit "https://x/BB.jpg"
  /\ getCachedPhoto (JS.lit "https://x/BB.jpg")
       (setCachedPhoto (JS.lit "https://x/Aa.jpg") (JS.lit "https://x/Aa.jpg") true empty)
     = Some (JS.lit "https://x/Aa.jpg").
Proof.
  split; [by vm_compute|].
  apply (cached_photo_by_key (JS.lit "https://x/Aa.jpg") (JS.lit "https://x/BB.jpg")
           (JS.lit "https://x/Aa.jpg") true empty).
  - split; simpl; [constructor|lia].
  - by vm_compute.
  - reflexivity.
Defined.

(** X26: when the memory is full, caching a photo under a new key drops the
    oldest entry from the memory and from [localStorage], so that photo is
    looked up in vain afterwards. *)
Theorem full_cache_evicts_oldest photoURL cachedURL stored c k0 v0 rest :
  bounded c ->
  cache c = (k0, v0) :: rest ->
  length (cache c) = MAX_CACHE_SIZE ->
  getCacheKey photoURL ∉ map fst (cache c) ->
  let c' := setCachedPhoto photoURL cachedURL stored c in
  cache c' = rest ++ [(getCacheKey photoURL, cachedURL)]
  /\ localStorage c' !! k0 = None
  /\ forall oldURL, getCacheKey oldURL = k0 -> getCachedPhoto oldURL c' = None.
Proof.
  intros Hb Hc Hfull Hnew c'. subst c'.
  rewrite setCachedPhoto_cases by done. cbv zeta.
  rewrite decide_False by done. rewrite Hc in *.
  rewrite decide_True by done. cbn [cache localStorage].
  split; [done|]. split; [by rewrite lookup_delete_eq|].
  intros oldURL Hold. unfold getCachedPhoto. cbv zeta. cbn [cache localStorage].
  rewrite Hold, lookup_delete_eq.
  destruct Hb as [Hn _]. rewrite Hc in Hn. simpl in Hn. apply NoDup_cons in Hn as [Hk0 _].
  rewrite mapGet_app_absent by done. simpl.
  rewrite decide_False; [done|]. intros <-. apply Hnew. by left.
Qed.

Lemma full_cache_evicts_oldest_witness :
  getCachedPhoto [0%N]
    (setCachedPhoto [50%N] [1%N] true
       (mkCache (map (fun i => (getCacheKey [N.of_nat i], [1%N])) (seq 0 50)) ∅))
  = None.
Proof.
  apply (full_cache_evicts_oldest [50%N] [1%N] true
           (mkCache (map (fun i => (getCacheKey [N.of_nat i], [1%N])) (seq 0 50)) ∅)
           (getCacheKey [0%N]) [1%N]
           (map (fun i => (getCacheKey [N.of_nat i], [1%N])) (seq 1 49))).
  - split; [apply (bool_decide_unpack _); by vm_compute|].
    apply Nat.leb_le. by vm_compute.
  - reflexivity.
  - by vm_compute.
  - apply (bool_decide_unpack _). by vm_compute.
  - reflexivity.
Defined.

Lemma removeKeys_lookup (pre : text) (keys : list text) (ls : gmap text text) key :
  fold_left (fun ls key => if startsWith key pre then delete key ls else ls) keys ls
  !! key
  = if startsWith key pre && bool_decide (key ∈ keys) then None else ls !! key.
Proof.
  revert ls. induction keys as [|k keys IH]; intros ls; simpl.
  - by rewrite andb_false_r.
  - rewrite IH. destruct (startsWith key pre) eqn:Ek; simpl.
    + destruct (decide (key ∈ keys)) as [Hin|Hout].
      * rewrite !bool_decide_eq_true_2; [done|by right|done].
      * rewrite (bool_decide_eq_false_2 _ Hout).
        destruct (decide (k = key)) as [->|Hne].
        -- rewrite Ek, lookup_delete_eq, bool_decide_eq_true_2; [done|by left].
        -- rewrite bool_decide_eq_false_2 by (intros [?|?]%elem_of_cons; done).
           destruct (startsWith k pre); [by rewrite lookup_delete_ne|done].
    + destruct (startsWith k pre) eqn:Ek2; [|done].
      rewrite lookup_delete_ne; [done|]. intros ->. congruence.
Qed.

Lemma removePrefixed_lookup (pre : text) (ls : gmap text text) key :
  removePrefixed pre ls !! key = if startsWith key pre then None else ls !! key.
Proof.
  unfold removePrefixed. rewrite removeKeys_lookup.
  destruct (startsWith key pre); simpl; [|done].
  case_bool_decide as Hin; [done|].
  destruct (ls !! key) as [v|] eqn:E; [|done].
  exfalso. apply Hin. apply list_elem_of_fmap. exists (key, v).
  split; [done|]. by apply elem_of_map_to_list.
Qed.

Lemma startsWith_app (p s q : text) : startsWith (p ++ s) (p ++ q) = startsWith s q.
Proof. induction p as [|c p IH]; simpl; [done|]. by rewrite N.eqb_refl. Qed.

Lemma startsWith_own (p s : text) : startsWith (p ++ s) p = true.
Proof. induction p as [|c p IH]; simpl; [by destruct s|]. by rewrite N.eqb_refl. Qed.

Lemma pretty_N_char_not_b (x : N) : Ascii.nat_of_ascii (pretty_N_char x) <> 98%nat.
Proof. unfold pretty_N_char. repeat case_match; by vm_compute. Qed.

Lemma pretty_N_go_head (x : N) (s : string) :
  (forall a r, s = String a r -> Ascii.nat_of_ascii a <> 98%nat) ->
  forall a r, pretty_N_go x s = String a r -> Ascii.nat_of_ascii a <> 98%nat.
Proof.
  revert s. induction (N.lt_wf_0 x) as [x _ IH]. intros s Hs a r.
  destruct (decide (x = 0%N)) as [->|Hx].
  - rewrite pretty_N_go_0. apply Hs.
  - rewrite pretty_N_go_step by lia.
    apply IH; [apply N.div_lt; lia|].
    intros a2 r2 [= <- _]. apply pretty_N_char_not_b.
Qed.

Lemma digits_head (n : Z) :
  0 <= n -> startsWith (digits n) (JS.lit "backup_") = false.
Proof.
  intros Hn. unfold digits.
  assert (Hh : forall a r, pretty n = String a r -> Ascii.nat_of_ascii a <> 98%nat).
  { destruct n as [|p|p]; [by intros a r [= <- _] | | lia].
    change (pretty (Z.pos p)) with (pretty_N_go (N.pos p) "").
    apply pretty_N_go_head. done. }
  destruct (pretty n) as [|a r]; [done|].
  specialize (Hh a r eq_refl).
  change (JS.lit (String a r))
    with (N.of_nat (Ascii.nat_of_ascii a) :: JS.lit r).
  change (JS.lit "backup_") with (98%N :: JS.lit "ackup_").
  cbn [startsWith]. apply andb_false_iff. left. apply N.eqb_neq. lia.
Qed.

Lemma getCacheKey_not_backup (photoURL : text) :
  startsWith (getCacheKey photoURL) BACKUP_KEY_PREFIX = false.
Proof.
  unfold getCacheKey.
  change BACKUP_KEY_PREFIX with (CACHE_KEY_PREFIX ++ JS.lit "backup_").
  rewrite startsWith_app. apply digits_head. lia.
Qed.

Lemma backupKey_cache_prefix (unitNumber : text) :
  startsWith (BACKUP_KEY_PREFIX ++ unitNumber) CACHE_KEY_PREFIX = true.
Proof.
  change BACKUP_KEY_PREFIX with (CACHE_KEY_PREFIX ++ JS.lit "backup_").
  rewrite <- app_assoc. apply startsWith_own.
Qed.

Lemma getPhotoURLBackup_clearCache c (unitNumber : text) :
  getPhotoURLBackup unitNumber (clearCache c) = None.
Proof.
  unfold getPhotoURLBackup, clearCache. case_match; [done|].
  cbn [localStorage]. by rewrite removePrefixed_lookup, backupKey_cache_prefix.
Qed.

(** X27: the keys of the backups begin with the prefix of the cache keys, and
    no cache key begins with the prefix of the backups.  So clearing the
    cache also deletes every photo URL backup, together with every cached
    photo, while clearing the backups leaves every cached photo in place. *)
Theorem clearing_cache_drops_backups c :
  (forall unitNumber, getPhotoURLBackup unitNumber (clearCache c) = None)
  /\ (forall photoURL, getCachedPhoto photoURL (clearCache c) = None)
  /\ (forall photoURL,
        getCachedPhoto photoURL (clearPhotoURLBackups c) = getCachedPhoto photoURL c)
  /\ (forall unitNumber, getPhotoURLBackup unitNumber (clearPhotoURLBackups c) = None).
Proof.
  repeat split.
  - intros unitNumber. apply getPhotoURLBackup_clearCache.
  - intros photoURL. unfold getCachedPhoto, clearCache. cbv zeta. cbn [cache localStorage].
    simpl mapGet. rewrite removePrefixed_lookup.
    unfold getCacheKey. by rewrite startsWith_own.
  - intros photoURL. unfold getCachedPhoto, clearPhotoURLBackups. cbv zeta.
    cbn [cache localStorage].
    by rewrite removePrefixed_lookup, getCacheKey_not_backup.
  - intros unitNumber. unfold getPhotoURLBackup, clearPhotoURLBackups. case_match; [done|].
    cbn [localStorage]. by rewrite removePrefixed_lookup, startsWith_own.
Qed.

End PhotoCacheFacts.

(** ** Truck documents by field *)

Section DocumentFacts.
Import PhotoCache Documents.

Implicit Types (w : Client) (update u : MileageUpdate) (old new : Fields).

Lemma withPending_nil w : pending w = [] -> withPending [] w = w.
Proof. destruct w; simpl; by intros ->. Qed.

Lemma updateDoc_healthy key fields w old :
  pending w = [] -> docs w !! key = Some old ->
  updateDoc key fields w = (Ok tt, withDocs (<[key := fields ∪ old]> (docs w)) w).
Proof.
  intros Hp Hd. unfold updateDoc. rewrite Hp, Hd. cbn [tail].
  by rewrite withPending_nil.
Qed.

Lemma mileageWrite_lookup uid now u :
  mileageWrite uid now u !! "mileage" = Some (VNumber (newMileage u))
  /\ mileageWrite uid now u !! "mileageLastUpdated" = Some (VDate now)
  /\ mileageWrite uid now u !! "photoURL" = Some (VString [])
  /\ mileageWrite uid now u !! "updatedAt" = Some (VDate now)
  /\ mileageWrite uid now u !! "updatedBy" = Some (VString (JS.lit uid))
  /\ forall key,
       key ∉ ["mileage"; "mileageLastUpdated"; "photoURL"; "updatedAt"; "updatedBy"] ->
       mileageWrite uid now u !! key = None.
Proof.
  unfold mileageWrite, cleanUpdates. repeat split.
  intros key Hk. repeat (apply not_elem_of_cons in Hk as [? Hk]).
  do 3 (rewrite lookup_insert_ne by congruence). rewrite lookup_omap.
  destruct (decide (key = "photo")) as [->|];
    [by rewrite lookup_delete_eq|].
  rewrite lookup_delete_ne by congruence.
  do 2 (rewrite lookup_insert_ne by congruence). by rewrite lookup_empty.
Qed.

Lemma updateTruck_form uid u w old :
  pending w = [] -> docs w !! updateTruckId u = Some old ->
  updateTruck (updateTruckId u)
    (<["mileage" := Some (VNumber (newMileage u))]>
       (<["mileageLastUpdated" := Some (VDate (time w))]> ∅))
    uid None (Ok []) false w
  = (Ok true,
     withDocs (<[updateTruckId u := mileageWrite uid (time w) u ∪ old]> (docs w)) w).
Proof.
  intros Hp Hd. unfold updateTruck.
  rewrite !lookup_insert_ne, lookup_empty by done.
  fold (mileageWrite uid (time w) u).
  by rewrite (updateDoc_healthy _ _ _ old).
Qed.

Lemma updateAll_healthy uid (l : list MileageUpdate) w :
  pending w = [] ->
  NoDup (map updateTruckId l) ->
  (forall u, u ∈ l -> is_Some (docs w !! updateTruckId u)) ->
  exists ds,
    updateAll uid l w = (map (fun _ => Ok true) l, withDocs ds w)
    /\ (forall u, u ∈ l ->
          ds !! updateTruckId u
          = (fun old => mileageWrite uid (time w) u ∪ old) <$> docs w !! updateTruckId u)
    /\ (forall key, key ∉ map updateTruckId l -> ds !! key = docs w !! key).
Proof.
  revert w. induction l as [|u l IH]; intros w Hp Hn Hex.
  - exists (docs w). simpl. split; [by destruct w|].
    split; [by intros u ?%elem_of_nil|done].
  - apply NoDup_cons in Hn as [Hu Hn].
    destruct (Hex u ltac:(by left)) as [old Hold].
    cbn [updateAll]. rewrite (updateTruck_form _ _ _ old) by done.
    set (w1 := withDocs (<[updateTruckId u := mileageWrite uid (time w) u ∪ old]> (docs w)) w).
    destruct (IH w1) as (ds & Hrun & Hin & Hout); [done|done| |].
    { intros u2 Hu2. subst w1. cbn [docs withDocs].
      destruct (decide (updateTruckId u = updateTruckId u2)) as [->|Hne];
        [by rewrite lookup_insert_eq|].
      rewrite lookup_insert_ne by done. apply Hex. by right. }
    rewrite Hrun. exists ds. split; [by destruct w|]. split.
    + intros u2 [->|Hu2]%elem_of_cons.
      * rewrite Hout by done. subst w1. cbn [docs withDocs].
        by rewrite lookup_insert_eq, Hold.
      * rewrite Hin by done. subst w1. cbn [docs withDocs time].
        rewrite lookup_insert_ne; [done|].
        intros Heq. apply Hu. rewrite Heq. apply list_elem_of_fmap. by exists u2.
    + intros key [Hk1 Hk2]%not_elem_of_cons. rewrite Hout by done.
      subst w1. cbn [docs withDocs]. by rewrite lookup_insert_ne.
Qed.

Lemma forallb_isOk_all (l : list MileageUpdate) :
  forallb isOk (map (fun _ => @Ok bool true) l) = true.
Proof. by induction l. Qed.

Lemma changed_NoDup (l : list MileageUpdate) :
  NoDup (map updateTruckId l) -> NoDup (map updateTruckId (changed l)).
Proof.
  intros Hn. eapply sublist_NoDup; [exact Hn|].
  apply (fmap_sublist updateTruckId), sublist_filter.
Qed.

Lemma written_fields uid now u old :
  let new := mileageWrite uid now u ∪ old in
  new !! "mileage" = Some (VNumber (newMileage u))
  /\ new !! "mileageLastUpdated" = Some (VDate now)
  /\ new !! "photoURL" = Some (VString [])
  /\ new !! "updatedAt" = Some (VDate now)
  /\ new !! "updatedBy" = Some (VString (JS.lit uid))
  /\ forall key,
       key ∉ ["mileage"; "mileageLastUpdated"; "photoURL"; "updatedAt"; "updatedBy"] ->
       new !! key = old !! key.
Proof.
  intros new. subst new.
  destruct (mileageWrite_lookup uid now u) as (H1 & H2 & H3 & H4 & H5 & H6).
  repeat split; try (by apply lookup_union_Some_l).
  intros key Hk. by rewrite lookup_union_r by auto.
Qed.

(** X28: submitting the mileage form writes, for every row whose mileage was
    changed, the new mileage and the instant of the change, and with them an
    empty [photoURL]: the update is sent without the current truck, so the
    photo URL the document held is overwritten.  The other fields of those
    documents and the documents of the other rows are as before. *)
Theorem mileage_form_erases_photo uid mileageUpdates w :
  pending w = [] ->
  NoDup (map updateTruckId mileageUpdates) ->
  (forall u, u ∈ mileageUpdates -> is_Some (docs w !! updateTruckId u)) ->
  changed mileageUpdates <> [] ->
  let out := handleSubmit (Some uid) mileageUpdates w in
  fst out = Updated
  /\ storage (snd out) = storage w
  /\ (forall u old,
        u ∈ changed mileageUpdates -> docs w !! updateTruckId u = Some old ->
        exists new,
          docs (snd out) !! updateTruckId u = Some new
          /\ new !! "mileage" = Some (VNumber (newMileage u))
          /\ new !! "mileageLastUpdated" = Some (VDate (time w))
          /\ new !! "photoURL" = Some (VString [])
          /\ new !! "updatedAt" = Some (VDate (time w))
          /\ new !! "updatedBy" = Some (VString (JS.lit uid))
          /\ forall key,
               key ∉ ["mileage"; "mileageLastUpdated"; "photoURL"; "updatedAt";
                      "updatedBy"] ->
               new !! key = old !! key)
  /\ (forall key,
        key ∉ map updateTruckId (changed mileageUpdates) ->
        docs (snd out) !! key = docs w !! key).
Proof.
  intros Hp Hn Hex Hch out. subst out. unfold handleSubmit.
  fold (changed mileageUpdates).
  rewrite bool_decide_eq_false_2 by (by destruct (changed mileageUpdates)).
  destruct (updateAll_healthy uid (changed mileageUpdates) w Hp (changed_NoDup _ Hn))
    as (ds & Hrun & Hin & Hout).
  { intros u Hu. apply Hex. apply list_elem_of_filter in Hu. tauto. }
  rewrite Hrun, forallb_isOk_all. cbn [fst snd withDocs storage docs].
  split; [done|]. split; [done|]. split; [|exact Hout].
  intros u old Hu Hold. exists (mileageWrite uid (time w) u ∪ old).
  split; [by rewrite Hin, Hold|]. apply written_fields.
Qed.

Lemma mileage_form_erases_photo_witness :
  exists new,
    docs (snd (handleSubmit (Some "medic")
                 [mkMileageUpdate "truck-52" "52" 101000 101250]
                 (mkClient
                    {[ "truck-52" := {[ "photoURL" := VString (JS.lit "https://x/Aa.jpg") ]} ]}
                    empty 0 [])))
    !! "truck-52" = Some new
    /\ new !! "photoURL" = Some (VString []).
Proof.
  destruct (mileage_form_erases_photo "medic"
              [mkMileageUpdate "truck-52" "52" 101000 101250]
              (mkClient
                 {[ "truck-52" := {[ "photoURL" := VString (JS.lit "https://x/Aa.jpg") ]} ]}
                 empty 0 []))
    as (_ & _ & Hw & _).
  - reflexivity.
  - apply (bool_decide_unpack _). by vm_compute.
  - intros u ->%list_elem_of_singleton. by eexists.
  - by vm_compute.
  - destruct (Hw (mkMileageUpdate "truck-52" "52" 101000 101250)
                {[ "photoURL" := VString (JS.lit "https://x/Aa.jpg") ]})
      as (new & Hnew & _ & _ & Hphoto & _).
    + apply list_elem_of_In. vm_compute. by left.
    + reflexivity.
    + exists new. by split.
Defined.

Lemma savePhotoURLBackup_get (unitNumber photoURL : text) c :
  JS.truthy photoURL = true -> JS.truthy unitNumber = true ->
  getPhotoURLBackup unitNumber (savePhotoURLBackup unitNumber photoURL true c)
  = Some photoURL.
Proof.
  intros Hp Hu. unfold getPhotoURLBackup, savePhotoURLBackup. rewrite Hp, Hu.
  cbn [negb orb localStorage]. by rewrite lookup_insert_eq.
Qed.

(** X29: an edit made with the current truck at hand and no new photo keeps
    the photo URL of the truck, never stores the [photo] property or a
    property that is [undefined], and leaves a backup of the URL under the
    unit number when the browser accepts it. *)
Theorem edit_keeps_photo truckId (updates : Updates) userId ct upload stored w old url :
  pending w = [] ->
  docs w !! truckId = Some old ->
  (forall name, updates !! "photo" <> Some (Some (VFile name))) ->
  currentPhotoURL ct = Some url ->
  JS.truthy url = true ->
  JS.truthy (currentUnitNumber ct) = true ->
  let out := updateTruck truckId updates userId (Some ct) upload stored w in
  fst out = Ok true
  /\ (exists new,
        docs (snd out) !! truckId = Some new
        /\ new !! "photoURL" = Some (VString url)
        /\ new !! "photo" = old !! "photo"
        /\ (forall key v,
              key ∉ ["photo"; "photoURL"; "updatedAt"; "updatedBy"] ->
              updates !! key = Some (Some v) -> new !! key = Some v)
        /\ (forall key,
              key ∉ ["photo"; "photoURL"; "updatedAt"; "updatedBy"] ->
              updates !! key = Some None \/ updates !! key = None ->
              new !! key = old !! key))
  /\ (stored = true ->
      getPhotoURLBackup (currentUnitNumber ct) (storage (snd out)) = Some url).
Proof.
  intros Hp Hd Hfile Hurl Ht Hunit out. subst out. unfold updateTruck.
  assert (Hup : match updates !! "photo" with
                | Some (Some (VFile _)) => upload
                | _ => Ok (default [] (currentPhotoURL ct))
                end = Ok url).
  { rewrite Hurl. destruct (updates !! "photo") as [[[]|]|] eqn:E; try done.
    by destruct (Hfile name). }
  rewrite Hup. rewrite (updateDoc_healthy _ _ _ old) by done.
  rewrite Ht, Hunit. cbn [andb fst snd withStorage withDocs docs storage].
  split; [done|]. split.
  - eexists. split; [by rewrite lookup_insert_eq|].
    split; [apply lookup_union_Some_l;
            by do 2 (rewrite lookup_insert_ne by done); rewrite lookup_insert_eq|].
    split; [|split].
    + rewrite lookup_union_r; [done|].
      do 3 (rewrite lookup_insert_ne by done).
      unfold cleanUpdates. by rewrite lookup_omap, lookup_delete_eq.
    + intros key v Hk Hv. repeat (apply not_elem_of_cons in Hk as [? Hk]).
      apply lookup_union_Some_l.
      do 3 (rewrite lookup_insert_ne by congruence).
      unfold cleanUpdates. rewrite lookup_omap, lookup_delete_ne by congruence.
      by rewrite Hv.
    + intros key Hk Hv. repeat (apply not_elem_of_cons in Hk as [? Hk]).
      rewrite lookup_union_r; [done|].
      do 3 (rewrite lookup_insert_ne by congruence).
      unfold cleanUpdates. rewrite lookup_omap, lookup_delete_ne by congruence.
      by destruct Hv as [-> | ->].
  - intros ->. by apply savePhotoURLBackup_get.
Qed.

Lemma edit_keeps_photo_witness :
  getPhotoURLBackup (JS.lit "52")
    (storage
       (snd (updateTruck "truck-52" {[ "mileage" := Some (VNumber 101250) ]} "medic"
               (Some (mkCurrent (Some (JS.lit "https://x/Aa.jpg")) (JS.lit "52")))
               (Ok []) true
               (mkClient
                  {[ "truck-52" := {[ "photoURL" := VString (JS.lit "https://x/Aa.jpg") ]} ]}
                  empty 0 []))))
  = Some (JS.lit "https://x/Aa.jpg").
Proof.
  apply (edit_keeps_photo "truck-52" {[ "mileage" := Some (VNumber 101250) ]} "medic"
           (mkCurrent (Some (JS.lit "https://x/Aa.jpg")) (JS.lit "52")) (Ok []) true
           (mkClient
              {[ "truck-52" := {[ "photoURL" := VString (JS.lit "https://x/Aa.jpg") ]} ]}
              empty 0 [])
           {[ "photoURL" := VString (JS.lit "https://x/Aa.jpg") ]}
           (JS.lit "https://x/Aa.jpg"));
    try reflexivity.
  intros name. by vm_compute.
Defined.

(** X30: the photo URL the mileage form erased comes back from the backup:
    when the card receives the truck without a photo URL and the browser
    holds a backup for its unit number, the card writes that URL into the
    document, whose new mileage stays.  Once the photo cache was cleared
    there is no backup left, and the card writes nothing. *)
Theorem backup_restores_erased_photo uid reader u (unitNumber url : text) w old :
  pending w = [] ->
  docs w !! updateTruckId u = Some old ->
  newMileage u <> currentMileage u ->
  updateTruckId u <> "" ->
  JS.truthy unitNumber = true ->
  JS.truthy url = true ->
  getPhotoURLBackup unitNumber (storage w) = Some url ->
  let w1 := snd (handleSubmit (Some uid) [u] w) in
  let cleared := withStorage (clearCache (storage w1)) w1 in
  (exists erased,
     docs w1 !! updateTruckId u = Some erased /\ fieldText "photoURL" erased = [])
  /\ fst (restorePhotoURL [] (updateTruckId u) unitNumber (Some reader) w1) = Some url
  /\ (exists restored,
        docs (snd (restorePhotoURL [] (updateTruckId u) unitNumber (Some reader) w1))
        !! updateTruckId u = Some restored
        /\ fieldText "photoURL" restored = url
        /\ restored !! "mileage" = Some (VNumber (newMileage u)))
  /\ restorePhotoURL [] (updateTruckId u) unitNumber (Some reader) cleared
     = (None, cleared).
Proof.
  intros Hp Hd Hne Hid Hunit Hurl Hbackup w1 cleared.
  assert (Hw1 : w1 = withDocs (<[updateTruckId u := mileageWrite uid (time w) u ∪ old]>
                                 (docs w)) w).
  { subst w1. unfold handleSubmit. cbn [filter list_filter].
    rewrite decide_True by done. cbn [filter list_filter length].
    rewrite bool_decide_eq_false_2 by done. cbn [updateAll].
    rewrite (updateTruck_form _ _ _ old) by done. done. }
  destruct (written_fields uid (time w) u old) as (Hm & _ & Hph & _).
  cbv zeta in Hm, Hph.
  split; [|split; [|split]].
  - eexists. rewrite Hw1. cbn [docs withDocs]. rewrite lookup_insert_eq.
    split; [done|]. unfold fieldText. by rewrite Hph.
  - unfold restorePhotoURL. rewrite Hunit, (bool_decide_eq_false_2 _ Hid).
    cbn [JS.truthy negb andb]. rewrite Hw1. cbn [storage withDocs].
    by rewrite Hbackup, Hurl.
  - unfold restorePhotoURL. rewrite Hunit, (bool_decide_eq_false_2 _ Hid).
    cbn [JS.truthy negb andb]. rewrite Hw1. cbn [storage withDocs].
    rewrite Hbackup, Hurl. cbn [snd].
    erewrite updateDoc_healthy; [|done|cbn [docs withDocs]; by rewrite lookup_insert_eq].
    cbn [snd docs withDocs]. eexists. rewrite lookup_insert_eq. split; [done|].
    split.
    + unfold fieldText. rewrite (lookup_union_Some_l _ _ _ (VString url)); [done|].
      by do 2 (rewrite lookup_insert_ne by done); rewrite lookup_insert_eq.
    + rewrite lookup_union_r; [done|].
      by do 3 (rewrite lookup_insert_ne by done).
  - unfold restorePhotoURL. rewrite Hunit, (bool_decide_eq_false_2 _ Hid).
    cbn [JS.truthy negb andb]. subst cleared. cbn [storage withStorage].
    by rewrite getPhotoURLBackup_clearCache.
Qed.

Lemma backup_restores_erased_photo_witness :
  fst (restorePhotoURL [] "truck-52" (JS.lit "52") (Some "medic")
         (snd (handleSubmit (Some "medic")
                 [mkMileageUpdate "truck-52" "52" 101000 101250]
                 (mkClient
                    {[ "truck-52" := {[ "photoURL" := VString (JS.lit "https://x/Aa.jpg") ]} ]}
                    (savePhotoURLBackup (JS.lit "52") (JS.lit "https://x/Aa.jpg") true empty)
                    0 []))))
  = Some (JS.lit "https://x/Aa.jpg").
Proof.
  apply (backup_restores_erased_photo "medic" "medic"
           (mkMileageUpdate "truck-52" "52" 101000 101250) (JS.lit "52")
           (JS.lit "https://x/Aa.jpg")
           (mkClient
              {[ "truck-52" := {[ "photoURL" := VString (JS.lit "https://x/Aa.jpg") ]} ]}
              (savePhotoURLBackup (JS.lit "52") (JS.lit "https://x/Aa.jpg") true empty)
              0 [])
           {[ "photoURL" := VString (JS.lit "https://x/Aa.jpg") ]});
    try reflexivity; done.
Defined.

End DocumentFacts.
